(** * EmailSummarizer: the batch pipeline over a model of its collaborators

    A shallow embedding of [gmail_utils.py], [summarizer.py],
    [sheets_utils.py] and of the two batch entry points of [main.py].
    The mail provider, the spreadsheet store and the language model are
    external services: they are modelled by a [world] that holds their
    state, records every call made to them and decides, call by call,
    whether the call fails.  Python exceptions are explicit results; the
    world survives a raise, as it does in Python. *)

From Stdlib Require Import String Ascii List Arith Bool Lia DecimalString.
Import ListNotations.
Local Open Scope string_scope.
Local Open Scope list_scope.

(** ** Python strings

    A [str] is modelled by [string]; every [ascii] stands for one code
    point below 256. *)

Definition nl : string := String (ascii_of_nat 10) EmptyString.

(** [str.isspace] on the code points below 256. *)
Definition isspace (c : ascii) : bool :=
  let n := nat_of_ascii c in
  ((9 <=? n)%nat && (n <=? 13)%nat) || ((28 <=? n)%nat && (n <=? 32)%nat)
  || (n =? 133)%nat || (n =? 160)%nat.

Definition is_empty (s : string) : bool :=
  match s with EmptyString => true | String _ _ => false end.

(** [sep.join(l)]. *)
Definition join (sep : string) (l : list string) : string := String.concat sep l.

(** [s.split()]: the maximal runs of non-whitespace characters; [cur] is
    the run being read. *)
Fixpoint split_ws_from (cur : string) (s : string) : list string :=
  match s with
  | EmptyString => if is_empty cur then [] else [cur]
  | String c s' =>
      if isspace c
      then (if is_empty cur then split_ws_from "" s'
            else cur :: split_ws_from "" s')
      else split_ws_from (cur ++ String c "") s'
  end.

Definition split_ws (s : string) : list string := split_ws_from "" s.

(** [s[:n]]. *)
Definition take (n : nat) (s : string) : string := substring 0 n s.

(** [s.strip()]. *)
Fixpoint lstrip (s : string) : string :=
  match s with
  | EmptyString => ""
  | String c s' => if isspace c then lstrip s' else s
  end.

Fixpoint rstrip (s : string) : string :=
  match s with
  | EmptyString => ""
  | String c s' =>
      let r := rstrip s' in
      if is_empty r && isspace c then "" else String c r
  end.

Definition strip (s : string) : string := rstrip (lstrip s).

(** [s.split(sep)] for a non-empty separator: the scan cuts at the
    leftmost occurrences; [skip] counts the separator characters still to
    be passed over, [cur] is the piece being read. *)
Fixpoint split_from (sep : string) (skip : nat) (cur : string) (s : string)
  : list string :=
  match s with
  | EmptyString => [cur]
  | String c s' =>
      match skip with
      | S k => split_from sep k cur s'
      | O =>
          if prefix sep s
          then cur :: split_from sep (String.length sep - 1) "" s'
          else split_from sep 0 (cur ++ String c "") s'
      end
  end.

Definition split (sep : string) (s : string) : list string :=
  split_from sep 0 "" s.

(** ** Exceptions

    The classes the code raises or handles by name; every other subclass
    of [Exception] is [OtherError].  [str_exn] is [str(e)]. *)

Inductive exn : Type :=
| HttpError (status : nat) (text : string)
| ValueError (text : string)
| PermissionError (text : string)
| HTTPException (status_code : nat) (detail : string)
| OtherError (text : string).

Definition str_exn (e : exn) : string :=
  match e with
  | HttpError _ t => t
  | ValueError t => t
  | PermissionError t => t
  | HTTPException _ d => d
  | OtherError t => t
  end.

Inductive result (A : Type) : Type :=
| Ok (a : A)
| Raise (e : exn).

Arguments Ok {A} a.
Arguments Raise {A} e.

(** ** The mail provider's data *)

Record header : Type := mkHeader { name : string; value : string }.

(** A message part: [mimeType], [headers], [body.data] and [parts].  An
    absent key is the empty string or the empty list, which the code
    cannot tell apart from a present but empty one ([.get] and truth
    tests only). *)
#[warnings="-register-all"]
Inductive part : Type :=
| Part (mimeType : string) (headers : list header) (data : string)
       (parts : list part).

Definition part_headers (p : part) : list header :=
  match p with Part _ hs _ _ => hs end.

Record message : Type := mkMessage {
  id : string;
  unread : bool;
  payload : part
}.

(** ** Calls made to the outside, in the order they are made *)

Inductive level : Type := INFO | WARNING | ERROR.

Inductive event : Type :=
| EGmailAuth
| ESheetsAuth
| EList (maxResults : nat)
| EGet (msg_id : string)
| EModify (msg_id : string)
| ESummarize (text : string)
| ESheetGet (range : string)
| ESheetAppend (range : string) (row : list string)
| ELog (lvl : level) (text : string).

(** ** The world

    [mailbox] is the provider's listing, in the provider's order; [sheet]
    the rows of the spreadsheet; [SPREADSHEET_ID] and [SHEET_NAME] the two
    module constants read from the environment; [clock] what
    [datetime.now().strftime(...)] yields; [model] the content of the
    first choice of the language model's reply ([None]: no content);
    [faults] the outcome of the coming service calls, one entry per call
    ([Some e]: the call raises [e] and has no effect; [None] or no entry:
    it succeeds); [trace] the calls made so far. *)

Record world : Type := mkWorld {
  mailbox : list message;
  sheet : list (list string);
  SPREADSHEET_ID : string;
  SHEET_NAME : string;
  clock : string;
  model : string -> option string;
  faults : list (option exn);
  trace : list event
}.

Definition set_mailbox (m : list message) (w : world) : world :=
  mkWorld m (sheet w) (SPREADSHEET_ID w) (SHEET_NAME w) (clock w) (model w)
          (faults w) (trace w).

Definition set_sheet (s : list (list string)) (w : world) : world :=
  mkWorld (mailbox w) s (SPREADSHEET_ID w) (SHEET_NAME w) (clock w) (model w)
          (faults w) (trace w).

Definition set_faults (f : list (option exn)) (w : world) : world :=
  mkWorld (mailbox w) (sheet w) (SPREADSHEET_ID w) (SHEET_NAME w) (clock w)
          (model w) f (trace w).

Definition record (e : event) (w : world) : world :=
  mkWorld (mailbox w) (sheet w) (SPREADSHEET_ID w) (SHEET_NAME w) (clock w)
          (model w) (faults w) (trace w ++ [e]).

(** ** The monad of the embedding: state and exceptions *)

Definition M (A : Type) : Type := world -> result A * world.

Definition ret {A} (a : A) : M A := fun w => (Ok a, w).

Definition raise {A} (e : exn) : M A := fun w => (Raise e, w).

Definition bind {A B} (m : M A) (k : A -> M B) : M B :=
  fun w =>
    match m w with
    | (Ok a, w') => k a w'
    | (Raise e, w') => (Raise e, w')
    end.

(** [try: m  except Exception as e: h e]. *)
Definition try_except {A} (m : M A) (h : exn -> M A) : M A :=
  fun w =>
    match m w with
    | (Ok a, w') => (Ok a, w')
    | (Raise e, w') => h e w'
    end.

Declare Scope py_scope.
Delimit Scope py_scope with py.
Notation "x <- m ;; k" := (bind m (fun x => k))
  (at level 61, m at next level, right associativity) : py_scope.
Notation "m ;; k" := (bind m (fun _ => k))
  (at level 61, right associativity) : py_scope.
Local Open Scope py_scope.

(** [for x in l: f x], collecting what the bodies return. *)
Fixpoint for_each {A B} (f : A -> M B) (l : list A) : M (list B) :=
  match l with
  | [] => ret []
  | x :: l' => y <- f x ;; ys <- for_each f l' ;; ret (y :: ys)
  end.

(** A call to a service: it is recorded, it consumes the next entry of
    [faults], and it either raises that entry or runs [ok]. *)
Definition advance (e : event) (w : world) : world :=
  set_faults (tl (faults w)) (record e w).

Definition service_call {A} (e : event) (ok : M A) : M A :=
  fun w =>
    match hd None (faults w) with
    | Some x => (Raise x, advance e w)
    | None => ok (advance e w)
    end.

(** [logging.info], [logging.warning], [logging.error]: recorded, never
    failing. *)
Definition logging (lvl : level) (text : string) : M unit :=
  fun w => (Ok tt, record (ELog lvl text) w).

(** Reading a module constant or the clock. *)
Definition ask {A} (f : world -> A) : M A := fun w => (Ok (f w), w).

(** [str(n)] for a length. *)
Definition str_nat (n : nat) : string := NilEmpty.string_of_uint (Nat.to_uint n).

(** ** The mail provider (Gmail API), as the code calls it *)

Definition unread_ids (m : list message) : list string :=
  map id (filter unread m).

(** [messages().list(userId='me', maxResults=n, q="is:unread").execute()]:
    the ids of the first [n] unread messages, in the provider's order (an
    absent ['messages'] key is the empty list). *)
Definition messages_list (maxResults : nat) : M (list string) :=
  service_call (EList maxResults)
    (fun w => (Ok (firstn maxResults (unread_ids (mailbox w))), w)).

Definition find_message (msg_id : string) (m : list message) : option message :=
  find (fun x => String.eqb (id x) msg_id) m.

(** [messages().get(userId='me', id=msg_id, format='full').execute()]. *)
Definition messages_get (msg_id : string) : M message :=
  service_call (EGet msg_id)
    (fun w =>
       match find_message msg_id (mailbox w) with
       | Some m => (Ok m, w)
       | None => (Raise (HttpError 404 "Requested entity was not found."), w)
       end).

Definition clear_unread (msg_id : string) (m : list message) : list message :=
  map (fun x => if String.eqb (id x) msg_id
                then mkMessage (id x) false (payload x) else x) m.

(** [messages().modify(userId='me', id=msg_id,
    body={'removeLabelIds': ['UNREAD']}).execute()]. *)
Definition messages_modify (msg_id : string) : M unit :=
  service_call (EModify msg_id)
    (fun w =>
       match find_message msg_id (mailbox w) with
       | Some _ => (Ok tt, set_mailbox (clear_unread msg_id (mailbox w)) w)
       | None => (Raise (HttpError 404 "Requested entity was not found."), w)
       end).

(** The credential flows are outside the pipeline: one call each, which
    succeeds or raises. *)
Definition gmail_auth : M unit := service_call EGmailAuth (ret tt).
Definition sheets_auth : M unit := service_call ESheetsAuth (ret tt).

(** ** The language model (Groq), as the code calls it *)

(** [client.chat.completions.create(...)], then
    [response.choices[0].message.content]. *)
Definition chat_completions_create (text : string) : M (option string) :=
  service_call (ESummarize text) (fun w => (Ok (model w text), w)).

(** ** The spreadsheet store (Sheets API), as the code calls it *)

Definition nonblank (row : list string) : bool :=
  existsb (fun c => negb (is_empty c)) row.

(** What the store returns under ['values'] for the range [A1:E1]: the
    first row cut to five cells, or nothing when those cells are blank. *)
Definition header_range_values (s : list (list string)) : list (list string) :=
  match s with
  | [] => []
  | r :: _ => if nonblank (firstn 5 r) then [firstn 5 r] else []
  end.

(** [service.values().get(spreadsheetId=..., range=...).execute()
    .get('values')] on the header range. *)
Definition values_get (range : string) : M (list (list string)) :=
  service_call (ESheetGet range)
    (fun w => (Ok (header_range_values (sheet w)), w)).

(** [service.values().append(spreadsheetId=..., range=...,
    valueInputOption="RAW", body={"values": [row]}).execute()]: the row
    goes after the last row of the sheet. *)
Definition values_append (range : string) (row : list string) : M unit :=
  service_call (ESheetAppend range row)
    (fun w => (Ok tt, set_sheet (sheet w ++ [row]) w)).

(** ** A decoder to run the code with

    [base64.urlsafe_b64decode(data).decode('utf-8')] as CPython computes
    it.  The theorems hold for every decoder; the examples run with this
    one.  A text with a code point from 256 on has no counterpart among
    the strings of this development: the decoder answers [None] for it,
    as it does where Python raises. *)

(** The value of a character of the alphabet; [-] and [_] are translated
    to [+] and [/] before the decoding, which accepts all four. *)
Definition b64_value (c : ascii) : option nat :=
  let n := nat_of_ascii c in
  if ((65 <=? n) && (n <=? 90))%nat then Some (n - 65)
  else if ((97 <=? n) && (n <=? 122))%nat then Some (n - 71)
  else if ((48 <=? n) && (n <=? 57))%nat then Some (n + 4)
  else if ((n =? 45) || (n =? 43))%nat then Some 62
  else if ((n =? 95) || (n =? 47))%nat then Some 63
  else None.

Definition is_pad (c : ascii) : bool := (nat_of_ascii c =? 61)%nat.

Definition cons_byte (b : nat) (s : option (list nat)) : option (list nat) :=
  match s with
  | Some t => Some (b :: t)
  | None => None
  end.

(** [binascii.a2b_base64] without [strict_mode]: characters outside the
    alphabet are passed over; a pad that completes a group of four ends
    the decoding, whatever follows; input that ends inside a group is an
    error.  [quad_pos] is the position in the group, [leftchar] the bits
    not yet written, [pads] the pads seen since the last character of the
    alphabet. *)
Fixpoint a2b_base64 (quad_pos leftchar pads : nat) (s : string)
  : option (list nat) :=
  match s with
  | EmptyString => if (quad_pos =? 0)%nat then Some [] else None
  | String ch rest =>
      if is_pad ch then
        if (2 <=? quad_pos)%nat then
          if (4 <=? quad_pos + S pads)%nat then Some []
          else a2b_base64 quad_pos leftchar (S pads) rest
        else a2b_base64 quad_pos leftchar pads rest
      else
        match b64_value ch with
        | None => a2b_base64 quad_pos leftchar pads rest
        | Some v =>
            match quad_pos with
            | 0 => a2b_base64 1 v 0 rest
            | 1 => cons_byte (leftchar * 4 + v / 16)
                             (a2b_base64 2 (v mod 16) 0 rest)
            | 2 => cons_byte (leftchar * 16 + v / 4)
                             (a2b_base64 3 (v mod 4) 0 rest)
            | _ => cons_byte (leftchar * 64 + v) (a2b_base64 0 0 0 rest)
            end
        end
  end.

(** A [str] given to [urlsafe_b64decode] must hold ASCII characters
    only. *)
Fixpoint all_ascii (s : string) : bool :=
  match s with
  | EmptyString => true
  | String c rest => (nat_of_ascii c <? 128)%nat && all_ascii rest
  end.

Definition continuation (b : nat) : bool := ((128 <=? b) && (b <=? 191))%nat.

(** [bytes.decode('utf-8')] up to the code point 255: a byte below 128
    stands for itself, the lead bytes 194 and 195 with a continuation byte
    give the code points from 128 to 255. *)
Fixpoint utf8_decode (bytes : list nat) : option string :=
  match bytes with
  | [] => Some ""
  | b :: rest =>
      if (b <? 128)%nat then
        match utf8_decode rest with
        | Some t => Some (String (ascii_of_nat b) t)
        | None => None
        end
      else if ((b =? 194) || (b =? 195))%nat then
        match rest with
        | c :: rest' =>
            if continuation c then
              match utf8_decode rest' with
              | Some t => Some (String (ascii_of_nat ((b - 192) * 64 + (c - 128))) t)
              | None => None
              end
            else None
        | [] => None
        end
      else None
  end.

Definition b64decode_ascii (s : string) : option string :=
  if all_ascii s then
    match a2b_base64 0 0 0 s with
    | Some bytes => utf8_decode bytes
    | None => None
    end
  else None.

(** * Worlds to run the code in *)

Module Demo.

Definition text_part (mime data : string) : part := Part mime [] data [].

(** A message whose top part carries the headers and two alternatives. *)
Definition msg (i from subj plain html : string) (u : bool) : message :=
  mkMessage i u
    (Part "multipart/alternative"
          [mkHeader "From" from; mkHeader "Subject" subj] ""
          [text_part "text/plain" plain; text_part "text/html" html]).

(** Two unread messages around one that is read; the bodies are
    ["body1"] and ["body2"] in base64. *)
Definition inbox : list message :=
  [ msg "m1" "sender1" "subj1" "Ym9keTE=" "PGI-aGk8L2I-" true;
    msg "m0" "sender0" "subj0" "Ym9keTE=" "" false;
    msg "m2" "sender2" "subj2" "Ym9keTI=" "" true ].

Definition reply (_ : string) : option string := Some "Summary text".

Definition world0 (f : list (option exn)) : world :=
  mkWorld inbox [] "sheet-id" "summary1" "2024-01-01 00:00:00" reply f [].

(** The same with nothing unread. *)
Definition world_read (f : list (option exn)) : world :=
  set_mailbox [msg "m0" "sender0" "subj0" "Ym9keTE=" "" false] (world0 f).

(** What the fetch returns in [world0]. *)
Definition batch : list (string * string * string * string) :=
  [("m1", "sender1", "subj1", "body1"); ("m2", "sender2", "subj2", "body2")].

(** Six calls precede the ledger write: two credential flows, the
    listing, two message reads and the summarization. *)
Definition up_to_write : list (option exn) :=
  [None; None; None; None; None; None].

(** The provider is unavailable when the header range is read. *)
Definition world_write_fails : world :=
  world0 (up_to_write ++ [Some (HttpError 503 "The service is currently unavailable.")]).

(** The summarization call fails. *)
Definition world_model_fails : world :=
  world0 [None; None; None; None; None; Some (OtherError "rate limit exceeded")].

(** The read of the second message fails. *)
Definition world_get_fails : world :=
  world0 [None; None; None; None; Some (HttpError 500 "Backend Error")].

(** The first mark-read call fails; the second would succeed. *)
Definition world_modify_fails : world :=
  world0 [Some (HttpError 500 "Backend Error")].

(** A sender whose header value holds a newline. *)
Definition two_line_sender : string := "Ann Lee" ++ nl ++ " <ann@example.org>".

Definition world_two_line_sender : world :=
  set_mailbox [msg "m7" two_line_sender "subj7" "Ym9keTE=" "" true] (world0 []).

(** The connection times out when the header range is read. *)
Definition world_timeout : world := world0 [Some (OtherError "timed out")].

(** An unread message whose [From] header has the empty value. *)
Definition world_empty_sender : world :=
  set_mailbox [msg "m9" "" "subj9" "Ym9keTE=" "" true] (world0 []).

End Demo.

(** * Credential flows: gmail_utils.py

    [gmail_auth] and [get_credentials] over a model of what they touch:
    the two files, the refresh of a credentials object, the interactive
    flow and the log. *)

Module Credentials.

(** A credentials object: [creds.valid], [creds.expired],
    [creds.refresh_token] ([None] when there is none) and the access
    token.  The client id and secret, which the credentials of these flows
    always carry, are left out. *)
Record creds : Type := mkCreds {
  valid : bool;
  expired : bool;
  refresh_token : option string;
  token : string
}.

(** The truth value of [creds.refresh_token]. *)
Definition has_refresh_token (c : creds) : bool :=
  match refresh_token c with
  | Some s => negb (is_empty s)
  | None => false
  end.

(** [token.json]: absent, or such that
    [Credentials.from_authorized_user_file] raises, or holding
    credentials. *)
Inductive token_file : Type :=
| Absent
| Unreadable (why : string)
| Holds (c : creds).

(** [refresh c]: what [c.refresh(Request())] does, an error text when it
    raises and otherwise the object as refreshed; [flow]: the outcome of
    [InstalledAppFlow.from_client_secrets_file] and [run_local_server];
    [write_error]: the error with which opening [token.json] for writing
    fails, if it does (the file is then as it was); [remove_error]: the
    error with which [os.remove] fails, if it does. *)
Record env : Type := mkEnv {
  token_json : token_file;
  credentials_json : bool;
  refresh : creds -> string + creds;
  flow : string + creds;
  write_error : option string;
  remove_error : option string;
  log : list (level * string)
}.

Definition set_token (t : token_file) (e : env) : env :=
  mkEnv t (credentials_json e) (refresh e) (flow e) (write_error e)
        (remove_error e) (log e).

Definition logging (lvl : level) (text : string) (e : env) : env :=
  mkEnv (token_json e) (credentials_json e) (refresh e) (flow e)
        (write_error e) (remove_error e) (log e ++ [(lvl, text)]).

(** What [gmail_auth] raises: [FileNotFoundError], what [os.remove]
    raises, and the [Exception] that wraps a failure of the flow. *)
Inductive error : Type :=
| FileNotFoundError (text : string)
| OSError (text : string)
| Exception (text : string).

(** The outcome of a step: what it returns or raises, and the environment
    it leaves. *)
Definition outcome (A : Type) : Type := ((error + A) * env)%type.

(** The arrow of the message below, as the three bytes of its UTF-8
    form. *)
Definition arrow : string :=
  String (ascii_of_nat 226) (String (ascii_of_nat 134)
    (String (ascii_of_nat 146) EmptyString)).

(** The message of the [FileNotFoundError]. *)
Definition CREDENTIALS_MISSING : string :=
  "credentials.json file not found. Please download it from Google Cloud Console:"
  ++ nl ++ "1. Go to https://console.cloud.google.com/"
  ++ nl ++ "2. APIs & Services " ++ arrow ++ " Credentials"
  ++ nl ++ "3. Download OAuth 2.0 Client ID as 'credentials.json'".

Definition oauth_failed (why : string) : string :=
  "OAuth authentication failed: " ++ why ++ nl ++ nl ++
  "Please check:" ++ nl ++
  "1. Your credentials.json file is valid" ++ nl ++
  "2. OAuth redirect URIs include: http://localhost:8080/" ++ nl ++
  "3. Gmail API and Sheets API are enabled in Google Cloud Console" ++ nl ++
  "4. Your OAuth consent screen is configured".

(** [if os.path.exists('token.json'): os.remove('token.json')], inside an
    [except] clause: a failure of [os.remove] leaves the function. *)
Definition remove_token (e : env) : outcome unit :=
  match token_json e with
  | Absent => (inr tt, e)
  | _ => match remove_error e with
         | Some why => (inl (OSError why), e)
         | None => (inr tt, set_token Absent e)
         end
  end.

(** The block "Load existing token" of [gmail_auth]. *)
Definition load_existing (e : env) : outcome (option creds) :=
  match token_json e with
  | Absent => (inr None, e)
  | Holds c => (inr (Some c), e)
  | Unreadable why =>
      match remove_token
              (logging WARNING ("Error loading existing token: " ++ why) e) with
      | (inl err, e') => (inl err, e')
      | (inr _, e') => (inr None, e')
      end
  end.

(** [if creds and creds.expired and creds.refresh_token:] with its [try]. *)
Definition refresh_step (c : creds) (e : env) : outcome (option creds) :=
  if expired c && has_refresh_token c then
    match refresh e c with
    | inr c' => (inr (Some c'), logging INFO "Successfully refreshed token" e)
    | inl why =>
        match remove_token
                (logging ERROR ("Error refreshing token: " ++ why) e) with
        | (inl err, e') => (inl err, e')
        | (inr _, e') => (inr None, e')
        end
    end
  else (inr (Some c), e).

(** The interactive flow of the block [if not creds:]. *)
Definition flow_step (e : env) : outcome creds :=
  if credentials_json e then
    match flow e with
    | inr c =>
        (inr c, logging INFO
                  "Successfully obtained new credentials with combined scopes" e)
    | inl why =>
        (inl (Exception (oauth_failed why)),
         logging ERROR ("OAuth flow failed: " ++ why) e)
    end
  else (inl (FileNotFoundError CREDENTIALS_MISSING), e).

(** What [token.json] is once [creds.to_json()] has been written to it.
    [to_json] leaves out the entries that are [None], and
    [from_authorized_user_file] raises [ValueError] for a file without the
    entry [refresh_token]: credentials without a refresh token do not
    come back from the file written for them. *)
Definition MISSING_REFRESH_TOKEN : string :=
  "Authorized user info was not in the expected format, missing fields refresh_token.".

Definition written (c : creds) : token_file :=
  match refresh_token c with
  | Some _ => Holds c
  | None => Unreadable MISSING_REFRESH_TOKEN
  end.

(** The block "Save credentials for next run". *)
Definition save_step (c : creds) (e : env) : env :=
  match write_error e with
  | None => logging INFO "Credentials saved to token.json" (set_token (written c) e)
  | Some why => logging WARNING ("Could not save token: " ++ why) e
  end.

(** [if not creds:] and the save: the flow runs only when there is no
    credentials object. *)
Definition obtain (creds0 : option creds) (e : env) : outcome creds :=
  match creds0 with
  | Some c => (inr c, save_step c e)
  | None =>
      match flow_step e with
      | (inl err, e') => (inl err, e')
      | (inr c, e') => (inr c, save_step c e')
      end
  end.

(** [gmail_auth] up to its last line: the credentials that
    [build('gmail', 'v1', credentials=creds)] is called with. *)
Definition gmail_auth (e : env) : outcome creds :=
  match load_existing e with
  | (inl err, e1) => (inl err, e1)
  | (inr (Some c), e1) =>
      if valid c then (inr c, e1)
      else match refresh_step c e1 with
           | (inl err, e2) => (inl err, e2)
           | (inr creds1, e2) => obtain creds1 e2
           end
  | (inr None, e1) => obtain None e1
  end.

(** [get_credentials]. *)
Definition get_credentials (e : env) : option creds * env :=
  match token_json e with
  | Absent => (None, e)
  | Unreadable why => (None, logging WARNING ("Error loading token: " ++ why) e)
  | Holds c =>
      if valid c then (Some c, e)
      else if expired c && has_refresh_token c then
        match refresh e c with
        | inr c' => (Some c', e)
        | inl why => (None, logging ERROR ("Error refreshing credentials: " ++ why) e)
        end
      else (None, e)
  end.

(** ** auth_setup.py

    The two steps of the setup script that touch [token.json]; what they
    print is left out. *)

(** [clean_existing_auth]: a failure of [os.remove] is printed, not
    raised. *)
Definition clean_existing_auth (e : env) : env :=
  match token_json e with
  | Absent => e
  | _ => match remove_error e with
         | Some _ => e
         | None => set_token Absent e
         end
  end.

(** [authenticate_gmail]: the flow, then the write of [token.json], in one
    [try] whose [except Exception] returns [None]. *)
Definition authenticate_gmail (e : env) : option creds * env :=
  if credentials_json e then
    match flow e with
    | inr c =>
        match write_error e with
        | None => (Some c, set_token (written c) e)
        | Some _ => (None, e)
        end
    | inl _ => (None, e)
    end
  else (None, e).

End Credentials.

(** Environments for concrete runs of the credential flows. *)
Module TokenDemo.

Import Credentials.

Definition fresh : creds := mkCreds true false (Some "1//0g-refresh") "ya29.fresh".

(** Expired, with a refresh token. *)
Definition stale : creds := mkCreds false true (Some "1//0g-refresh") "ya29.stale".

(** Expired, without a refresh token. *)
Definition dead : creds := mkCreds false true None "ya29.dead".

(** Valid, without a refresh token: what the flow returns when the
    provider issues none. *)
Definition access_only : creds := mkCreds true false None "ya29.access".

(** [token.json] holds [t]; there is no [credentials.json]; a refresh
    gives [fresh]; the flow would give [fresh]; files can be written and
    removed. *)
Definition with_token (t : token_file) : env :=
  mkEnv t false (fun _ => inr fresh) (inr fresh) None None [].

(** Before the setup script is run: an old token and [credentials.json];
    the flow gives [c]. *)
Definition before_setup (c : creds) : env :=
  mkEnv (Holds dead) true (fun _ => inr fresh) (inr c) None None [].

End TokenDemo.

(** * The code *)

Section Pipeline.

(** [base64.urlsafe_b64decode(data).decode('utf-8')], a function of the
    Python library: [None] when either step raises. *)
Variable b64decode_utf8 : string -> option string.

(** ** gmail_utils.py *)

Definition NO_READABLE_CONTENT : string := "No readable content found".

(** [get_body_recursive], with the [nonlocal body] passed in and out: the
    result is what the function returns and the new [body].  The
    [logging.warning] of a decoding failure is left out. *)
Fixpoint get_body_recursive (p : part) (body : string) : bool * string :=
  match p with
  | Part mimeType _ data parts =>
      let '(returned, body1) :=
        if String.eqb mimeType "text/plain" then
          if is_empty data then (false, body)
          else match b64decode_utf8 data with
               | Some text => (true, text)
               | None => (false, body)
               end
        else if String.eqb mimeType "text/html" && is_empty body then
          if is_empty data then (false, body)
          else match b64decode_utf8 data with
               | Some text => (false, text)
               | None => (false, body)
               end
        else (false, body) in
      if returned then (true, body1)
      else
        (fix loop (l : list part) (b : string) {struct l} : bool * string :=
           match l with
           | [] => (false, b)
           | subpart :: rest =>
               let '(r, b') := get_body_recursive subpart b in
               if r then (true, b') else loop rest b'
           end) parts body1
  end.

Definition extract_body (payload : part) : string :=
  let body := snd (get_body_recursive payload "") in
  let body := if is_empty body then body
              else take 2000 (join " " (split_ws body)) in
  if is_empty body then NO_READABLE_CONTENT else body.

(** [next((h['value'] for h in headers if h['name'] == n), default)]. *)
Fixpoint header_value (n : string) (default : string) (hs : list header)
  : string :=
  match hs with
  | [] => default
  | h :: hs' => if String.eqb (name h) n then value h
                else header_value n default hs'
  end.

(** An element of the list [fetch_unread_emails] returns:
    [(msg_id, sender, subject, body)]. *)
Definition email : Type := (string * string * string * string)%type.

Definition email_id (e : email) : string := let '(i, _, _, _) := e in i.
Definition email_sender (e : email) : string := let '(_, s, _, _) := e in s.
Definition email_subject (e : email) : string := let '(_, _, s, _) := e in s.
Definition email_body (e : email) : string := let '(_, _, _, b) := e in b.

(** The body of the loop of [fetch_unread_emails]. *)
Definition fetch_one (msg_id : string) : M email :=
  msg_data <- messages_get msg_id ;;
  let headers := part_headers (payload msg_data) in
  let sender := header_value "From" "Unknown" headers in
  let subject := header_value "Subject" "No Subject" headers in
  let body := extract_body (payload msg_data) in
  ret (msg_id, sender, subject, body).

(** The [try] block of [fetch_unread_emails]. *)
Definition fetch_unread_emails_try (max_results : nat) : M (list email) :=
  result <- messages_list max_results ;;
  match result with
  | [] => logging INFO "No unread emails found" ;; ret []
  | _ => for_each fetch_one result
  end.

(** The two [except] clauses of [fetch_unread_emails]. *)
Definition fetch_unread_emails_except (e : exn) : M (list email) :=
  match e with
  | HttpError _ _ => logging ERROR ("Gmail API error: " ++ str_exn e) ;; ret []
  | _ => logging ERROR ("Unexpected error fetching emails: " ++ str_exn e) ;;
         ret []
  end.

Definition fetch_unread_emails (max_results : nat) : M (list email) :=
  try_except (fetch_unread_emails_try max_results) fetch_unread_emails_except.

(** The default of the parameter [max_results]. *)
Definition MAX_RESULTS_DEFAULT : nat := 10.

(** The loop of [mark_as_read] and the log line after it. *)
Definition mark_as_read_try (msg_ids : list string) : M unit :=
  for_each messages_modify msg_ids ;;
  logging INFO ("Marked " ++ str_nat (List.length msg_ids) ++ " emails as read").

Definition mark_as_read (msg_ids : list string) : M unit :=
  match msg_ids with
  | [] => ret tt
  | _ => try_except (mark_as_read_try msg_ids)
           (fun e => logging ERROR ("Error marking emails as read: " ++ str_exn e))
  end.

(** ** summarizer.py *)

Definition summarize_email_try (text : string) : M string :=
  content <- chat_completions_create text ;;
  match content with
  | Some c => ret (strip c)
  | None => raise (OtherError "'NoneType' object has no attribute 'strip'")
  end.

Definition summarize_email (text : string) : M string :=
  try_except (summarize_email_try text)
    (fun e => ret ("Error generating summary: " ++ str_exn e)%string).

(** ** sheets_utils.py *)

Definition HEADER_ROW : list string :=
  ["Timestamp"; "Sender"; "Subject"; "Email"; "Summary"].

(** The inner [try] block of [append_to_sheet]: the header check and, on
    an empty header range, the header row. *)
Definition ensure_header_try : M unit :=
  sheet_name <- ask SHEET_NAME ;;
  result <- values_get (sheet_name ++ "!A1:E1") ;;
  match result with
  | [] => values_append (sheet_name ++ "!A1") HEADER_ROW
  | _ => ret tt
  end.

(** Its [except HttpError as e]: any other exception passes through. *)
Definition ensure_header_except (e : exn) : M unit :=
  match e with
  | HttpError status _ =>
      if Nat.eqb status 403
      then raise (PermissionError
                    "Insufficient permissions to access the spreadsheet")
      else raise e
  | _ => raise e
  end.

Definition ensure_header : M unit :=
  try_except ensure_header_try ensure_header_except.

(** The outer [try] block of [append_to_sheet]. *)
Definition append_to_sheet_try (senders subjects emails summary : string)
  : M unit :=
  spreadsheet_id <- ask SPREADSHEET_ID ;;
  if is_empty spreadsheet_id
  then raise (ValueError "SPREADSHEET_ID not set in environment variables")
  else
    timestamp <- ask clock ;;
    ensure_header ;;
    sheet_name <- ask SHEET_NAME ;;
    values_append (sheet_name ++ "!A:E")
                  [timestamp; senders; subjects; emails; summary].

Definition append_to_sheet (senders subjects emails summary : string)
  : M unit :=
  try_except (append_to_sheet_try senders subjects emails summary)
    (fun e => logging ERROR ("Error appending to sheet: " ++ str_exn e) ;;
              raise e).

(** ** main.py *)

(** What [process_unread_emails] returns:
    [{"message": "No unread emails found", "count": 0}] or
    [{"status": "success", "count": ..., "senders": ..., "summary": ...}]. *)
Inductive response : Type :=
| NoUnreadEmails
| Success (count : nat) (senders : list string) (summary : string).

(** The text given to the summarizer: one record per message. *)
Definition combined_text (emails : list email) : string :=
  join (nl ++ nl)
    (map (fun e => "Sender: " ++ email_sender e ++ nl ++
                   "Subject: " ++ email_subject e ++ nl ++
                   "Body: " ++ email_body e)%string emails).

(** The [try] block of [process_unread_emails]. *)
Definition process_unread_emails_try : M response :=
  gmail_auth ;;
  sheets_auth ;;
  unread_emails <- fetch_unread_emails MAX_RESULTS_DEFAULT ;;
  match unread_emails with
  | [] => ret NoUnreadEmails
  | _ =>
      let msg_ids := map email_id unread_emails in
      let senders := map email_sender unread_emails in
      let subjects := map email_subject unread_emails in
      let bodies := map email_body unread_emails in
      summary <- summarize_email (combined_text unread_emails) ;;
      append_to_sheet (join nl senders) (join nl subjects)
                      (join (nl ++ nl) bodies) summary ;;
      mark_as_read msg_ids ;;
      ret (Success (List.length unread_emails) senders summary)
  end.

Definition process_unread_emails : M response :=
  try_except process_unread_emails_try
    (fun e => raise (HTTPException 500 (str_exn e))).

(** The [try] block of [auto_summarize_job]. *)
Definition auto_summarize_job_try : M unit :=
  gmail_auth ;;
  sheets_auth ;;
  unread_emails <- fetch_unread_emails MAX_RESULTS_DEFAULT ;;
  match unread_emails with
  | [] => logging INFO "No unread emails found"
  | _ =>
      let msg_ids := map email_id unread_emails in
      let senders := map email_sender unread_emails in
      let subjects := map email_subject unread_emails in
      let bodies := map email_body unread_emails in
      summary <- summarize_email (combined_text unread_emails) ;;
      let combined_senders := join nl senders in
      let combined_subjects := join nl subjects in
      let combined_bodies := join (nl ++ nl) bodies in
      append_to_sheet combined_senders combined_subjects combined_bodies
                      summary ;;
      mark_as_read msg_ids ;;
      logging INFO ("Processed " ++ str_nat (List.length unread_emails) ++ " emails")
  end.

Definition auto_summarize_job : M unit :=
  try_except auto_summarize_job_try
    (fun e => logging ERROR ("Error in auto_summarize_job: " ++ str_exn e)).



(** ** The single-message path: gmail_utils.py and main.py *)

(** What [fetch_latest_email] returns: [(sender, subject, body)], each
    [None] when nothing was fetched. *)
Definition latest : Type := (option string * option string * option string)%type.

Definition NOTHING : latest := (None, None, None).

(** The [try] block of [fetch_latest_email]: the first unread message is
    read and then marked as read, before anything is returned. *)
Definition fetch_latest_email_try : M latest :=
  result <- messages_list 1 ;;
  match result with
  | [] => logging INFO "No unread emails found" ;; ret NOTHING
  | msg_id :: _ =>
      msg <- messages_get msg_id ;;
      let headers := part_headers (payload msg) in
      let sender := header_value "From" "Unknown" headers in
      let subject := header_value "Subject" "No Subject" headers in
      let body := extract_body (payload msg) in
      messages_modify msg_id ;;
      logging INFO ("Successfully fetched email from " ++ sender ++
                    " with subject: " ++ subject) ;;
      ret (Some sender, Some subject, Some body)
  end.

(** Its two [except] clauses. *)
Definition fetch_latest_email_except (e : exn) : M latest :=
  match e with
  | HttpError _ _ => logging ERROR ("Gmail API error: " ++ str_exn e) ;; ret NOTHING
  | _ => logging ERROR ("Unexpected error fetching email: " ++ str_exn e) ;;
         ret NOTHING
  end.

Definition fetch_latest_email : M latest :=
  try_except fetch_latest_email_try fetch_latest_email_except.

(** What [summarize_and_store] returns: [{"message": "No unread email
    found."}] or [{"status": "success", "sender": ..., "subject": ...,
    "summary": ..., "timestamp": ...}]; the timestamp of the response, a
    second reading of the clock, is left out. *)
Inductive latest_response : Type :=
| NoUnreadEmail
| Stored (sender : string) (subject : option string) (summary : string).

(** An optional string inside an f-string, and as a cell of the row. *)
Definition fmt (o : option string) : string :=
  match o with Some s => s | None => "None" end.

Definition cell (o : option string) : string :=
  match o with Some s => s | None => EmptyString end.

(** The [try] block of [summarize_and_store]. *)
Definition summarize_and_store_try : M latest_response :=
  gmail_auth ;;
  sheets_auth ;;
  fetched_email <- fetch_latest_email ;;
  let '(sender, subject, email) := fetched_email in
  match sender with
  | None => ret NoUnreadEmail
  | Some s =>
      if is_empty s then ret NoUnreadEmail
      else
        summary <- summarize_email ("Sender: " ++ s ++ nl ++
                                    "Subject: " ++ fmt subject ++ nl ++
                                    "Body: " ++ fmt email) ;;
        append_to_sheet s (cell subject) (cell email) summary ;;
        ret (Stored s subject summary)
  end.

Definition summarize_and_store : M latest_response :=
  try_except summarize_and_store_try
    (fun e => logging ERROR ("Error in manual summarization: " ++ str_exn e) ;;
              raise (HTTPException 500 (str_exn e))).

(** ** The status surface: main.py and sheets_utils.py *)

Inductive service_status : Type := connected | disconnected.

(** One of the two [try]/[except:] blocks of [health_check]: a service
    object is always true. *)
Definition probe (auth : M unit) : M service_status :=
  try_except (auth ;; ret connected) (fun _ => ret disconnected).

(** [health_check] returns [{"status": "healthy", "timestamp": ...,
    "services": {"gmail": ..., "sheets": ...}}]; the timestamp is left
    out. *)
Definition health_check : M (string * service_status * service_status) :=
  gmail_status <- probe gmail_auth ;;
  sheets_status <- probe sheets_auth ;;
  ret ("healthy", gmail_status, sheets_status).

(** [test_sheets_connection], without what it prints. *)
Definition test_sheets_connection : M bool :=
  try_except
    (spreadsheet_id <- ask SPREADSHEET_ID ;;
     if is_empty spreadsheet_id then ret false
     else
       sheets_auth ;;
       sheet_name <- ask SHEET_NAME ;;
       values_get (sheet_name ++ "!A1:E1") ;;
       ret true)
    (fun _ => ret false).

(** ** The dashboard: frontend.py *)

(** In [main], outside demo mode, the response of
    [/process-unread-emails] is shown only when its ['count'] is not 0;
    the data frame then has one row, whose ['Sender'] cell is
    ['\n'.join(data.get('senders', []))]. *)
Definition sender_cell (data : response) : option string :=
  match data with
  | NoUnreadEmails => None
  | Success count senders _ =>
      if (count =? 0)%nat then None else Some (join nl senders)
  end.

(** The metric "Emails Processed":
    [len(df.iloc[0]['Sender'].split('\n'))]. *)
Definition email_count (cell : string) : nat := List.length (split nl cell).


(** * Vocabulary of the properties *)

(** Kinds of calls. *)
Definition is_mark_read (e : event) : bool :=
  match e with EModify _ => true | _ => false end.

Definition is_ledger_call (e : event) : bool :=
  match e with ESheetGet _ | ESheetAppend _ _ => true | _ => false end.

Definition is_summarize_call (e : event) : bool :=
  match e with ESummarize _ => true | _ => false end.

(** How many calls of a kind a stretch of the trace holds. *)
Definition calls (kind : event -> bool) (evs : list event) : nat :=
  List.length (filter kind evs).

(** The calls each function may make. *)
Definition auth_event (e : event) : Prop :=
  match e with EGmailAuth | ESheetsAuth => True | _ => False end.

Definition fetch_event (e : event) : Prop :=
  match e with EList _ | EGet _ | ELog _ _ => True | _ => False end.

Definition summarize_event (e : event) : Prop :=
  match e with ESummarize _ => True | _ => False end.

Definition ledger_event (e : event) : Prop :=
  match e with ESheetGet _ | ESheetAppend _ _ | ELog _ _ => True | _ => False end.

Definition mark_read_event (e : event) : Prop :=
  match e with EModify _ | ELog _ _ => True | _ => False end.

(** Everything up to the ledger write. *)
Definition before_write_event (e : event) : Prop :=
  auth_event e \/ fetch_event e \/ summarize_event e.

(** The call [append_to_sheet(sheet_service, "\n".join(senders),
    "\n".join(subjects), "\n\n".join(bodies), summary)] of both entry
    points, and the row it writes. *)
Definition append_batch (emails : list email) (summary : string) : M unit :=
  append_to_sheet (join nl (map email_sender emails))
                  (join nl (map email_subject emails))
                  (join (nl ++ nl) (map email_body emails)) summary.

Definition batch_row (timestamp : string) (emails : list email)
  (summary : string) : list string :=
  [timestamp; join nl (map email_sender emails);
   join nl (map email_subject emails);
   join (nl ++ nl) (map email_body emails); summary].

(** A run started in [w] has authenticated both services and its fetch has
    returned [emails], leaving the world [w']. *)
Definition fetched (w : world) (emails : list email) (w' : world) : Prop :=
  exists w1 w2,
    gmail_auth w = (Ok tt, w1) /\ sheets_auth w1 = (Ok tt, w2) /\
    fetch_unread_emails MAX_RESULTS_DEFAULT w2 = (Ok emails, w').

(** ... the batch is not empty and the summarizer has returned [summary]:
    [w'] is the world in which the ledger write starts. *)
Definition summarized (w : world) (emails : list email) (summary : string)
  (w' : world) : Prop :=
  exists w3,
    fetched w emails w3 /\ emails <> [] /\
    summarize_email (combined_text emails) w3 = (Ok summary, w').

(** What the [except HttpError] clause of the header step raises for an
    exception [x] of its [try] block. *)
Definition header_failure (x : exn) : exn :=
  match x with
  | HttpError status _ =>
      if Nat.eqb status 403
      then PermissionError "Insufficient permissions to access the spreadsheet"
      else x
  | _ => x
  end.

(** The typed failures the specification names for the ledger writer. *)
Inductive ledger_failure : Type :=
| PermissionDenied
| ConfigurationMissing
| TransientWriteError.

(** The exception classes with which [append_to_sheet] types a failure:
    [PermissionError] for a denied permission and [ValueError] for the
    missing target identifier.  No class of the code stands for a
    transient write error: the provider's exception is raised again as it
    came. *)
Definition typed_failure (e : exn) : option ledger_failure :=
  match e with
  | PermissionError _ => Some PermissionDenied
  | ValueError _ => Some ConfigurationMissing
  | _ => None
  end.

(** The calls a run from [w] to [w'] has made. *)
Definition run_events (w w' : world) : list event :=
  skipn (List.length (trace w)) (trace w').

(** "A failure for one id does not prevent the remaining ids from being
    attempted": a run of [mark_as_read] calls [modify] for every id. *)
Definition all_attempted (ids : list string) (w w' : world) : Prop :=
  forall i, In i ids -> In (EModify i) (run_events w w').

(** ** Body extraction, as the specification words it *)

(** The parts of a tree in the order of a depth-first descent. *)
Fixpoint walk (p : part) : list part :=
  match p with
  | Part _ _ _ ps => p :: flat_map walk ps
  end.

(** What a plain-text part yields: the decoding of its data, when it has
    data and the data decodes. *)
Definition plain_text (p : part) : option string :=
  match p with
  | Part mimeType _ data _ =>
      if String.eqb mimeType "text/plain" && negb (is_empty data)
      then b64decode_utf8 data else None
  end.

(** What an HTML part yields: the same, when the text is not empty. *)
Definition html_text (p : part) : option string :=
  match p with
  | Part mimeType _ data _ =>
      if String.eqb mimeType "text/html" && negb (is_empty data)
      then match b64decode_utf8 data with
           | Some text => if is_empty text then None else Some text
           | None => None
           end
      else None
  end.

Fixpoint first_some {A B} (f : A -> option B) (l : list A) : option B :=
  match l with
  | [] => None
  | x :: l' => match f x with Some y => Some y | None => first_some f l' end
  end.

(** The first plain-text part that decodes; an HTML part only when there
    is none; the empty text when there is neither. *)
Definition chosen_text (payload : part) : string :=
  match first_some plain_text (walk payload) with
  | Some text => text
  | None =>
      match first_some html_text (walk payload) with
      | Some text => text
      | None => ""
      end
  end.

(** Whitespace collapsed to single spaces, then at most 2000 characters. *)
Definition normalize (text : string) : string :=
  take 2000 (join " " (split_ws text)).

Definition extract_body_spec (payload : part) : string :=
  let body := normalize (chosen_text payload) in
  if is_empty body then NO_READABLE_CONTENT else body.

(** The loop of [get_body_recursive] over the sub-parts. *)
Fixpoint get_body_parts (l : list part) (body : string) : bool * string :=
  match l with
  | [] => (false, body)
  | subpart :: rest =>
      let '(r, b') := get_body_recursive subpart body in
      if r then (true, b') else get_body_parts rest b'
  end.

(** What the descent leaves in [body], in terms of the parts in order. *)
Definition descent_result (l : list part) (body : string) : bool * string :=
  match first_some plain_text l with
  | Some text => (true, text)
  | None =>
      (false,
       if is_empty body
       then match first_some html_text l with Some text => text | None => "" end
       else body)
  end.

(** The only whitespace of [s] is the space character, never two in a row
    and, from [prev_space = true], never at the front. *)
Fixpoint spaced (prev_space : bool) (s : string) : bool :=
  match s with
  | EmptyString => true
  | String c s' =>
      if isspace c
      then Ascii.eqb c " " && negb prev_space && spaced true s'
      else spaced false s'
  end.

Definition single_spaced (s : string) : bool := spaced true s.

(** [c] occurs in [s]. *)
Fixpoint occurs (c : ascii) (s : string) : bool :=
  match s with
  | EmptyString => false
  | String c' s' => Ascii.eqb c c' || occurs c s'
  end.

Definition newline : ascii := ascii_of_nat 10.

(** [s] holds no whitespace. *)
Fixpoint no_space (s : string) : bool :=
  match s with
  | EmptyString => true
  | String c s' => negb (isspace c) && no_space s'
  end.

Definition is_word (s : string) : bool := negb (is_empty s) && no_space s.

(** ** Vocabulary of the further properties *)

(** What a message looks like in the list the fetch returns. *)
Definition email_of (m : message) : email :=
  (id m,
   header_value "From" "Unknown" (part_headers (payload m)),
   header_value "Subject" "No Subject" (part_headers (payload m)),
   extract_body (payload m)).

(** The calls [fetch_latest_email] may make. *)
Definition latest_event (e : event) : Prop :=
  match e with
  | EList _ | EGet _ | EModify _ | ELog _ _ => True
  | _ => False
  end.

(** A run of [summarize_and_store] started in [w] has authenticated both
    services and [fetch_latest_email] has returned [r], leaving [w']. *)
Definition latest_fetched (w : world) (r : latest) (w' : world) : Prop :=
  exists w1 w2,
    gmail_auth w = (Ok tt, w1) /\ sheets_auth w1 = (Ok tt, w2) /\
    fetch_latest_email w2 = (Ok r, w').

(** The text [summarize_and_store] gives to the summarizer. *)
Definition latest_text (s : string) (subject email : option string) : string :=
  "Sender: " ++ s ++ nl ++ "Subject: " ++ fmt subject ++ nl ++
  "Body: " ++ fmt email.

(** The status [health_check] reports for the outcome of a credential
    flow. *)
Definition status_of {A} (r : result A) : service_status :=
  match r with Ok _ => connected | Raise _ => disconnected end.
(** * Reasoning about runs *)

Set Implicit Arguments.

Lemma bind_ok A B (m : M A) (k : A -> M B) w a w' :
  m w = (Ok a, w') -> bind m k w = k a w'.
Proof. unfold bind; intros ->; reflexivity. Qed.

Lemma bind_raise A B (m : M A) (k : A -> M B) w e w' :
  m w = (Raise e, w') -> bind m k w = (Raise e, w').
Proof. unfold bind; intros ->; reflexivity. Qed.

Lemma try_ok A (m : M A) h w a w' :
  m w = (Ok a, w') -> try_except m h w = (Ok a, w').
Proof. unfold try_except; intros ->; reflexivity. Qed.

Lemma try_raise A (m : M A) h w e w' :
  m w = (Raise e, w') -> try_except m h w = h e w'.
Proof. unfold try_except; intros ->; reflexivity. Qed.

Lemma for_each_cons A B (f : A -> M B) x l w :
  for_each f (x :: l) w =
  match f x w with
  | (Ok y, w1) =>
      match for_each f l w1 with
      | (Ok ys, w2) => (Ok (y :: ys), w2)
      | (Raise e, w2) => (Raise e, w2)
      end
  | (Raise e, w1) => (Raise e, w1)
  end.
Proof. reflexivity. Qed.

Arguments bind_ok {A B m} k {w a w'} _.
Arguments bind_raise {A B m} k {w e w'} _.
Arguments try_ok {A m} h {w a w'} _.
Arguments try_raise {A m} h {w e w'} _.

(** What a run may have done between two worlds: it made calls that all
    satisfy [P]; the mailbox changes only through a [modify] call and the
    sheet only through an [append] call; nothing else changes. *)
Record frame (P : event -> Prop) (w w' : world) : Prop := mkFrame {
  frame_trace : exists evs, trace w' = trace w ++ evs /\ Forall P evs;
  frame_mailbox : (forall i, ~ P (EModify i)) -> mailbox w' = mailbox w;
  frame_sheet : (forall r row, ~ P (ESheetAppend r row)) -> sheet w' = sheet w;
  frame_id : SPREADSHEET_ID w' = SPREADSHEET_ID w;
  frame_name : SHEET_NAME w' = SHEET_NAME w;
  frame_clock : clock w' = clock w;
  frame_model : model w' = model w
}.

Definition footprint {A} (P : event -> Prop) (m : M A) : Prop :=
  forall w, frame P w (snd (m w)).

Lemma frame_refl P w : frame P w w.
Proof.
  constructor; try reflexivity.
  exists []; split; [now rewrite app_nil_r | constructor].
Qed.

Lemma frame_trans P w1 w2 w3 : frame P w1 w2 -> frame P w2 w3 -> frame P w1 w3.
Proof.
  intros [[e1 [T1 F1]] M1 S1 I1 N1 C1 L1] [[e2 [T2 F2]] M2 S2 I2 N2 C2 L2].
  constructor; try congruence.
  - exists (e1 ++ e2); split.
    + now rewrite T2, T1, app_assoc.
    + now apply Forall_app.
  - intros H; rewrite M2, M1; auto.
  - intros H; rewrite S2, S1; auto.
Qed.

Lemma frame_weaken (P Q : event -> Prop) w w' :
  (forall e, P e -> Q e) -> frame P w w' -> frame Q w w'.
Proof.
  intros PQ [[evs [T F]] Mb Sh I N C L]; constructor; auto.
  - exists evs; split; auto. eapply Forall_impl; eauto.
  - intros H; apply Mb; intros i Hi; exact (H i (PQ _ Hi)).
  - intros H; apply Sh; intros r row Hi; exact (H r row (PQ _ Hi)).
Qed.

Lemma frame_record P e w : P e -> frame P w (record e w).
Proof.
  intros He; constructor; try reflexivity.
  exists [e]; split; [reflexivity | repeat constructor; assumption].
Qed.

Lemma frame_set_faults P f w : frame P w (set_faults f w).
Proof.
  constructor; try reflexivity.
  exists []; split; [simpl; now rewrite app_nil_r | constructor].
Qed.

Lemma footprint_weaken A (P Q : event -> Prop) (m : M A) :
  (forall e, P e -> Q e) -> footprint P m -> footprint Q m.
Proof. intros PQ H w; eapply frame_weaken; eauto. Qed.

Lemma footprint_ret A P (a : A) : footprint P (ret a).
Proof. intros w; apply frame_refl. Qed.

Lemma footprint_raise A P e : footprint P (@raise A e).
Proof. intros w; apply frame_refl. Qed.

Lemma footprint_ask A P (f : world -> A) : footprint P (ask f).
Proof. intros w; apply frame_refl. Qed.

Lemma footprint_logging (P : event -> Prop) lvl text :
  P (ELog lvl text) -> footprint P (logging lvl text).
Proof. intros H w; simpl; now apply frame_record. Qed.

Lemma footprint_bind A B P (m : M A) (k : A -> M B) :
  footprint P m -> (forall a, footprint P (k a)) -> footprint P (bind m k).
Proof.
  intros Hm Hk w; unfold bind.
  specialize (Hm w); destruct (m w) as [[a | e] w1]; simpl in *; auto.
  eapply frame_trans; [eassumption | apply Hk].
Qed.

Lemma footprint_try_except A P (m : M A) h :
  footprint P m -> (forall e, footprint P (h e)) -> footprint P (try_except m h).
Proof.
  intros Hm Hh w; unfold try_except.
  specialize (Hm w); destruct (m w) as [[a | e] w1]; simpl in *; auto.
  eapply frame_trans; [eassumption | apply Hh].
Qed.

Lemma footprint_for_each A B P (f : A -> M B) l :
  (forall a, footprint P (f a)) -> footprint P (for_each f l).
Proof.
  intros Hf; induction l as [| x l IH]; simpl.
  - apply footprint_ret.
  - apply footprint_bind; [apply Hf | intros y].
    apply footprint_bind; [apply IH | intros ys; apply footprint_ret].
Qed.

Lemma frame_advance (P : event -> Prop) e w : P e -> frame P w (advance e w).
Proof.
  intros He. unfold advance.
  apply frame_trans with (w2 := record e w);
    [apply frame_record; exact He | apply frame_set_faults].
Qed.

Lemma footprint_service_call A (P : event -> Prop) e (ok : M A) :
  P e -> footprint P ok -> footprint P (service_call e ok).
Proof.
  intros He Hok w; unfold service_call.
  destruct (hd None (faults w)); simpl.
  - apply frame_advance; exact He.
  - apply frame_trans with (w2 := advance e w);
      [apply frame_advance; exact He | apply Hok].
Qed.

(** ** The calls each function makes *)

Ltac footprint_step :=
  first
    [ apply footprint_ret | apply footprint_raise | apply footprint_ask
    | apply footprint_logging; exact I
    | apply footprint_service_call; [exact I |]
    | apply footprint_bind; [| intro]
    | apply footprint_try_except; [| intro]
    | apply footprint_for_each; intro ].

Lemma footprint_gmail_auth : footprint auth_event gmail_auth.
Proof. unfold gmail_auth; repeat footprint_step. Qed.

Lemma footprint_sheets_auth : footprint auth_event sheets_auth.
Proof. unfold sheets_auth; repeat footprint_step. Qed.

Lemma footprint_messages_list n : footprint fetch_event (messages_list n).
Proof. unfold messages_list; footprint_step. intros w; apply frame_refl. Qed.

Lemma footprint_messages_get i : footprint fetch_event (messages_get i).
Proof.
  unfold messages_get; footprint_step. intros w; simpl.
  destruct (find_message i (mailbox w)); apply frame_refl.
Qed.

Lemma footprint_fetch_one i : footprint fetch_event (fetch_one i).
Proof.
  unfold fetch_one. apply footprint_bind; [apply footprint_messages_get |].
  intro; apply footprint_ret.
Qed.

Lemma footprint_fetch_unread_emails n :
  footprint fetch_event (fetch_unread_emails n).
Proof.
  unfold fetch_unread_emails, fetch_unread_emails_try.
  apply footprint_try_except.
  - apply footprint_bind; [apply footprint_messages_list | intros [| i l]].
    + repeat footprint_step.
    + apply footprint_for_each; intro; apply footprint_fetch_one.
  - intros e; unfold fetch_unread_emails_except.
    destruct e; repeat footprint_step.
Qed.

Lemma frame_set_mailbox (P : event -> Prop) m w i :
  P (EModify i) -> frame P w (set_mailbox m w).
Proof.
  intros H; constructor; try reflexivity.
  - exists []; split; [simpl; now rewrite app_nil_r | constructor].
  - intros N; destruct (N i H).
Qed.

Lemma frame_set_sheet (P : event -> Prop) s w r row :
  P (ESheetAppend r row) -> frame P w (set_sheet s w).
Proof.
  intros H; constructor; try reflexivity.
  - exists []; split; [simpl; now rewrite app_nil_r | constructor].
  - intros N; destruct (N r row H).
Qed.

Lemma footprint_messages_modify i : footprint mark_read_event (messages_modify i).
Proof.
  unfold messages_modify; footprint_step. intros w; simpl.
  destruct (find_message i (mailbox w)).
  - simpl. now apply frame_set_mailbox with (i := i).
  - apply frame_refl.
Qed.

Lemma footprint_mark_as_read ids : footprint mark_read_event (mark_as_read ids).
Proof.
  unfold mark_as_read, mark_as_read_try. destruct ids as [| i l].
  - apply footprint_ret.
  - apply footprint_try_except; [| intro; repeat footprint_step].
    apply footprint_bind; [| intro; repeat footprint_step].
    apply footprint_for_each; intro; apply footprint_messages_modify.
Qed.

Lemma footprint_summarize_email text :
  footprint summarize_event (summarize_email text).
Proof.
  unfold summarize_email, summarize_email_try, chat_completions_create.
  apply footprint_try_except; [| intro; apply footprint_ret].
  apply footprint_bind.
  - footprint_step. intros w; apply frame_refl.
  - intros [c |]; repeat footprint_step.
Qed.

Lemma footprint_values_get r : footprint ledger_event (values_get r).
Proof. unfold values_get; footprint_step. intros w; apply frame_refl. Qed.

Lemma footprint_values_append r row : footprint ledger_event (values_append r row).
Proof.
  unfold values_append; footprint_step. intros w; simpl.
  now apply frame_set_sheet with (r := r) (row := row).
Qed.

Lemma footprint_ensure_header : footprint ledger_event ensure_header.
Proof.
  unfold ensure_header, ensure_header_try. apply footprint_try_except.
  - footprint_step; [footprint_step |].
    apply footprint_bind; [apply footprint_values_get | intros [| x l]].
    + apply footprint_values_append.
    + apply footprint_ret.
  - intros [st t | t | t | st d | t]; try apply footprint_raise.
    unfold ensure_header_except.
    destruct (Nat.eqb st 403); apply footprint_raise.
Qed.

Lemma footprint_append_to_sheet a b c d :
  footprint ledger_event (append_to_sheet a b c d).
Proof.
  unfold append_to_sheet, append_to_sheet_try.
  apply footprint_try_except; [| intro; repeat footprint_step].
  apply footprint_bind; [apply footprint_ask | intros sid].
  destruct (is_empty sid); [apply footprint_raise |].
  apply footprint_bind; [apply footprint_ask | intros ts].
  apply footprint_bind; [apply footprint_ensure_header | intros _].
  apply footprint_bind; [apply footprint_ask | intros nm].
  apply footprint_values_append.
Qed.

(** ** Functions that never raise *)

Lemma fetch_unread_emails_total n w :
  exists emails, fst (fetch_unread_emails n w) = Ok emails.
Proof.
  unfold fetch_unread_emails, try_except.
  destruct (fetch_unread_emails_try n w) as [[l | e] w1].
  - now exists l.
  - exists []; destruct e; reflexivity.
Qed.

Lemma mark_as_read_total ids w : fst (mark_as_read ids w) = Ok tt.
Proof.
  unfold mark_as_read. destruct ids as [| i l]; [reflexivity |].
  unfold try_except.
  destruct (mark_as_read_try (i :: l) w) as [[[] | e] w1]; reflexivity.
Qed.

Lemma summarize_email_total text w :
  exists s, fst (summarize_email text w) = Ok s.
Proof.
  unfold summarize_email, try_except.
  destruct (summarize_email_try text w) as [[s | e] w1]; eexists; reflexivity.
Qed.

(** ** Runs of the two entry points, step by step *)

Lemma footprint_run A (P : event -> Prop) (m : M A) w r w' :
  footprint P m -> m w = (r, w') -> frame P w w'.
Proof. intros F E; specialize (F w); now rewrite E in F. Qed.

Arguments footprint_run {A P m w r w'} _ _.

Lemma calls_none (P : event -> Prop) kind evs :
  (forall e, P e -> kind e = false) -> Forall P evs -> calls kind evs = 0.
Proof.
  intros PK F; unfold calls; induction F as [| e l He _ IH]; simpl; auto.
  now rewrite (PK e He).
Qed.

Lemma run_events_app w w' evs : trace w' = trace w ++ evs -> run_events w w' = evs.
Proof.
  intros T. unfold run_events. rewrite T.
  rewrite skipn_app, skipn_all, Nat.sub_diag. reflexivity.
Qed.

Arguments run_events_app {w w' evs} _.

Lemma fetched_frame w emails w3 :
  fetched w emails w3 -> frame before_write_event w w3.
Proof.
  intros (w1 & w2 & A1 & A2 & Fe).
  apply (footprint_run footprint_gmail_auth) in A1.
  apply (footprint_run footprint_sheets_auth) in A2.
  apply (footprint_run (footprint_fetch_unread_emails _)) in Fe.
  unfold before_write_event.
  eapply frame_trans; [eapply frame_weaken; [| exact A1]; tauto |].
  eapply frame_trans; [eapply frame_weaken; [| exact A2]; tauto |].
  eapply frame_weaken; [| exact Fe]; tauto.
Qed.

Lemma summarized_frame w emails summary w4 :
  summarized w emails summary w4 -> frame before_write_event w w4.
Proof.
  intros (w3 & Fe & _ & Su).
  apply fetched_frame in Fe.
  apply (footprint_run (footprint_summarize_email _)) in Su.
  eapply frame_trans; [exact Fe |].
  eapply frame_weaken; [| exact Su]; unfold before_write_event; tauto.
Qed.

Lemma before_write_not_mark_read e : before_write_event e -> is_mark_read e = false.
Proof. destruct e; simpl; unfold before_write_event; simpl; tauto. Qed.

Lemma ledger_not_mark_read e : ledger_event e -> is_mark_read e = false.
Proof. destruct e; simpl; tauto. Qed.

(** A run whose fetch returns nothing. *)
Lemma process_try_empty w w3 :
  fetched w [] w3 -> process_unread_emails_try w = (Ok NoUnreadEmails, w3).
Proof.
  intros (w1 & w2 & A1 & A2 & Fe). unfold process_unread_emails_try.
  rewrite (bind_ok _ A1), (bind_ok _ A2), (bind_ok _ Fe). reflexivity.
Qed.

Lemma job_try_empty w w3 :
  fetched w [] w3 ->
  auto_summarize_job_try w = (Ok tt, record (ELog INFO "No unread emails found") w3).
Proof.
  intros (w1 & w2 & A1 & A2 & Fe). unfold auto_summarize_job_try.
  rewrite (bind_ok _ A1), (bind_ok _ A2), (bind_ok _ Fe). reflexivity.
Qed.

(** A run that reaches the ledger write continues with it. *)
Lemma process_try_batch w emails summary w4 :
  summarized w emails summary w4 ->
  process_unread_emails_try w =
  (append_batch emails summary ;;
   mark_as_read (map email_id emails) ;;
   ret (Success (List.length emails) (map email_sender emails) summary)) w4.
Proof.
  intros (w3 & (w1 & w2 & A1 & A2 & Fe) & Ne & Su).
  unfold process_unread_emails_try.
  rewrite (bind_ok _ A1), (bind_ok _ A2), (bind_ok _ Fe).
  destruct emails as [| x l]; [congruence |].
  rewrite (bind_ok _ Su). reflexivity.
Qed.

Lemma job_try_batch w emails summary w4 :
  summarized w emails summary w4 ->
  auto_summarize_job_try w =
  (append_batch emails summary ;;
   mark_as_read (map email_id emails) ;;
   logging INFO ("Processed " ++ str_nat (List.length emails) ++ " emails")) w4.
Proof.
  intros (w3 & (w1 & w2 & A1 & A2 & Fe) & Ne & Su).
  unfold auto_summarize_job_try.
  rewrite (bind_ok _ A1), (bind_ok _ A2), (bind_ok _ Fe).
  destruct emails as [| x l]; [congruence |].
  rewrite (bind_ok _ Su). reflexivity.
Qed.

(** ** What the fetch returns *)

Lemma in_firstn A (x : A) n l : In x (firstn n l) -> In x l.
Proof.
  intros H. rewrite <- (firstn_skipn n l). apply in_or_app; now left.
Qed.

Lemma for_each_fetch_one_ids l : forall w ys w',
  for_each fetch_one l w = (Ok ys, w') -> map email_id ys = l.
Proof.
  induction l as [| i l IH]; simpl; intros w ys w' H.
  - inversion H; reflexivity.
  - unfold bind in H at 1. unfold fetch_one in H at 1. unfold bind in H at 1.
    destruct (messages_get i w) as [[m | e] w1]; [| discriminate].
    unfold ret in H at 1. unfold bind in H at 1.
    destruct (for_each fetch_one l w1) as [[zs | e] w2] eqn:E; [| discriminate].
    inversion H; subst. simpl. f_equal. eapply IH; eassumption.
Qed.

Lemma messages_list_result n w r w' :
  messages_list n w = (Ok r, w') ->
  r = firstn n (unread_ids (mailbox w)) /\ mailbox w' = mailbox w.
Proof.
  unfold messages_list, service_call.
  destruct (hd None (faults w)); intros H; inversion H; auto.
Qed.

Lemma fetch_unread_emails_ids n w emails w' :
  fetch_unread_emails n w = (Ok emails, w') ->
  emails = [] \/ map email_id emails = firstn n (unread_ids (mailbox w)).
Proof.
  unfold fetch_unread_emails, try_except, fetch_unread_emails_try, bind at 1.
  destruct (messages_list n w) as [[r | e] w1] eqn:L.
  - apply messages_list_result in L as [-> _].
    destruct (firstn n (unread_ids (mailbox w))) as [| i l] eqn:Fn.
    + simpl. intros H; inversion H; auto.
    + destruct (for_each fetch_one (i :: l) w1) as [[ys | e] w2] eqn:E.
      * intros H; inversion H; subst. right.
        eapply for_each_fetch_one_ids; eassumption.
      * destruct e; simpl; intros H; inversion H; auto.
  - destruct e; simpl; intros H; inversion H; auto.
Qed.

(** * The batch pipeline *)

(** Up to the end of the fetch a run has touched neither the model nor the
    sheet nor the unread flags. *)
Lemma fetched_quiet w emails w3 :
  fetched w emails w3 ->
  sheet w3 = sheet w /\ mailbox w3 = mailbox w /\
  exists evs, trace w3 = trace w ++ evs /\
              calls is_summarize_call evs = 0 /\
              calls is_ledger_call evs = 0 /\
              calls is_mark_read evs = 0.
Proof.
  intros (w1 & w2 & A1 & A2 & Fe).
  assert (Fr : frame (fun e => auth_event e \/ fetch_event e) w w3).
  { apply (footprint_run footprint_gmail_auth) in A1.
    apply (footprint_run footprint_sheets_auth) in A2.
    apply (footprint_run (footprint_fetch_unread_emails _)) in Fe.
    eapply frame_trans; [eapply frame_weaken; [| exact A1]; tauto |].
    eapply frame_trans; [eapply frame_weaken; [| exact A2]; tauto |].
    eapply frame_weaken; [| exact Fe]; tauto. }
  split; [| split].
  - apply (frame_sheet Fr). intros r row [[] | []].
  - apply (frame_mailbox Fr). intros i [[] | []].
  - destruct (frame_trace Fr) as [evs [T Fa]]. exists evs. split; [exact T |].
    repeat split; eapply calls_none; try exact Fa;
      intros [] [H | H]; simpl in *; tauto.
Qed.

(** C2. When the fetch returns no unread message, [process_unread_emails]
    returns the "No unread emails found" response (it does not raise) and
    [auto_summarize_job] returns after one log line; the run has made no
    summarization call, no ledger call (neither the header check or write
    nor a row append) and no mark-read call, and the sheet and the mailbox
    are as they were. *)
Theorem no_unread_no_side_effects w w3 :
  fetched w [] w3 ->
  process_unread_emails w = (Ok NoUnreadEmails, w3) /\
  auto_summarize_job w =
    (Ok tt, record (ELog INFO "No unread emails found") w3) /\
  sheet w3 = sheet w /\ mailbox w3 = mailbox w /\
  exists evs, trace w3 = trace w ++ evs /\
              calls is_summarize_call evs = 0 /\
              calls is_ledger_call evs = 0 /\
              calls is_mark_read evs = 0.
Proof.
  intros F. split; [| split].
  - unfold process_unread_emails. now rewrite (try_ok _ (process_try_empty F)).
  - unfold auto_summarize_job. now rewrite (try_ok _ (job_try_empty F)).
  - exact (fetched_quiet F).
Qed.

(** C10. When a provider call inside the [try] block of
    [fetch_unread_emails] raises (an [HttpError] or anything else), the
    function logs and returns the empty list; the run of
    [process_unread_emails] then returns the "No unread emails found"
    response rather than raising, with no summarization, ledger or
    mark-read call: the same outcome as for an empty mailbox. *)
Theorem fetch_failure_reads_as_no_unread w w1 w2 e w3 :
  gmail_auth w = (Ok tt, w1) ->
  sheets_auth w1 = (Ok tt, w2) ->
  fetch_unread_emails_try MAX_RESULTS_DEFAULT w2 = (Raise e, w3) ->
  exists text,
    let w4 := record (ELog ERROR text) w3 in
    fetch_unread_emails MAX_RESULTS_DEFAULT w2 = (Ok [], w4) /\
    process_unread_emails w = (Ok NoUnreadEmails, w4) /\
    sheet w4 = sheet w /\ mailbox w4 = mailbox w /\
    exists evs, trace w4 = trace w ++ evs /\
                calls is_summarize_call evs = 0 /\
                calls is_ledger_call evs = 0 /\
                calls is_mark_read evs = 0.
Proof.
  intros A1 A2 Tr.
  assert (Fe : exists text, fetch_unread_emails MAX_RESULTS_DEFAULT w2
                            = (Ok [], record (ELog ERROR text) w3)).
  { unfold fetch_unread_emails. rewrite (try_raise _ Tr).
    destruct e; eexists; reflexivity. }
  destruct Fe as [text Fe]. exists text. cbv zeta.
  assert (F : fetched w [] (record (ELog ERROR text) w3)).
  { exists w1, w2; auto. }
  split; [exact Fe | split; [| exact (fetched_quiet F)]].
  unfold process_unread_emails. now rewrite (try_ok _ (process_try_empty F)).
Qed.

(** A run whose ledger write raises: what it has done, and what the
    caller gets. *)
Lemma failed_write_frame w emails summary w4 e w5 :
  summarized w emails summary w4 ->
  append_batch emails summary w4 = (Raise e, w5) ->
  frame (fun x => before_write_event x \/ ledger_event x) w w5.
Proof.
  intros Su Ap. eapply frame_trans.
  - eapply frame_weaken; [| exact (summarized_frame Su)]; tauto.
  - eapply frame_weaken;
      [| exact (footprint_run (footprint_append_to_sheet _ _ _ _) Ap)]; tauto.
Qed.

Lemma failed_write_no_mark_read w w5 :
  frame (fun x => before_write_event x \/ ledger_event x) w w5 ->
  exists evs, trace w5 = trace w ++ evs /\ calls is_mark_read evs = 0.
Proof.
  intros Fr. destruct (frame_trace Fr) as [evs [T Fa]].
  exists evs. split; [exact T |].
  eapply calls_none; [| exact Fa].
  intros x [H | H];
    [now apply before_write_not_mark_read | now apply ledger_not_mark_read].
Qed.

Lemma failed_write_raises w emails summary w4 e w5 :
  summarized w emails summary w4 ->
  append_batch emails summary w4 = (Raise e, w5) ->
  process_unread_emails w = (Raise (HTTPException 500 (str_exn e)), w5).
Proof.
  intros Su Ap. unfold process_unread_emails.
  rewrite (try_raise _ (e := e) (w' := w5)); [reflexivity |].
  rewrite (process_try_batch Su). now apply bind_raise.
Qed.

(** * The ledger writer *)

Lemma ensure_header_try_run w :
  let w1 := advance (ESheetGet (SHEET_NAME w ++ "!A1:E1")) w in
  ensure_header_try w =
  match hd None (faults w) with
  | Some x => (Raise x, w1)
  | None =>
      match header_range_values (sheet w) with
      | [] => values_append (SHEET_NAME w ++ "!A1") HEADER_ROW w1
      | _ => (Ok tt, w1)
      end
  end.
Proof.
  unfold ensure_header_try, bind, ask, values_get, service_call; simpl.
  destruct (hd None (faults w)); [reflexivity |].
  destruct (header_range_values (sheet w)); reflexivity.
Qed.

Lemma values_append_run r row w :
  values_append r row w =
  match hd None (faults w) with
  | Some x => (Raise x, advance (ESheetAppend r row) w)
  | None => (Ok tt, set_sheet (sheet w ++ [row]) (advance (ESheetAppend r row) w))
  end.
Proof. reflexivity. Qed.

Lemma ensure_header_except_raises e w :
  exists e', ensure_header_except e w = (Raise e', w).
Proof.
  destruct e as [st t | t | t | st d | t]; simpl; try (eexists; reflexivity).
  destruct (Nat.eqb st 403); eexists; reflexivity.
Qed.

(** The header step, outcome by outcome. *)
Lemma ensure_header_cases w r w' :
  ensure_header w = (r, w') ->
  (r = Ok tt /\ header_range_values (sheet w) <> [] /\ sheet w' = sheet w /\
   trace w' = trace w ++ [ESheetGet (SHEET_NAME w ++ "!A1:E1")]) \/
  (r = Ok tt /\ header_range_values (sheet w) = [] /\
   sheet w' = sheet w ++ [HEADER_ROW] /\
   trace w' = trace w ++ [ESheetGet (SHEET_NAME w ++ "!A1:E1");
                          ESheetAppend (SHEET_NAME w ++ "!A1") HEADER_ROW]) \/
  ((exists e, r = Raise e) /\ sheet w' = sheet w /\
   (trace w' = trace w ++ [ESheetGet (SHEET_NAME w ++ "!A1:E1")] \/
    header_range_values (sheet w) = [] /\
    trace w' = trace w ++ [ESheetGet (SHEET_NAME w ++ "!A1:E1");
                           ESheetAppend (SHEET_NAME w ++ "!A1") HEADER_ROW])).
Proof.
  unfold ensure_header, try_except. rewrite ensure_header_try_run.
  destruct (hd None (faults w)) as [x |].
  - destruct (ensure_header_except_raises x
                (advance (ESheetGet (SHEET_NAME w ++ "!A1:E1")) w)) as [e' ->].
    intros H; inversion H; subst. right; right. simpl. eauto.
  - destruct (header_range_values (sheet w)) as [| v vs] eqn:Hv.
    + rewrite values_append_run.
      destruct (hd None (faults (advance _ w))) as [y |].
      * match goal with |- context [ensure_header_except y ?u] =>
          destruct (ensure_header_except_raises y u) as [e' ->] end.
        intros H; inversion H; subst. right; right. simpl.
        rewrite <- app_assoc. simpl. eauto 6.
      * intros H; inversion H; subst. right; left. simpl.
        rewrite <- app_assoc. auto.
    + intros H; inversion H; subst. left. simpl. repeat split; congruence.
Qed.

(** The header step in a world without faults. *)
Lemma ensure_header_no_fault w :
  faults w = [] ->
  let w1 := advance (ESheetGet (SHEET_NAME w ++ "!A1:E1")) w in
  ensure_header w =
  (Ok tt,
   match header_range_values (sheet w) with
   | [] => set_sheet (sheet w ++ [HEADER_ROW])
             (advance (ESheetAppend (SHEET_NAME w ++ "!A1") HEADER_ROW) w1)
   | _ => w1
   end) /\
  faults (snd (ensure_header w)) = [].
Proof.
  intros F. unfold ensure_header, try_except. rewrite ensure_header_try_run.
  rewrite F. simpl hd. cbv iota.
  destruct (header_range_values (sheet w)).
  - rewrite values_append_run. simpl. rewrite F. simpl. rewrite F.
    split; reflexivity.
  - simpl. rewrite F. split; reflexivity.
Qed.

Lemma append_to_sheet_try_run a b c d w :
  append_to_sheet_try a b c d w =
  if is_empty (SPREADSHEET_ID w)
  then (Raise (ValueError "SPREADSHEET_ID not set in environment variables"), w)
  else match ensure_header w with
       | (Ok _, w1) =>
           values_append (SHEET_NAME w1 ++ "!A:E") [clock w; a; b; c; d] w1
       | (Raise e, w1) => (Raise e, w1)
       end.
Proof.
  unfold append_to_sheet_try, bind, ask.
  destruct (is_empty (SPREADSHEET_ID w)); [reflexivity |].
  destruct (ensure_header w) as [[[] | e] w1]; reflexivity.
Qed.

(** A successful [append_to_sheet] puts the row last, after the header
    row when the header range was empty. *)
Lemma append_to_sheet_ok a b c d w w' :
  append_to_sheet a b c d w = (Ok tt, w') ->
  SPREADSHEET_ID w <> "" /\
  (header_range_values (sheet w) <> [] /\
   sheet w' = sheet w ++ [[clock w; a; b; c; d]] \/
   header_range_values (sheet w) = [] /\
   sheet w' = sheet w ++ [HEADER_ROW; [clock w; a; b; c; d]]).
Proof.
  unfold append_to_sheet, try_except. rewrite append_to_sheet_try_run.
  destruct (SPREADSHEET_ID w) as [| ch sid] eqn:Sid; simpl is_empty; cbv iota.
  - simpl. discriminate.
  - destruct (ensure_header w) as [[[] | e] w1] eqn:EH.
    + rewrite values_append_run.
      destruct (hd None (faults w1)); [simpl; discriminate |].
      intros H; inversion H; subst; clear H. split; [discriminate |]. simpl.
      apply ensure_header_cases in EH
        as [(_ & Hv & S & _) | [(_ & Hv & S & _) | ([e E] & _)]];
        try discriminate.
      * left; split; [exact Hv | now rewrite S].
      * right; split; [exact Hv | rewrite S, <- app_assoc; reflexivity].
    + simpl. discriminate.
Qed.

Lemma append_to_sheet_last_row a b c d w w' :
  append_to_sheet a b c d w = (Ok tt, w') ->
  last (sheet w') [] = [clock w; a; b; c; d].
Proof.
  intros H. apply append_to_sheet_ok in H as [_ [[_ ->] | [_ ->]]].
  - apply last_last.
  - change (sheet w ++ [HEADER_ROW; [clock w; a; b; c; d]])
      with (sheet w ++ [HEADER_ROW] ++ [[clock w; a; b; c; d]]).
    rewrite app_assoc. apply last_last.
Qed.

(** Once the row is written the run succeeds, whatever happens to the
    mark-read calls. *)
Lemma run_after_write w emails summary w4 w5 :
  summarized w emails summary w4 ->
  append_batch emails summary w4 = (Ok tt, w5) ->
  exists w6,
    process_unread_emails w =
      (Ok (Success (List.length emails) (map email_sender emails) summary), w6) /\
    mark_as_read (map email_id emails) w5 = (Ok tt, w6) /\
    sheet w6 = sheet w5 /\
    last (sheet w6) [] = batch_row (clock w) emails summary.
Proof.
  intros Su Ap.
  destruct (mark_as_read (map email_id emails) w5) as [r w6] eqn:Mk.
  pose proof (mark_as_read_total (map email_id emails) w5) as T.
  rewrite Mk in T; simpl in T; subst r.
  exists w6.
  assert (S6 : sheet w6 = sheet w5).
  { apply (frame_sheet (footprint_run (footprint_mark_as_read _) Mk)).
    intros r row []. }
  split; [| split; [reflexivity | split; [exact S6 |]]].
  - unfold process_unread_emails.
    rewrite (try_ok _ (a := Success (List.length emails)
                                    (map email_sender emails) summary) (w' := w6));
      [reflexivity |].
    rewrite (process_try_batch Su).
    rewrite (bind_ok _ Ap), (bind_ok _ Mk). reflexivity.
  - rewrite S6. unfold append_batch in Ap.
    rewrite (append_to_sheet_last_row _ _ _ _ _ Ap).
    unfold batch_row. now rewrite (frame_clock (summarized_frame Su)).
Qed.

(** Whatever the world, a run makes a mark-read call only after its row
    has been appended. *)
Lemma mark_read_only_after_row w :
  calls is_mark_read (run_events w (snd (process_unread_emails w))) = 0 \/
  exists emails summary w4 w5,
    summarized w emails summary w4 /\
    append_batch emails summary w4 = (Ok tt, w5) /\
    fst (process_unread_emails w)
    = Ok (Success (List.length emails) (map email_sender emails) summary).
Proof.
  assert (Q : forall (P : event -> Prop) w',
             (forall e, P e -> is_mark_read e = false) ->
             frame P w w' -> calls is_mark_read (run_events w w') = 0).
  { intros P w' PK Fr. destruct (frame_trace Fr) as [evs [T Fa]].
    rewrite (run_events_app T). eapply calls_none; eauto. }
  assert (Au : forall e, auth_event e -> is_mark_read e = false)
    by (intros []; simpl; tauto).
  destruct (gmail_auth w) as [[[] | e] w1] eqn:A1.
  - destruct (sheets_auth w1) as [[[] | e] w2] eqn:A2.
    + destruct (fetch_unread_emails MAX_RESULTS_DEFAULT w2) as [r3 w3] eqn:Fe.
      destruct (fetch_unread_emails_total MAX_RESULTS_DEFAULT w2) as [emails T].
      rewrite Fe in T; simpl in T; subst r3.
      assert (F : fetched w emails w3) by (exists w1, w2; auto).
      destruct emails as [| x l].
      * left. destruct (fetched_quiet F) as (_ & _ & evs & Tr & _ & _ & Z).
        unfold process_unread_emails. rewrite (try_ok _ (process_try_empty F)).
        simpl. now rewrite (run_events_app Tr).
      * destruct (summarize_email (combined_text (x :: l)) w3) as [r4 w4] eqn:Sm.
        destruct (summarize_email_total (combined_text (x :: l)) w3) as [summary T].
        rewrite Sm in T; simpl in T; subst r4.
        assert (Su : summarized w (x :: l) summary w4).
        { exists w3. repeat split; auto. discriminate. }
        destruct (append_batch (x :: l) summary w4) as [[[] | e] w5] eqn:Ap.
        -- right. exists (x :: l), summary, w4, w5.
           destruct (run_after_write Su Ap) as (w6 & P & _).
           rewrite P. auto.
        -- left.
           destruct (failed_write_no_mark_read (failed_write_frame Su Ap))
             as (evs & Tr & Z).
           rewrite (failed_write_raises Su Ap). simpl.
           now rewrite (run_events_app Tr).
    + left. unfold process_unread_emails.
      rewrite (try_raise _ (e := e) (w' := w2)).
      * simpl. apply (Q auth_event); [exact Au |].
        eapply frame_trans;
          [exact (footprint_run footprint_gmail_auth A1)
          | exact (footprint_run footprint_sheets_auth A2)].
      * unfold process_unread_emails_try.
        rewrite (bind_ok _ A1). now apply bind_raise.
  - left. unfold process_unread_emails.
    rewrite (try_raise _ (e := e) (w' := w1)).
    + simpl. apply (Q auth_event); [exact Au |].
      exact (footprint_run footprint_gmail_auth A1).
    + unfold process_unread_emails_try. now apply bind_raise.
Qed.

(** C1. When a batch of at least one message has been fetched and
    summarized and [append_to_sheet] raises, [process_unread_emails]
    raises [HTTPException(500, str(e))] to its caller and
    [auto_summarize_job] logs the error; the run has made no mark-read
    call, the mailbox is unchanged and every message of the batch is still
    unread.  In every run, a mark-read call is made only after the row of
    the batch has been appended. *)
Theorem ledger_failure_keeps_batch_unread :
  (forall w emails summary w4 e w5,
      summarized w emails summary w4 ->
      append_batch emails summary w4 = (Raise e, w5) ->
      process_unread_emails w = (Raise (HTTPException 500 (str_exn e)), w5) /\
      auto_summarize_job w =
        (Ok tt, record (ELog ERROR ("Error in auto_summarize_job: " ++ str_exn e)) w5) /\
      (exists evs, trace w5 = trace w ++ evs /\ calls is_mark_read evs = 0) /\
      mailbox w5 = mailbox w /\
      (forall i, In i (map email_id emails) -> In i (unread_ids (mailbox w5)))) /\
  (forall w,
      calls is_mark_read (run_events w (snd (process_unread_emails w))) = 0 \/
      exists emails summary w4 w5,
        summarized w emails summary w4 /\
        append_batch emails summary w4 = (Ok tt, w5) /\
        fst (process_unread_emails w)
        = Ok (Success (List.length emails) (map email_sender emails) summary)).
Proof.
  split; [| exact mark_read_only_after_row].
  intros w emails summary w4 e w5 Su Ap.
  pose proof (failed_write_frame Su Ap) as Fr.
  assert (Mb : mailbox w5 = mailbox w).
  { apply (frame_mailbox Fr). intros i [[[] | [[] | []]] | []]. }
  split; [| split; [| split; [| split]]].
  - exact (failed_write_raises Su Ap).
  - unfold auto_summarize_job.
    rewrite (try_raise _ (e := e) (w' := w5)); [reflexivity |].
    rewrite (job_try_batch Su). now apply bind_raise.
  - exact (failed_write_no_mark_read Fr).
  - exact Mb.
  - intros i Hi. rewrite Mb.
    destruct Su as (w3 & (w1 & w2 & A1 & A2 & Fe) & Ne & _).
    apply (footprint_run footprint_gmail_auth) in A1.
    apply (footprint_run footprint_sheets_auth) in A2.
    assert (M2 : mailbox w2 = mailbox w).
    { rewrite (frame_mailbox A2), (frame_mailbox A1); auto; intros ? []. }
    apply fetch_unread_emails_ids in Fe as [-> | Ids]; [congruence |].
    rewrite Ids, M2 in Hi. eapply in_firstn; eauto.
Qed.

(** C3. [summarize_email] never raises: it returns the stripped content of
    the model's reply, or the text ["Error generating summary: " + str(e)]
    when its [try] block raised [e].  In the second case, once the ledger
    write succeeds, [process_unread_emails] returns the success response
    with that text as summary, and the text is the summary cell of the row
    written last. *)
Theorem summarization_failure_is_recorded :
  (forall text w,
      (exists c, hd None (faults w) = None /\ model w text = Some c /\
                 summarize_email text w
                 = (Ok (strip c), advance (ESummarize text) w)) \/
      (exists e w', summarize_email_try text w = (Raise e, w') /\
                    summarize_email text w
                    = (Ok ("Error generating summary: " ++ str_exn e)%string, w'))) /\
  (forall w emails w3 e w4 w5,
      fetched w emails w3 -> emails <> [] ->
      summarize_email_try (combined_text emails) w3 = (Raise e, w4) ->
      append_batch emails ("Error generating summary: " ++ str_exn e) w4
      = (Ok tt, w5) ->
      exists w6,
        process_unread_emails w
        = (Ok (Success (List.length emails) (map email_sender emails)
                       ("Error generating summary: " ++ str_exn e)), w6) /\
        last (sheet w6) []
        = batch_row (clock w) emails ("Error generating summary: " ++ str_exn e)).
Proof.
  split.
  - intros text w.
    unfold summarize_email, try_except, summarize_email_try,
      chat_completions_create, bind, service_call.
    destruct (hd None (faults w)) as [x |].
    + right. eexists; eexists; split; reflexivity.
    + change (model (advance (ESummarize text) w) text) with (model w text).
      destruct (model w text) as [c |].
      * left. exists c. auto.
      * right. eexists; eexists; split; reflexivity.
  - intros w emails w3 e w4 w5 Fe Ne Tr Ap.
    assert (Su : summarized w emails ("Error generating summary: " ++ str_exn e) w4).
    { exists w3. repeat split; auto.
      unfold summarize_email. now rewrite (try_raise _ Tr). }
    destruct (run_after_write Su Ap) as (w6 & P & _ & _ & L).
    exists w6; auto.
Qed.

(** C5. The header step appends a row only when the header range is empty,
    and then it is the fixed header row at [A1]; two header steps in
    sequence on an empty sheet leave the header row once (and in a world
    without faults both do succeed); two calls of [append_to_sheet] on an
    empty sheet leave one header row, followed by the two data rows. *)
Theorem header_initialization_idempotent :
  (forall w r w',
      ensure_header w = (r, w') ->
      exists evs, trace w' = trace w ++ evs /\
        forall rg row, In (ESheetAppend rg row) evs ->
          header_range_values (sheet w) = [] /\
          rg = (SHEET_NAME w ++ "!A1")%string /\ row = HEADER_ROW) /\
  (forall w w1 w2,
      sheet w = [] ->
      ensure_header w = (Ok tt, w1) -> ensure_header w1 = (Ok tt, w2) ->
      sheet w1 = [HEADER_ROW] /\ sheet w2 = [HEADER_ROW]) /\
  (forall w,
      sheet w = [] -> faults w = [] ->
      exists w1 w2,
        ensure_header w = (Ok tt, w1) /\ ensure_header w1 = (Ok tt, w2) /\
        sheet w2 = [HEADER_ROW]) /\
  (forall a b c d a' b' c' d' w w1 w2,
      sheet w = [] ->
      append_to_sheet a b c d w = (Ok tt, w1) ->
      append_to_sheet a' b' c' d' w1 = (Ok tt, w2) ->
      sheet w2 = [HEADER_ROW; [clock w; a; b; c; d]; [clock w1; a'; b'; c'; d']]).
Proof.
  split; [| split; [| split]].
  - intros w r w' H.
    apply ensure_header_cases in H
      as [(_ & Hv & _ & T) | [(_ & Hv & _ & T) | (_ & _ & [T | [Hv T]])]];
      eexists; (split; [exact T |]); intros rg row I; simpl in I;
      repeat (destruct I as [I | I]; try discriminate; try contradiction);
      inversion I; subst; auto.
  - intros w w1 w2 E H1 H2.
    apply ensure_header_cases in H1
      as [(_ & Hv & _) | [(_ & _ & S1 & _) | ([e E1] & _)]]; try discriminate.
    + rewrite E in Hv. now destruct Hv.
    + rewrite E in S1. simpl in S1. split; [exact S1 |].
      apply ensure_header_cases in H2
        as [(_ & _ & S2 & _) | [(_ & Hv & _) | ([e E2] & _)]]; try discriminate.
      * now rewrite S2.
      * rewrite S1 in Hv. discriminate.
  - intros w E F.
    destruct (ensure_header_no_fault w F) as [R1 F1].
    rewrite E in R1. simpl in R1.
    set (w1 := snd (ensure_header w)) in *.
    destruct (ensure_header_no_fault w1 F1) as [R2 _].
    assert (S1 : sheet w1 = [HEADER_ROW]).
    { unfold w1. rewrite R1. reflexivity. }
    rewrite S1 in R2. simpl in R2.
    exists w1, (snd (ensure_header w1)). split; [| split].
    + unfold w1 at 1. rewrite R1. reflexivity.
    + rewrite R2. reflexivity.
    + rewrite R2. simpl. exact S1.
  - intros a b c d a' b' c' d' w w1 w2 E H1 H2.
    apply append_to_sheet_ok in H1 as [_ [[Hv _] | [_ S1]]].
    + rewrite E in Hv. now destruct Hv.
    + rewrite E in S1. simpl in S1.
      apply append_to_sheet_ok in H2 as [_ [[_ S2] | [Hv _]]].
      * rewrite S2, S1. reflexivity.
      * rewrite S1 in Hv. discriminate.
Qed.

(** C7 (amended). Every failure of [append_to_sheet] is logged and raised
    again to the caller as a Python exception: [ValueError] when the
    target identifier is missing; for a failure of the header step,
    [PermissionError] when it is an HTTP 403 and otherwise the exception
    as the provider raised it; for a failure of the row append other than
    an HTTP 403, the exception as the provider raised it. *)
Theorem ledger_failures_are_raised_again a b c d w :
  (SPREADSHEET_ID w = "" ->
   append_to_sheet a b c d w
   = (Raise (ValueError "SPREADSHEET_ID not set in environment variables"),
      record (ELog ERROR
                "Error appending to sheet: SPREADSHEET_ID not set in environment variables") w)) /\
  (SPREADSHEET_ID w <> "" ->
   forall x w1,
     ensure_header_try w = (Raise x, w1) ->
     append_to_sheet a b c d w
     = (Raise (header_failure x),
        record (ELog ERROR ("Error appending to sheet: " ++ str_exn (header_failure x))) w1)) /\
  (SPREADSHEET_ID w <> "" ->
   forall w1 x w2,
     ensure_header w = (Ok tt, w1) ->
     values_append (SHEET_NAME w ++ "!A:E") [clock w; a; b; c; d] w1 = (Raise x, w2) ->
     (forall t, x <> HttpError 403 t) ->
     append_to_sheet a b c d w
     = (Raise x, record (ELog ERROR ("Error appending to sheet: " ++ str_exn x)) w2)) /\
  (forall e w',
      append_to_sheet a b c d w = (Raise e, w') ->
      exists w0, w' = record (ELog ERROR ("Error appending to sheet: " ++ str_exn e)) w0).
Proof.
  assert (Ex : forall x u, ensure_header_except x u = (Raise (header_failure x), u)).
  { intros [st t | t | t | st t | t] u; simpl; try reflexivity.
    destruct (Nat.eqb st 403); reflexivity. }
  split; [| split; [| split]].
  - intros E. unfold append_to_sheet, try_except.
    rewrite append_to_sheet_try_run, E. reflexivity.
  - intros N x w1 H. unfold append_to_sheet, try_except.
    rewrite append_to_sheet_try_run.
    destruct (SPREADSHEET_ID w); [congruence |]. simpl is_empty. cbv iota.
    unfold ensure_header, try_except. rewrite H, Ex. reflexivity.
  - intros N w1 x w2 H1 H2 _. unfold append_to_sheet, try_except.
    rewrite append_to_sheet_try_run.
    destruct (SPREADSHEET_ID w); [congruence |]. simpl is_empty. cbv iota.
    rewrite H1.
    replace (SHEET_NAME w1) with (SHEET_NAME w)
      by (symmetry; exact (frame_name (footprint_run footprint_ensure_header H1))).
    rewrite H2. reflexivity.
  - intros e w'. unfold append_to_sheet, try_except.
    destruct (append_to_sheet_try a b c d w) as [[[] | x] w0]; [discriminate |].
    simpl. unfold bind, logging, raise. simpl. intros H; inversion H; subst.
    now exists w0.
Qed.

(** * The mailbox gateway *)

Lemma unread_clear_self i m : ~ In i (unread_ids (clear_unread i m)).
Proof.
  unfold unread_ids. induction m as [| x m IH]; simpl; [tauto |].
  destruct (String.eqb (id x) i) eqn:E; simpl; [exact IH |].
  destruct (unread x); simpl; [| exact IH].
  intros [H | H]; [| exact (IH H)].
  rewrite H, String.eqb_refl in E. discriminate.
Qed.

Lemma unread_clear_sub i j m :
  In j (unread_ids (clear_unread i m)) -> In j (unread_ids m).
Proof.
  unfold unread_ids. induction m as [| x m IH]; simpl; [tauto |].
  destruct (String.eqb (id x) i); simpl.
  - intros H. destruct (unread x); simpl; auto.
  - destruct (unread x); simpl; [intros [H | H]; auto | auto].
Qed.

Lemma messages_modify_run i w :
  messages_modify i w =
  match hd None (faults w) with
  | Some x => (Raise x, advance (EModify i) w)
  | None =>
      match find_message i (mailbox w) with
      | Some _ => (Ok tt, set_mailbox (clear_unread i (mailbox w))
                                      (advance (EModify i) w))
      | None => (Raise (HttpError 404 "Requested entity was not found."),
                 advance (EModify i) w)
      end
  end.
Proof. reflexivity. Qed.

Lemma messages_modify_trace i w r w' :
  messages_modify i w = (r, w') -> trace w' = trace w ++ [EModify i].
Proof.
  rewrite messages_modify_run.
  destruct (hd None (faults w)); [| destruct (find_message i (mailbox w))];
    intros H; inversion H; reflexivity.
Qed.

Lemma messages_modify_unread_sub i w r w' j :
  messages_modify i w = (r, w') ->
  In j (unread_ids (mailbox w')) -> In j (unread_ids (mailbox w)).
Proof.
  rewrite messages_modify_run.
  destruct (hd None (faults w)); [| destruct (find_message i (mailbox w))];
    intros H; inversion H; subst; simpl; auto.
  apply unread_clear_sub.
Qed.

Lemma messages_modify_ok_read i w w' :
  messages_modify i w = (Ok tt, w') -> ~ In i (unread_ids (mailbox w')).
Proof.
  rewrite messages_modify_run.
  destruct (hd None (faults w)); [| destruct (find_message i (mailbox w))];
    intros H; inversion H; subst; simpl.
  apply unread_clear_self.
Qed.

Lemma for_each_modify_unread_sub ids : forall w r w' j,
  for_each messages_modify ids w = (r, w') ->
  In j (unread_ids (mailbox w')) -> In j (unread_ids (mailbox w)).
Proof.
  induction ids as [| i l IH]; simpl; intros w r w' j H.
  - inversion H; subst; auto.
  - unfold bind at 1 in H.
    destruct (messages_modify i w) as [[[] | e] w1] eqn:E1.
    + unfold bind at 1 in H.
      destruct (for_each messages_modify l w1) as [[ys | e] w2] eqn:E2;
        inversion H; subst; intros I;
        eapply messages_modify_unread_sub; eauto.
    + inversion H; subst. eapply messages_modify_unread_sub; eauto.
Qed.

(** The loop of [mark_as_read]: either every id is attempted, or the loop
    ends at the first call that raises. *)
Lemma for_each_modify_run ids : forall w,
  (exists rs w',
      for_each messages_modify ids w = (Ok rs, w') /\
      trace w' = trace w ++ map EModify ids /\
      forall j, In j ids -> ~ In j (unread_ids (mailbox w'))) \/
  (exists done i rest e w',
      ids = done ++ i :: rest /\
      for_each messages_modify ids w = (Raise e, w') /\
      trace w' = trace w ++ map EModify (done ++ [i]) /\
      forall j, In j done -> ~ In j (unread_ids (mailbox w'))).
Proof.
  induction ids as [| i l IH]; intros w.
  - left. exists [], w. simpl. rewrite app_nil_r. repeat split; auto.
  - rewrite for_each_cons.
    destruct (messages_modify i w) as [[[] | e] w1] eqn:E1.
    + pose proof (messages_modify_trace _ _ E1) as T1.
      pose proof (messages_modify_ok_read _ _ E1) as R1.
      destruct (IH w1) as [(rs & w' & E2 & T2 & U2)
                          | (done & k & rest & e & w' & -> & E2 & T2 & U2)];
        rewrite E2.
      * left. exists (tt :: rs), w'.
        split; [reflexivity | split].
        -- rewrite T2, T1, <- app_assoc. reflexivity.
        -- intros j [<- | Hj]; [| now apply U2].
           intros I. apply R1.
           eapply for_each_modify_unread_sub; eauto.
      * right. exists (i :: done), k, rest, e, w'.
        split; [reflexivity | split; [reflexivity | split]].
        -- rewrite T2, T1, <- app_assoc. reflexivity.
        -- intros j [<- | Hj]; [| now apply U2].
           intros I. apply R1.
           eapply for_each_modify_unread_sub; eauto.
    + right. exists [], i, l, e, w1.
      split; [reflexivity | split; [reflexivity | split]].
      * simpl. eapply messages_modify_trace; eauto.
      * intros j [].
Qed.

(** C6 (amended). For every non-empty list of ids, [mark_as_read] returns
    nothing and never raises; it calls [modify] for the ids in order up to
    the first call that raises, logs that failure once and makes no call
    for the ids after it; the ids before it stay marked read; the sheet is
    untouched, and a run whose ledger write succeeded returns the success
    response whatever the mark-read calls did. *)
Theorem mark_as_read_stops_at_first_failure :
  (forall ids w,
      ids <> [] ->
      exists w',
        mark_as_read ids w = (Ok tt, w') /\ sheet w' = sheet w /\
        ((trace w' = trace w ++ map EModify ids ++
                     [ELog INFO ("Marked " ++ str_nat (List.length ids) ++ " emails as read")] /\
          forall j, In j ids -> ~ In j (unread_ids (mailbox w'))) \/
         (exists done i rest e,
             ids = done ++ i :: rest /\
             trace w' = trace w ++ map EModify (done ++ [i]) ++
                        [ELog ERROR ("Error marking emails as read: " ++ str_exn e)] /\
             forall j, In j done -> ~ In j (unread_ids (mailbox w'))))) /\
  (forall w emails summary w4 w5,
      summarized w emails summary w4 ->
      append_batch emails summary w4 = (Ok tt, w5) ->
      exists w6,
        process_unread_emails w
        = (Ok (Success (List.length emails) (map email_sender emails) summary), w6) /\
        mark_as_read (map email_id emails) w5 = (Ok tt, w6) /\
        sheet w6 = sheet w5).
Proof.
  split.
  - intros ids w Ne.
    destruct (mark_as_read ids w) as [r w'] eqn:Mk.
    assert (S : sheet w' = sheet w).
    { apply (frame_sheet (footprint_run (footprint_mark_as_read _) Mk)).
      intros rg row []. }
    exists w'. revert Mk.
    unfold mark_as_read. destruct ids as [| i0 l0]; [congruence |].
    set (ids := i0 :: l0). unfold try_except, mark_as_read_try. unfold bind at 1.
    destruct (for_each_modify_run ids w)
      as [(rs & w1 & E & T & U) | (done & k & rest & e & w1 & Eq & E & T & U)];
      rewrite E; simpl; intros H; inversion H; subst; clear H;
      (split; [reflexivity | split; [exact S |]]).
    + left. simpl. rewrite T, <- app_assoc. split; [reflexivity | exact U].
    + right. exists done, k, rest, e. simpl.
      rewrite T, <- app_assoc. repeat split; auto.
  - intros w emails summary w4 w5 Su Ap.
    destruct (run_after_write Su Ap) as (w6 & P & Mk & S & _).
    exists w6; auto.
Qed.

(** ** The fetch *)

Lemma messages_get_run i w :
  messages_get i w =
  match hd None (faults w) with
  | Some x => (Raise x, advance (EGet i) w)
  | None =>
      match find_message i (mailbox w) with
      | Some m => (Ok m, advance (EGet i) w)
      | None => (Raise (HttpError 404 "Requested entity was not found."),
                 advance (EGet i) w)
      end
  end.
Proof. reflexivity. Qed.

Lemma find_message_unread i m :
  In i (unread_ids m) -> exists x, find_message i m = Some x.
Proof.
  unfold unread_ids, find_message. induction m as [| x m IH]; simpl; [tauto |].
  destruct (String.eqb (id x) i) eqn:E; [eauto |].
  destruct (unread x); simpl; auto.
  intros [H | H]; auto.
  rewrite H, String.eqb_refl in E. discriminate.
Qed.

(** Without faults the loop of the fetch reads every listed message. *)
Lemma for_each_fetch_one_no_fault l : forall w,
  faults w = [] ->
  (forall i, In i l -> exists x, find_message i (mailbox w) = Some x) ->
  exists ys w', for_each fetch_one l w = (Ok ys, w').
Proof.
  induction l as [| i l IH]; intros w F Fd.
  - exists [], w. reflexivity.
  - rewrite for_each_cons. unfold fetch_one at 1. unfold bind at 1.
    rewrite messages_get_run, F. simpl hd. cbv iota.
    destruct (Fd i (or_introl eq_refl)) as [x ->]. cbv beta iota. unfold ret at 1.
    destruct (IH (advance (EGet i) w)) as (ys & w' & ->).
    + simpl. now rewrite F.
    + intros j Hj. simpl. apply Fd. now right.
    + eexists; eexists; reflexivity.
Qed.

Lemma fetch_unread_emails_no_fault n w :
  faults w = [] ->
  exists emails w',
    fetch_unread_emails n w = (Ok emails, w') /\
    map email_id emails = firstn n (unread_ids (mailbox w)).
Proof.
  intros F.
  unfold fetch_unread_emails, try_except, fetch_unread_emails_try, bind at 1.
  unfold messages_list, service_call. rewrite F. simpl hd. cbv iota.
  change (mailbox (advance (EList n) w)) with (mailbox w).
  destruct (firstn n (unread_ids (mailbox w))) as [| i l] eqn:Fn.
  - eexists; eexists; split; reflexivity.
  - destruct (for_each_fetch_one_no_fault (i :: l) (advance (EList n) w))
      as (ys & w' & E).
    + simpl. now rewrite F.
    + intros j Hj. change (mailbox (advance (EList n) w)) with (mailbox w).
      apply find_message_unread. rewrite <- Fn in Hj.
      eapply in_firstn; eauto.
    + rewrite E. exists ys, w'. split; [reflexivity |].
      eapply for_each_fetch_one_ids; eauto.
Qed.

(** C8. [fetch_unread_emails(service, max_results)] never raises; it
    returns at most [max_results] messages (10 when the argument is left
    out); what it returns is empty or lists the first [max_results] unread
    messages in the provider's order, the latter whenever no call fails;
    with nothing unread it returns the empty list; it leaves the mailbox
    as it is. *)
Theorem fetch_unread_emails_bounded_in_order max_results w :
  exists emails w',
    fetch_unread_emails max_results w = (Ok emails, w') /\
    List.length emails <= max_results /\
    (emails = [] \/
     map email_id emails = firstn max_results (unread_ids (mailbox w))) /\
    (unread_ids (mailbox w) = [] -> emails = []) /\
    (faults w = [] ->
     map email_id emails = firstn max_results (unread_ids (mailbox w))) /\
    mailbox w' = mailbox w /\
    MAX_RESULTS_DEFAULT = 10.
Proof.
  destruct (fetch_unread_emails max_results w) as [r w'] eqn:E.
  destruct (fetch_unread_emails_total max_results w) as [emails T].
  rewrite E in T; simpl in T; subst r.
  pose proof (fetch_unread_emails_ids _ _ E) as Ids.
  exists emails, w'. split; [reflexivity |].
  split; [| split; [exact Ids | split; [| split; [| split]]]].
  - destruct Ids as [-> | Ids]; [simpl; lia |].
    rewrite <- (length_map email_id), Ids. apply firstn_le_length.
  - intros U. destruct Ids as [-> | Ids]; [reflexivity |].
    rewrite U, firstn_nil in Ids. now destruct emails.
  - intros F. destruct (fetch_unread_emails_no_fault max_results w F)
      as (em & w2 & E2 & I2).
    rewrite E in E2. inversion E2; subst. exact I2.
  - apply (frame_mailbox (footprint_run (footprint_fetch_unread_emails _) E)).
    intros i [].
  - reflexivity.
Qed.

(** * Body extraction *)

Lemma part_induction (P : part -> Prop) :
  (forall mimeType hs data ps, Forall P ps -> P (Part mimeType hs data ps)) ->
  forall p, P p.
Proof.
  intros H. fix IH 1. intros [mimeType hs data ps]. apply H.
  revert ps. fix IHps 1. intros [| q ps].
  - constructor.
  - constructor; [apply IH | apply IHps].
Qed.

Lemma get_body_recursive_unfold mimeType hs data ps body :
  get_body_recursive (Part mimeType hs data ps) body =
  let '(returned, body1) :=
    if String.eqb mimeType "text/plain" then
      if is_empty data then (false, body)
      else match b64decode_utf8 data with
           | Some text => (true, text)
           | None => (false, body)
           end
    else if String.eqb mimeType "text/html" && is_empty body then
      if is_empty data then (false, body)
      else match b64decode_utf8 data with
           | Some text => (false, text)
           | None => (false, body)
           end
    else (false, body) in
  if returned then (true, body1) else get_body_parts ps body1.
Proof.
  simpl.
  match goal with |- (let '(_, _) := ?s in _) = _ => destruct s as [[|] b1] end;
    [reflexivity |].
  induction ps as [| q ps IH] in b1 |- *; simpl; [reflexivity |].
  destruct (get_body_recursive q b1) as [[|] b2]; [reflexivity | apply IH].
Qed.

Lemma first_some_app A B (f : A -> option B) l1 l2 :
  first_some f (l1 ++ l2) =
  match first_some f l1 with Some y => Some y | None => first_some f l2 end.
Proof.
  induction l1 as [| x l1 IH]; simpl; [reflexivity |].
  destruct (f x); [reflexivity | exact IH].
Qed.

Lemma html_text_not_empty p t : html_text p = Some t -> is_empty t = false.
Proof.
  destruct p as [mt hs d ps]; simpl.
  destruct (String.eqb mt "text/html" && negb (is_empty d)); [| discriminate].
  destruct (b64decode_utf8 d) as [u |]; [| discriminate].
  destruct (is_empty u) eqn:E; [discriminate |].
  intros H; inversion H; subst; exact E.
Qed.

Lemma first_html_not_empty l t :
  first_some html_text l = Some t -> is_empty t = false.
Proof.
  induction l as [| p l IH]; simpl; [discriminate |].
  destruct (html_text p) as [u |] eqn:E; [| exact IH].
  intros H; inversion H; subst. eapply html_text_not_empty; eauto.
Qed.

Lemma is_empty_true s : is_empty s = true -> s = "".
Proof. destruct s; [reflexivity | discriminate]. Qed.

Lemma get_body_parts_descent ps :
  Forall (fun p => forall body,
              get_body_recursive p body = descent_result (walk p) body) ps ->
  forall body, get_body_parts ps body = descent_result (flat_map walk ps) body.
Proof.
  induction 1 as [| q ps Hq _ IH]; intros body; simpl.
  - unfold descent_result; simpl. destruct (is_empty body) eqn:E; [| reflexivity].
    now rewrite (is_empty_true _ E).
  - rewrite Hq. unfold descent_result.
    rewrite !first_some_app.
    destruct (first_some plain_text (walk q)) as [t |]; [reflexivity |].
    rewrite IH. unfold descent_result.
    destruct (first_some plain_text (flat_map walk ps)) as [t |]; [reflexivity |].
    f_equal.
    destruct (is_empty body) eqn:Eb.
    + destruct (first_some html_text (walk q)) as [t |] eqn:Eh.
      * now rewrite (first_html_not_empty _ Eh).
      * reflexivity.
    + now rewrite Eb.
Qed.

Lemma get_body_recursive_descent p :
  forall body, get_body_recursive p body = descent_result (walk p) body.
Proof.
  induction p as [mt hs d ps IH] using part_induction. intros body.
  rewrite get_body_recursive_unfold.
  pose proof (get_body_parts_descent IH) as L.
  unfold descent_result. simpl walk. simpl first_some.
  destruct (String.eqb mt "text/plain") eqn:Ep.
  - assert (Eh : String.eqb mt "text/html" = false).
    { apply String.eqb_eq in Ep; subst; reflexivity. }
    rewrite Eh. simpl andb.
    destruct (is_empty d) eqn:Ed; simpl negb; cbv iota.
    + rewrite L. reflexivity.
    + destruct (b64decode_utf8 d) as [t |]; [reflexivity | rewrite L; reflexivity].
  - simpl andb. cbv iota.
    destruct (String.eqb mt "text/html") eqn:Eh; simpl andb.
    + destruct (is_empty body) eqn:Eb; cbv iota.
      * destruct (is_empty d) eqn:Ed; simpl negb; cbv iota.
        -- rewrite L. unfold descent_result. now rewrite Eb.
        -- destruct (b64decode_utf8 d) as [t |]; rewrite L; unfold descent_result.
           ++ destruct (first_some plain_text (flat_map walk ps)); [reflexivity |].
              destruct (is_empty t) eqn:Et; reflexivity.
           ++ now rewrite Eb.
      * rewrite L. unfold descent_result. rewrite Eb.
        destruct (first_some plain_text (flat_map walk ps)); reflexivity.
    + cbv iota. rewrite L. unfold descent_result.
      destruct (first_some plain_text (flat_map walk ps)); [reflexivity |].
      destruct (is_empty body); reflexivity.
Qed.

Lemma extract_body_refines payload : extract_body payload = extract_body_spec payload.
Proof.
  unfold extract_body, extract_body_spec, chosen_text, normalize.
  rewrite get_body_recursive_descent. unfold descent_result.
  destruct (first_some plain_text (walk payload)) as [t |]; simpl snd.
  - destruct (is_empty t) eqn:E; [| reflexivity].
    rewrite (is_empty_true _ E). reflexivity.
  - destruct (first_some html_text (walk payload)) as [t |]; simpl.
    + destruct (is_empty t) eqn:E; [| reflexivity].
      rewrite (is_empty_true _ E). reflexivity.
    + reflexivity.
Qed.

(** ** The shape of an extracted body *)

Lemma take_length n : forall s, String.length (take n s) <= n.
Proof.
  unfold take. induction n as [| n IH]; intros [| c s]; simpl; try lia.
  specialize (IH s). lia.
Qed.

Lemma append_empty_r (s : string) : (s ++ "")%string = s.
Proof. induction s as [| c s IH]; simpl; [reflexivity | now rewrite IH]. Qed.

Lemma append_assoc (a b c : string) :
  ((a ++ b) ++ c)%string = (a ++ (b ++ c))%string.
Proof. induction a as [| x a IH]; simpl; [reflexivity | now rewrite IH]. Qed.

Lemma no_space_app a b :
  no_space (a ++ b) = no_space a && no_space b.
Proof.
  induction a as [| x a IH]; simpl; [reflexivity |].
  rewrite IH. now rewrite andb_assoc.
Qed.

Lemma split_ws_from_words s : forall cur,
  no_space cur = true ->
  Forall (fun w => is_word w = true) (split_ws_from cur s).
Proof.
  induction s as [| c s IH]; intros cur Hc; simpl.
  - destruct (is_empty cur) eqn:E; constructor; [| constructor].
    unfold is_word. now rewrite E, Hc.
  - destruct (isspace c) eqn:Sp.
    + destruct (is_empty cur) eqn:E.
      * now apply IH.
      * constructor; [| now apply IH]. unfold is_word. now rewrite E, Hc.
    + apply IH. rewrite no_space_app, Hc. simpl. now rewrite Sp.
Qed.

Lemma spaced_no_space w rest b :
  no_space w = true ->
  spaced b (w ++ rest) = if is_empty w then spaced b rest else spaced false rest.
Proof.
  revert b. induction w as [| c w IH]; intros b H; simpl; [reflexivity |].
  simpl in H. apply andb_prop in H as [Hc Hw].
  apply negb_true_iff in Hc. rewrite Hc, (IH false Hw).
  destruct (is_empty w); reflexivity.
Qed.

Lemma spaced_join ws :
  Forall (fun w => is_word w = true) ws -> spaced true (join " " ws) = true.
Proof.
  unfold join. induction 1 as [| w ws Hw _ IH]; [reflexivity |].
  unfold is_word in Hw. apply andb_prop in Hw as [Ne Ns].
  apply negb_true_iff in Ne.
  simpl String.concat. destruct ws as [| w2 ws].
  - rewrite <- (append_empty_r w), (@spaced_no_space w "" true Ns), Ne. reflexivity.
  - rewrite (@spaced_no_space w _ true Ns), Ne. simpl. exact IH.
Qed.

Lemma spaced_take n : forall s b, spaced b s = true -> spaced b (take n s) = true.
Proof.
  unfold take. induction n as [| n IH]; intros [| c s] b H; simpl; auto.
  simpl in H. destruct (isspace c).
  - apply andb_prop in H as [H1 H2]. rewrite H1. now apply IH.
  - now apply IH.
Qed.

Lemma spaced_no_newline s : forall b, spaced b s = true -> occurs newline s = false.
Proof.
  induction s as [| c s IH]; intros b H; [reflexivity |].
  change (occurs newline (String c s))
    with (Ascii.eqb newline c || occurs newline s).
  change (spaced b (String c s))
    with (if isspace c then Ascii.eqb c " " && negb b && spaced true s
          else spaced false s) in H.
  destruct (isspace c) eqn:Sp.
  - apply andb_prop in H as [H1 H2]. apply andb_prop in H1 as [H1 _].
    apply Ascii.eqb_eq in H1. subst c. rewrite (IH _ H2). reflexivity.
  - rewrite (IH _ H), orb_false_r.
    destruct (Ascii.eqb newline c) eqn:E; [| reflexivity].
    apply Ascii.eqb_eq in E. subst c. discriminate.
Qed.

Lemma normalize_spaced text : single_spaced (normalize text) = true.
Proof.
  unfold single_spaced, normalize. apply spaced_take, spaced_join.
  now apply split_ws_from_words.
Qed.

Lemma extract_body_spaced payload : single_spaced (extract_body payload) = true.
Proof.
  rewrite extract_body_refines. unfold extract_body_spec.
  destruct (is_empty (normalize (chosen_text payload)));
    [reflexivity | apply normalize_spaced].
Qed.

Lemma extract_body_no_newline payload : occurs newline (extract_body payload) = false.
Proof. eapply spaced_no_newline, extract_body_spaced. Qed.

(** C9. [extract_body] is the descent the specification describes: the
    text is that of the first plain-text part, in depth-first order,
    whose data decodes, and that of an HTML part only when no plain-text
    part decodes; it is base64-decoded, its whitespace is collapsed to
    single spaces, it is cut to at most 2000 characters, and the fixed
    placeholder stands in when nothing readable is left. *)
Theorem extract_body_prefers_plain_text payload :
  extract_body payload = extract_body_spec payload /\
  String.length (extract_body payload) <= 2000 /\
  single_spaced (extract_body payload) = true /\
  (forall text,
      first_some plain_text (walk payload) = Some text ->
      extract_body payload
      = if is_empty (normalize text) then NO_READABLE_CONTENT else normalize text) /\
  (forall text,
      first_some plain_text (walk payload) = None ->
      first_some html_text (walk payload) = Some text ->
      extract_body payload
      = if is_empty (normalize text) then NO_READABLE_CONTENT else normalize text) /\
  (first_some plain_text (walk payload) = None ->
   first_some html_text (walk payload) = None ->
   extract_body payload = NO_READABLE_CONTENT).
Proof.
  split; [apply extract_body_refines |].
  split; [| split; [apply extract_body_spaced |]].
  - rewrite extract_body_refines. unfold extract_body_spec.
    destruct (is_empty (normalize (chosen_text payload))).
    + simpl. lia.
    + apply take_length.
  - rewrite extract_body_refines. unfold extract_body_spec, chosen_text.
    split; [| split].
    + intros text ->. reflexivity.
    + intros text -> ->. reflexivity.
    + intros -> ->. reflexivity.
Qed.

(** * The ledger row *)

Lemma prefix_cons a s1 b s2 :
  prefix (String a s1) (String b s2)
  = if ascii_dec a b then prefix s1 s2 else false.
Proof. reflexivity. Qed.

Lemma split_from_cut sep cur c s :
  split_from sep 0 cur (String c s)
  = if prefix sep (String c s)
    then cur :: split_from sep (String.length sep - 1) "" s
    else split_from sep 0 (cur ++ String c "") s.
Proof. reflexivity. Qed.

Lemma split_from_skip sep k cur c s :
  split_from sep (S k) cur (String c s) = split_from sep k cur s.
Proof. reflexivity. Qed.

Lemma prefix_newline_other sep c s :
  Ascii.eqb newline c = false -> prefix (String newline sep) (String c s) = false.
Proof.
  intros E. rewrite prefix_cons.
  destruct (ascii_dec newline c) as [<- | _]; [| reflexivity].
  rewrite Ascii.eqb_refl in E. discriminate.
Qed.

Lemma prefix_newline_same sep s :
  prefix (String newline sep) (String newline s) = prefix sep s.
Proof.
  rewrite prefix_cons.
  destruct (ascii_dec newline newline) as [_ | N]; [reflexivity | now destruct N].
Qed.

(** A piece without newline is read through in one go. *)
Lemma split_from_piece sep x : forall cur rest,
  occurs newline x = false ->
  split_from (String newline sep) 0 cur (x ++ rest)
  = split_from (String newline sep) 0 (cur ++ x) rest.
Proof.
  induction x as [| c x IH]; intros cur rest H.
  - now rewrite append_empty_r.
  - change (occurs newline (String c x))
      with (Ascii.eqb newline c || occurs newline x) in H.
    apply orb_false_elim in H as [Hc Hx].
    change ((String c x ++ rest)%string) with (String c (x ++ rest)).
    rewrite split_from_cut, prefix_newline_other by exact Hc.
    rewrite IH by exact Hx. rewrite append_assoc. reflexivity.
Qed.

Lemma split_from_nl cur rest :
  split_from (String newline "") 0 cur (String newline "" ++ rest)
  = cur :: split_from (String newline "") 0 "" rest.
Proof.
  change ((String newline "" ++ rest)%string) with (String newline rest).
  rewrite split_from_cut, prefix_newline_same. destruct rest; reflexivity.
Qed.

Lemma split_from_blank_line cur rest :
  split_from (String newline (String newline "")) 0 cur
             (String newline (String newline "") ++ rest)
  = cur :: split_from (String newline (String newline "")) 0 "" rest.
Proof.
  change ((String newline (String newline "") ++ rest)%string)
    with (String newline (String newline rest)).
  rewrite split_from_cut, !prefix_newline_same.
  destruct rest; reflexivity.
Qed.

(** Splitting a join gives the pieces back, for a separator that starts
    with a newline and pieces that hold none. *)
Lemma split_from_join sep
  (Hsep : forall cur rest,
      split_from (String newline sep) 0 cur (String newline sep ++ rest)
      = cur :: split_from (String newline sep) 0 "" rest) x l :
  Forall (fun s => occurs newline s = false) (x :: l) ->
  forall cur,
    split_from (String newline sep) 0 cur (join (String newline sep) (x :: l))
    = (cur ++ x)%string :: l.
Proof.
  revert x. induction l as [| y l IH]; intros x H cur.
  - inversion H; subst. unfold join; simpl String.concat.
    rewrite <- (append_empty_r x) at 1.
    rewrite split_from_piece by assumption. reflexivity.
  - inversion H as [| ? ? Hx Hl]; subst.
    unfold join. change (String.concat (String newline sep) (x :: y :: l))
      with (x ++ String newline sep ++ join (String newline sep) (y :: l))%string.
    rewrite split_from_piece by assumption.
    rewrite Hsep, (IH y Hl ""). reflexivity.
Qed.

Lemma split_join_nl l :
  l <> [] -> Forall (fun s => occurs newline s = false) l ->
  split nl (join nl l) = l.
Proof.
  destruct l as [| x l]; [congruence |]. intros _ H.
  unfold split. change nl with (String newline "").
  exact (@split_from_join "" split_from_nl x l H "").
Qed.

Lemma split_join_blank_line l :
  l <> [] -> Forall (fun s => occurs newline s = false) l ->
  split (nl ++ nl) (join (nl ++ nl) l) = l.
Proof.
  destruct l as [| x l]; [congruence |]. intros _ H.
  unfold split. change (nl ++ nl)%string with (String newline (String newline "")).
  exact (@split_from_join (String newline "") split_from_blank_line x l H "").
Qed.

(** The bodies the fetch returns hold no newline. *)
Lemma for_each_fetch_one_bodies l : forall w ys w',
  for_each fetch_one l w = (Ok ys, w') ->
  Forall (fun s => occurs newline s = false) (map email_body ys).
Proof.
  induction l as [| i l IH]; intros w ys w'.
  - simpl. intros H; inversion H; constructor.
  - rewrite for_each_cons. unfold fetch_one at 1. unfold bind at 1.
    destruct (messages_get i w) as [[m | e] w1]; [| discriminate].
    unfold ret at 1.
    destruct (for_each fetch_one l w1) as [[zs | e] w2] eqn:E; [| discriminate].
    intros H; inversion H; subst. simpl. constructor.
    + apply extract_body_no_newline.
    + eapply IH; eauto.
Qed.

Lemma fetch_unread_emails_bodies n w emails w' :
  fetch_unread_emails n w = (Ok emails, w') ->
  Forall (fun s => occurs newline s = false) (map email_body emails).
Proof.
  unfold fetch_unread_emails, try_except, fetch_unread_emails_try, bind at 1.
  destruct (messages_list n w) as [[r | e] w1].
  - destruct r as [| i l].
    + simpl. intros H; inversion H; constructor.
    + destruct (for_each fetch_one (i :: l) w1) as [[ys | e] w2] eqn:E.
      * intros H; inversion H; subst. eapply for_each_fetch_one_bodies; eauto.
      * destruct e; simpl; intros H; inversion H; constructor.
  - destruct e; simpl; intros H; inversion H; constructor.
Qed.


(** * Further properties of the batch pipeline *)

(** The five ways a run can go, for both entry points. *)
Lemma run_cases w :
  (exists e w1,
      gmail_auth w = (Raise e, w1) /\
      process_unread_emails w = (Raise (HTTPException 500 (str_exn e)), w1) /\
      auto_summarize_job w
      = (Ok tt, record (ELog ERROR ("Error in auto_summarize_job: " ++ str_exn e)) w1)) \/
  (exists w1 e w2,
      gmail_auth w = (Ok tt, w1) /\ sheets_auth w1 = (Raise e, w2) /\
      process_unread_emails w = (Raise (HTTPException 500 (str_exn e)), w2) /\
      auto_summarize_job w
      = (Ok tt, record (ELog ERROR ("Error in auto_summarize_job: " ++ str_exn e)) w2)) \/
  (exists w3,
      fetched w [] w3 /\
      process_unread_emails w = (Ok NoUnreadEmails, w3) /\
      auto_summarize_job w
      = (Ok tt, record (ELog INFO "No unread emails found") w3)) \/
  (exists emails summary w4 e w5,
      summarized w emails summary w4 /\
      append_batch emails summary w4 = (Raise e, w5) /\
      process_unread_emails w = (Raise (HTTPException 500 (str_exn e)), w5) /\
      auto_summarize_job w
      = (Ok tt, record (ELog ERROR ("Error in auto_summarize_job: " ++ str_exn e)) w5)) \/
  (exists emails summary w4 w5 w6,
      summarized w emails summary w4 /\
      append_batch emails summary w4 = (Ok tt, w5) /\
      mark_as_read (map email_id emails) w5 = (Ok tt, w6) /\
      process_unread_emails w
      = (Ok (Success (List.length emails) (map email_sender emails) summary), w6) /\
      auto_summarize_job w
      = (Ok tt, record (ELog INFO ("Processed " ++ str_nat (List.length emails)
                                   ++ " emails")) w6)).
Proof.
  destruct (gmail_auth w) as [[[] | e] w1] eqn:A1.
  - destruct (sheets_auth w1) as [[[] | e] w2] eqn:A2.
    + destruct (fetch_unread_emails MAX_RESULTS_DEFAULT w2) as [r3 w3] eqn:Fe.
      destruct (fetch_unread_emails_total MAX_RESULTS_DEFAULT w2) as [emails T].
      rewrite Fe in T; simpl in T; subst r3.
      assert (F : fetched w emails w3) by (exists w1, w2; auto).
      destruct emails as [| x l].
      * right; right; left. exists w3. split; [exact F | split].
        -- unfold process_unread_emails.
           now rewrite (try_ok _ (process_try_empty F)).
        -- unfold auto_summarize_job. now rewrite (try_ok _ (job_try_empty F)).
      * destruct (summarize_email (combined_text (x :: l)) w3) as [r4 w4] eqn:Sm.
        destruct (summarize_email_total (combined_text (x :: l)) w3) as [summary T].
        rewrite Sm in T; simpl in T; subst r4.
        assert (Su : summarized w (x :: l) summary w4).
        { exists w3. repeat split; auto. discriminate. }
        destruct (append_batch (x :: l) summary w4) as [[[] | e] w5] eqn:Ap.
        -- right; right; right; right.
           destruct (run_after_write Su Ap) as (w6 & P & Mk & _).
           exists (x :: l), summary, w4, w5, w6.
           split; [exact Su | split; [first [exact Ap | reflexivity] | split; [exact Mk | split]]];
             [exact P |].
           unfold auto_summarize_job.
           rewrite (try_ok _ (a := tt)
                      (w' := record (ELog INFO ("Processed "
                               ++ str_nat (List.length (x :: l)) ++ " emails")) w6));
             [reflexivity |].
           rewrite (job_try_batch Su), (bind_ok _ Ap), (bind_ok _ Mk).
           reflexivity.
        -- right; right; right; left.
           exists (x :: l), summary, w4, e, w5.
           split; [exact Su | split; [first [exact Ap | reflexivity] | split]].
           ++ exact (failed_write_raises Su Ap).
           ++ unfold auto_summarize_job.
              rewrite (try_raise _ (e := e) (w' := w5)); [reflexivity |].
              rewrite (job_try_batch Su). now apply bind_raise.
    + right; left. exists w1, e, w2.
      split; [first [exact A1 | reflexivity] | split; [first [exact A2 | reflexivity] | split]].
      * unfold process_unread_emails.
        rewrite (try_raise _ (e := e) (w' := w2)); [reflexivity |].
        unfold process_unread_emails_try.
        rewrite (bind_ok _ A1). now apply bind_raise.
      * unfold auto_summarize_job.
        rewrite (try_raise _ (e := e) (w' := w2)); [reflexivity |].
        unfold auto_summarize_job_try.
        rewrite (bind_ok _ A1). now apply bind_raise.
  - left. exists e, w1. split; [first [exact A1 | reflexivity] | split].
    + unfold process_unread_emails.
      rewrite (try_raise _ (e := e) (w' := w1)); [reflexivity |].
      unfold process_unread_emails_try. now apply bind_raise.
    + unfold auto_summarize_job.
      rewrite (try_raise _ (e := e) (w' := w1)); [reflexivity |].
      unfold auto_summarize_job_try. now apply bind_raise.
Qed.

Lemma fetched_functional w l1 w1 l2 w2 :
  fetched w l1 w1 -> fetched w l2 w2 -> l1 = l2 /\ w1 = w2.
Proof.
  intros (a1 & a2 & A1 & A2 & F1) (b1 & b2 & B1 & B2 & F2).
  rewrite A1 in B1. injection B1 as <-.
  rewrite A2 in B2. injection B2 as <-.
  rewrite F1 in F2. injection F2 as <- <-. split; reflexivity.
Qed.

(** The scheduled job never raises, and it leaves the world as the manual
    endpoint does, with one log line more. *)
Theorem job_mirrors_endpoint w :
  fst (auto_summarize_job w) = Ok tt /\
  exists lvl text,
    snd (auto_summarize_job w)
    = record (ELog lvl text) (snd (process_unread_emails w)).
Proof.
  destruct (run_cases w)
    as [(e & w1 & _ & P & J)
       | [(w1 & e & w2 & _ & _ & P & J)
         | [(w3 & _ & P & J)
           | [(em & su & w4 & e & w5 & _ & _ & P & J)
             | (em & su & w4 & w5 & w6 & _ & _ & _ & P & J)]]]];
    rewrite P, J; simpl; (split; [reflexivity |]); eexists; eexists; reflexivity.
Qed.

(** The manual endpoint raises only [HTTPException] with status 500, and
    only for a failure of a credential flow or of the ledger write: the
    fetch, the summarizer and the mark-read step never make it fail. *)
Theorem endpoint_failures w e :
  fst (process_unread_emails w) = Raise e ->
  exists x,
    e = HTTPException 500 (str_exn x) /\
    (fst (gmail_auth w) = Raise x \/
     (exists w1, gmail_auth w = (Ok tt, w1) /\ fst (sheets_auth w1) = Raise x) \/
     (exists emails summary w4,
         summarized w emails summary w4 /\
         fst (append_batch emails summary w4) = Raise x)).
Proof.
  destruct (run_cases w)
    as [(x & w1 & A & P & _)
       | [(w1 & x & w2 & A1 & A2 & P & _)
         | [(w3 & _ & P & _)
           | [(em & su & w4 & x & w5 & Su & Ap & P & _)
             | (em & su & w4 & w5 & w6 & _ & _ & _ & P & _)]]]];
    rewrite P; simpl; intros H; inversion H; subst.
  - exists x. split; [reflexivity | left]. now rewrite A.
  - exists x. split; [reflexivity | right; left].
    exists w1. split; [exact A1 | now rewrite A2].
  - exists x. split; [reflexivity | right; right].
    exists em, su, w4. split; [exact Su | now rewrite Ap].
Qed.

(** ** The sheet only grows *)

(** A failing [append_to_sheet] leaves the sheet as it was, or with the
    header row it had the time to write. *)
Lemma append_to_sheet_raise a b c d w e w' :
  append_to_sheet a b c d w = (Raise e, w') ->
  sheet w' = sheet w \/ sheet w' = sheet w ++ [HEADER_ROW].
Proof.
  unfold append_to_sheet, try_except. rewrite append_to_sheet_try_run.
  destruct (is_empty (SPREADSHEET_ID w)).
  - simpl. intros H; inversion H; subst. now left.
  - destruct (ensure_header w) as [[[] | x] w1] eqn:EH.
    + rewrite values_append_run.
      destruct (hd None (faults w1)); simpl; [| discriminate].
      intros H; inversion H; subst; clear H. simpl.
      apply ensure_header_cases in EH
        as [(_ & _ & S & _) | [(_ & _ & S & _) | ([y E] & _)]];
        try discriminate; rewrite S; auto.
    + simpl. intros H; inversion H; subst; clear H. simpl.
      apply ensure_header_cases in EH
        as [(E & _) | [(E & _) | (_ & S & _)]]; try discriminate.
      rewrite S. now left.
Qed.

Lemma auth_keeps_state w w1 w2 r1 r2 :
  gmail_auth w = (r1, w1) -> sheets_auth w1 = (r2, w2) ->
  sheet w1 = sheet w /\ mailbox w1 = mailbox w /\
  sheet w2 = sheet w /\ mailbox w2 = mailbox w /\
  trace w1 = trace w ++ [EGmailAuth] /\
  trace w2 = trace w ++ [EGmailAuth; ESheetsAuth].
Proof.
  unfold gmail_auth, sheets_auth, service_call, ret.
  destruct (hd None (faults w)); destruct (hd None (faults w1));
    intros H1 H2; inversion H1; subst; inversion H2; subst; simpl;
    rewrite <- ?app_assoc; repeat split; reflexivity.
Qed.

Arguments auth_keeps_state {w w1 w2 r1 r2} _ _.

(** The endpoint never removes or changes a row: it adds the row of the
    batch, after the header row if the sheet lacked it, exactly when it
    returns the success response; otherwise it adds nothing, or the header
    row alone. *)
Theorem ledger_is_append_only w :
  let w' := snd (process_unread_emails w) in
  (exists emails summary,
      fst (process_unread_emails w)
      = Ok (Success (List.length emails) (map email_sender emails) summary) /\
      (sheet w' = sheet w ++ [batch_row (clock w) emails summary] \/
       sheet w' = sheet w ++ [HEADER_ROW; batch_row (clock w) emails summary])) \/
  ((forall n s m, fst (process_unread_emails w) <> Ok (Success n s m)) /\
   (sheet w' = sheet w \/ sheet w' = sheet w ++ [HEADER_ROW])).
Proof.
  cbv zeta.
  assert (BW : forall r row, ~ before_write_event (ESheetAppend r row)).
  { intros r row [[] | [[] | []]]. }
  destruct (run_cases w)
    as [(e & w1 & A & P & _)
       | [(w1 & e & w2 & A1 & A2 & P & _)
         | [(w3 & F & P & _)
           | [(em & su & w4 & e & w5 & Su & Ap & P & _)
             | (em & su & w4 & w5 & w6 & Su & Ap & Mk & P & _)]]]];
    rewrite P; simpl.
  - right. split; [discriminate |]. left.
    apply (frame_sheet (footprint_run footprint_gmail_auth A)). intros r row [].
  - right. split; [discriminate |]. left.
    destruct (auth_keeps_state A1 A2) as (_ & _ & S & _). exact S.
  - right. split; [discriminate |]. left.
    exact (proj1 (fetched_quiet F)).
  - right. split; [discriminate |].
    rewrite <- (frame_sheet (summarized_frame Su) BW).
    exact (append_to_sheet_raise _ _ _ _ _ Ap).
  - left. exists em, su. split; [reflexivity |].
    destruct (run_after_write Su Ap) as (w6' & P' & Mk' & S6 & _).
    rewrite Mk in Mk'. inversion Mk'; subst w6'.
    rewrite S6, <- (frame_sheet (summarized_frame Su) BW).
    unfold batch_row. rewrite <- (frame_clock (summarized_frame Su)).
    unfold append_batch in Ap.
    apply append_to_sheet_ok in Ap as [_ [[_ S] | [_ S]]]; rewrite S; auto.
Qed.

(** ** What a run does to the mailbox *)

Lemma clear_unread_same i m :
  map id (clear_unread i m) = map id m /\
  map payload (clear_unread i m) = map payload m.
Proof.
  unfold clear_unread. induction m as [| x m [IH1 IH2]]; simpl; [auto |].
  rewrite IH1, IH2. destruct (String.eqb (id x) i); auto.
Qed.

Lemma messages_modify_same i w r w' :
  messages_modify i w = (r, w') ->
  map id (mailbox w') = map id (mailbox w) /\
  map payload (mailbox w') = map payload (mailbox w).
Proof.
  rewrite messages_modify_run.
  destruct (hd None (faults w)); [| destruct (find_message i (mailbox w))];
    intros H; inversion H; subst; simpl; auto.
  apply clear_unread_same.
Qed.

Lemma for_each_modify_same ids : forall w r w',
  for_each messages_modify ids w = (r, w') ->
  map id (mailbox w') = map id (mailbox w) /\
  map payload (mailbox w') = map payload (mailbox w).
Proof.
  induction ids as [| i l IH]; intros w r w'.
  - simpl. intros H; inversion H; subst; auto.
  - rewrite for_each_cons.
    destruct (messages_modify i w) as [[[] | e] w1] eqn:E1.
    + destruct (for_each messages_modify l w1) as [[ys | e] w2] eqn:E2;
        intros H; inversion H; subst;
        destruct (messages_modify_same _ _ E1) as [A B];
        destruct (IH _ _ _ E2) as [C D]; split; congruence.
    + intros H; inversion H; subst. eapply messages_modify_same; eauto.
Qed.

(** What [mark_as_read] does: calls for ids of its argument and log
    lines; the messages stay, only unread flags go. *)
Lemma mark_as_read_effect ids w :
  let w' := snd (mark_as_read ids w) in
  (exists evs, trace w' = trace w ++ evs /\
               forall i, In (EModify i) evs -> In i ids) /\
  map id (mailbox w') = map id (mailbox w) /\
  map payload (mailbox w') = map payload (mailbox w) /\
  (forall j, In j (unread_ids (mailbox w')) -> In j (unread_ids (mailbox w))).
Proof.
  cbv zeta. unfold mark_as_read. destruct ids as [| i0 l0].
  - simpl. split; [exists []; split; [now rewrite app_nil_r | intros i []] | auto].
  - set (ids := i0 :: l0). unfold try_except, mark_as_read_try.
    destruct (for_each messages_modify ids w) as [r w1] eqn:E.
    pose proof (for_each_modify_same _ _ E) as [S1 S2].
    assert (U : forall j, In j (unread_ids (mailbox w1)) ->
                          In j (unread_ids (mailbox w))).
    { intros j. eapply for_each_modify_unread_sub; eauto. }
    assert (T : exists tried, trace w1 = trace w ++ map EModify tried /\
                              forall i, In i tried -> In i ids).
    { destruct (for_each_modify_run ids w)
        as [(rs & w2 & E2 & T2 & _) | (done & k & rest & e & w2 & Eq & E2 & T2 & _)];
        rewrite E in E2; inversion E2; subst.
      - exists ids. split; [exact T2 | auto].
      - exists (done ++ [k]). split; [exact T2 |].
        intros i Hi. rewrite Eq. apply in_app_or in Hi as [Hi | [<- | []]];
          apply in_or_app; [now left | right; now left]. }
    destruct T as (tried & T & Sub).
    assert (Ev : forall lvl text i,
               In (EModify i) (map EModify tried ++ [ELog lvl text]) -> In i ids).
    { intros lvl text i Hi. apply in_app_or in Hi as [Hi | [Hi | []]];
        [| discriminate].
      apply in_map_iff in Hi as (j & Ej & Hj). inversion Ej; subst. now apply Sub. }
    destruct r as [rs | e];
      [rewrite (bind_ok _ E) | rewrite (bind_raise _ E)];
      (split; [simpl; eexists; split;
                 [rewrite T, <- app_assoc; reflexivity | apply Ev]
              | split; [exact S1 | split; [exact S2 | exact U]]]).
Qed.

Lemma batch_ids w emails summary w4 :
  summarized w emails summary w4 ->
  map email_id emails
  = firstn MAX_RESULTS_DEFAULT (unread_ids (mailbox w)).
Proof.
  intros (w3 & (w1 & w2 & A1 & A2 & Fe) & Ne & _).
  destruct (auth_keeps_state A1 A2) as (_ & _ & _ & M2 & _).
  apply fetch_unread_emails_ids in Fe as [-> | Ids]; [congruence |].
  now rewrite <- M2.
Qed.

Lemma no_calls_not_in kind evs e :
  calls kind evs = 0 -> kind e = true -> ~ In e evs.
Proof.
  unfold calls. induction evs as [| x evs IH]; simpl; [tauto |].
  destruct (kind x) eqn:K; simpl; [discriminate |].
  intros Z Ke [<- | H]; [congruence | now apply IH].
Qed.

Lemma frame_no_modify (P : event -> Prop) w w' :
  (forall e, P e -> is_mark_read e = false) ->
  frame P w w' ->
  (forall i, ~ In (EModify i) (run_events w w')) /\ mailbox w' = mailbox w.
Proof.
  intros PK Fr. destruct (frame_trace Fr) as (evs & T & Fa). split.
  - intros i. rewrite (run_events_app T).
    apply no_calls_not_in with (kind := is_mark_read); [| reflexivity].
    eapply calls_none; eauto.
  - apply (frame_mailbox Fr). intros i Hi. specialize (PK _ Hi). discriminate.
Qed.

(** A run calls [modify] only for messages its own fetch listed; it never
    adds, removes or alters a message, and never makes one unread. *)
Theorem only_fetched_ids_are_marked w :
  let w' := snd (process_unread_emails w) in
  (forall i, In (EModify i) (run_events w w') ->
             In i (firstn MAX_RESULTS_DEFAULT (unread_ids (mailbox w)))) /\
  map id (mailbox w') = map id (mailbox w) /\
  map payload (mailbox w') = map payload (mailbox w) /\
  (forall j, In j (unread_ids (mailbox w')) -> In j (unread_ids (mailbox w))).
Proof.
  cbv zeta.
  assert (Quiet : forall (P : event -> Prop) w',
             (forall e, P e -> is_mark_read e = false) -> frame P w w' ->
             (forall i, In (EModify i) (run_events w w') ->
                        In i (firstn MAX_RESULTS_DEFAULT (unread_ids (mailbox w)))) /\
             map id (mailbox w') = map id (mailbox w) /\
             map payload (mailbox w') = map payload (mailbox w) /\
             (forall j, In j (unread_ids (mailbox w')) ->
                        In j (unread_ids (mailbox w)))).
  { intros P w' PK Fr. destruct (frame_no_modify PK Fr) as [N Mb].
    rewrite Mb. split; [| auto]. intros i Hi. destruct (N i Hi). }
  assert (Au : forall e, auth_event e -> is_mark_read e = false)
    by (intros []; simpl; tauto).
  destruct (run_cases w)
    as [(e & w1 & A & P & _)
       | [(w1 & e & w2 & A1 & A2 & P & _)
         | [(w3 & F & P & _)
           | [(em & su & w4 & e & w5 & Su & Ap & P & _)
             | (em & su & w4 & w5 & w6 & Su & Ap & Mk & P & _)]]]];
    rewrite P; cbn [fst snd].
  - exact (Quiet _ _ Au (footprint_run footprint_gmail_auth A)).
  - apply (Quiet auth_event); [exact Au |].
    eapply frame_trans;
      [exact (footprint_run footprint_gmail_auth A1)
      | exact (footprint_run footprint_sheets_auth A2)].
  - exact (Quiet _ _ before_write_not_mark_read (fetched_frame F)).
  - apply (Quiet (fun x => before_write_event x \/ ledger_event x));
      [| exact (failed_write_frame Su Ap)].
    intros x [H | H];
      [now apply before_write_not_mark_read | now apply ledger_not_mark_read].
  - pose proof (mark_as_read_effect (map email_id em) w5) as Ef.
    rewrite Mk in Ef. simpl in Ef.
    destruct Ef as ((evs & T & Ev) & I6 & P6 & U6).
    pose proof (summarized_frame Su) as Fa.
    pose proof (footprint_run (footprint_append_to_sheet _ _ _ _) Ap) as Fl.
    assert (M5 : mailbox w5 = mailbox w).
    { rewrite (frame_mailbox Fl) by (intros i []).
      apply (frame_mailbox Fa). intros i [[] | [[] | []]]. }
    rewrite M5 in *. split; [| auto].
    intros i Hi. rewrite <- (batch_ids Su). apply Ev.
    destruct (frame_trace Fa) as (ea & Ta & Pa).
    destruct (frame_trace Fl) as (el & Tl & Pl).
    unfold run_events in Hi. rewrite T, Tl, Ta in Hi.
    rewrite <- !app_assoc, skipn_app, skipn_all, Nat.sub_diag in Hi.
    simpl in Hi. apply in_app_or in Hi as [Hi | Hi].
    + rewrite Forall_forall in Pa. destruct (Pa _ Hi) as [[] | [[] | []]].
    + apply in_app_or in Hi as [Hi | Hi]; [| exact Hi].
      rewrite Forall_forall in Pl. destruct (Pl _ Hi).
Qed.

(** ** The order of the stages *)

Lemma summarize_email_trace text w r w' :
  summarize_email text w = (r, w') -> trace w' = trace w ++ [ESummarize text].
Proof.
  unfold summarize_email, try_except, summarize_email_try,
    chat_completions_create, bind, service_call.
  destruct (hd None (faults w)).
  - simpl. intros H; inversion H; reflexivity.
  - change (model (advance (ESummarize text) w) text) with (model w text).
    destruct (model w text); simpl; intros H; inversion H; reflexivity.
Qed.

Lemma calls_app kind a b : calls kind (a ++ b) = calls kind a + calls kind b.
Proof. unfold calls. now rewrite filter_app, length_app. Qed.

(** The trace of the three stretches of a run that writes its row. *)
Lemma stages_of_a_run w emails summary w4 w5 w6 :
  summarized w emails summary w4 ->
  append_batch emails summary w4 = (Ok tt, w5) ->
  mark_as_read (map email_id emails) w5 = (Ok tt, w6) ->
  exists fe le me,
    trace w6
    = trace w ++ [EGmailAuth; ESheetsAuth] ++ fe
      ++ [ESummarize (combined_text emails)] ++ le ++ me /\
    Forall fetch_event fe /\ Forall ledger_event le /\
    Forall mark_read_event me.
Proof.
  intros (w3 & (w1 & w2 & A1 & A2 & Fe) & _ & Sm) Ap Mk.
  destruct (auth_keeps_state A1 A2) as (_ & _ & _ & _ & _ & T2).
  destruct (frame_trace (footprint_run (footprint_fetch_unread_emails _) Fe))
    as (fe & T3 & Pf).
  pose proof (summarize_email_trace _ _ Sm) as T4.
  destruct (frame_trace (footprint_run (footprint_append_to_sheet _ _ _ _) Ap))
    as (le & T5 & Pl).
  destruct (frame_trace (footprint_run (footprint_mark_as_read _) Mk))
    as (me & T6 & Pm).
  exists fe, le, me. split; [| split; [exact Pf | split; [exact Pl | exact Pm]]].
  rewrite T6, T5, T4, T3, T2. rewrite <- !app_assoc. reflexivity.
Qed.

(** When the endpoint returns the success response, the calls of its run
    were made stage after stage: the two credential flows, the calls of
    the fetch, one summarization call with the combined text of the batch
    it answers for, the ledger calls, the mark-read calls; no call of one
    stage lies among those of another.  The scheduled job makes the same
    calls in the same order and then logs one line. *)
Theorem stages_in_order w n senders summary w' :
  process_unread_emails w = (Ok (Success n senders summary), w') ->
  exists emails fe le me,
    n = List.length emails /\ senders = map email_sender emails /\
    run_events w w'
    = [EGmailAuth; ESheetsAuth] ++ fe ++ [ESummarize (combined_text emails)]
      ++ le ++ me /\
    Forall fetch_event fe /\ Forall ledger_event le /\
    Forall mark_read_event me /\
    calls is_summarize_call (run_events w w') = 1 /\
    exists lvl text,
      run_events w (snd (auto_summarize_job w))
      = run_events w w' ++ [ELog lvl text].
Proof.
  intros H.
  destruct (run_cases w)
    as [(e & w1 & _ & P & _)
       | [(w1 & e & w2 & _ & _ & P & _)
         | [(w3 & _ & P & _)
           | [(em & su & w4 & e & w5 & _ & _ & P & _)
             | (em & su & w4 & w5 & w6 & Su & Ap & Mk & P & J)]]]];
    rewrite P in H; try discriminate.
  inversion H; subst; clear H.
  destruct (stages_of_a_run Su Ap Mk) as (fe & le & me & T & Pf & Pl & Pm).
  assert (R : run_events w w'
              = [EGmailAuth; ESheetsAuth] ++ fe
                ++ [ESummarize (combined_text em)] ++ le ++ me)
    by (apply run_events_app; exact T).
  exists em, fe, le, me.
  split; [reflexivity | split; [reflexivity | split; [exact R |]]].
  split; [exact Pf | split; [exact Pl | split; [exact Pm | split]]].
  - assert (C1 : calls is_summarize_call fe = 0)
      by (eapply calls_none; [| exact Pf]; intros []; simpl; tauto).
    assert (C2 : calls is_summarize_call le = 0)
      by (eapply calls_none; [| exact Pl]; intros []; simpl; tauto).
    assert (C3 : calls is_summarize_call me = 0)
      by (eapply calls_none; [| exact Pm]; intros []; simpl; tauto).
    rewrite R, !calls_app, C1, C2, C3. reflexivity.
  - rewrite J. simpl snd. eexists; eexists.
    rewrite R. apply run_events_app.
    change (trace (record ?x w')) with (trace w' ++ [x]).
    rewrite T, <- !app_assoc. simpl. reflexivity.
Qed.

(** ** What the fetch returns, message by message *)

Lemma find_message_id i m x : find_message i m = Some x -> id x = i.
Proof.
  unfold find_message. intros H. apply find_some in H as [_ H].
  now apply String.eqb_eq.
Qed.

Lemma for_each_fetch_one_content l : forall w ys w',
  for_each fetch_one l w = (Ok ys, w') ->
  Forall (fun e => exists m, find_message (email_id e) (mailbox w) = Some m /\
                             e = email_of m) ys.
Proof.
  induction l as [| i l IH]; intros w ys w'.
  - simpl. intros H; inversion H; constructor.
  - rewrite for_each_cons. unfold fetch_one at 1. unfold bind at 1.
    rewrite messages_get_run.
    destruct (hd None (faults w)); [discriminate |].
    destruct (find_message i (mailbox w)) as [m |] eqn:Fd; [| discriminate].
    unfold ret at 1.
    destruct (for_each fetch_one l (advance (EGet i) w)) as [[zs | e] w2] eqn:E;
      [| discriminate].
    intros H; inversion H; subst. constructor.
    + exists m. split; [| unfold email_of; now rewrite (find_message_id _ _ Fd)].
      exact Fd.
    + exact (IH _ _ _ E).
Qed.

Lemma extract_body_not_empty payload : is_empty (extract_body payload) = false.
Proof.
  rewrite extract_body_refines. unfold extract_body_spec.
  destruct (is_empty (normalize (chosen_text payload))) eqn:E;
    [reflexivity | exact E].
Qed.

Lemma extract_body_length payload : String.length (extract_body payload) <= 2000.
Proof.
  rewrite extract_body_refines. unfold extract_body_spec.
  destruct (is_empty (normalize (chosen_text payload))).
  - simpl. lia.
  - apply take_length.
Qed.

Lemma fetch_unread_emails_content max_results w emails w' :
  fetch_unread_emails max_results w = (Ok emails, w') ->
  Forall (fun e => exists m, find_message (email_id e) (mailbox w) = Some m /\
                             e = email_of m) emails.
Proof.
  unfold fetch_unread_emails, try_except, fetch_unread_emails_try, bind at 1.
  destruct (messages_list max_results w) as [[r | e] w1] eqn:L.
  - apply messages_list_result in L as [_ M1].
    destruct r as [| i l].
    + simpl. intros H; inversion H; constructor.
    + destruct (for_each fetch_one (i :: l) w1) as [[ys | e] w2] eqn:E.
      * intros H; inversion H; subst. rewrite <- M1.
        eapply for_each_fetch_one_content; eauto.
      * destruct e; simpl; intros H; inversion H; constructor.
  - destruct e; simpl; intros H; inversion H; constructor.
Qed.

(** Every tuple the fetch returns describes the message of the mailbox
    that has its id: the [From] and [Subject] values, or ["Unknown"] and
    ["No Subject"] when the header is absent, and the extracted body, which
    is never empty and never longer than 2000 characters. *)
Theorem fetched_emails_describe_messages max_results w emails w' :
  fetch_unread_emails max_results w = (Ok emails, w') ->
  Forall (fun e =>
            (exists m, find_message (email_id e) (mailbox w) = Some m /\
                       e = email_of m) /\
            is_empty (email_body e) = false /\
            String.length (email_body e) <= 2000) emails.
Proof.
  intros H. eapply Forall_impl; [| exact (fetch_unread_emails_content _ _ H)].
  intros e (m & Fd & ->). split; [eauto |].
  unfold email_of, email_body. split.
  - apply extract_body_not_empty.
  - apply extract_body_length.
Qed.

(** ** A run in which no call fails *)

Lemma for_each_fetch_one_clean l : forall w,
  faults w = [] ->
  (forall i, In i l -> exists x, find_message i (mailbox w) = Some x) ->
  exists ys w', for_each fetch_one l w = (Ok ys, w') /\ faults w' = [].
Proof.
  induction l as [| i l IH]; intros w F Fd.
  - exists [], w. split; [reflexivity | exact F].
  - rewrite for_each_cons. unfold fetch_one at 1. unfold bind at 1.
    rewrite messages_get_run, F. simpl hd. cbv iota.
    destruct (Fd i (or_introl eq_refl)) as [x ->]. cbv beta iota. unfold ret at 1.
    destruct (IH (advance (EGet i) w)) as (ys & w' & -> & F').
    + simpl. now rewrite F.
    + intros j Hj. simpl. apply Fd. now right.
    + eexists; eexists; split; [reflexivity | exact F'].
Qed.

Lemma fetch_unread_emails_clean n w :
  faults w = [] ->
  exists emails w',
    fetch_unread_emails n w = (Ok emails, w') /\ faults w' = [] /\
    map email_id emails = firstn n (unread_ids (mailbox w)).
Proof.
  intros F.
  unfold fetch_unread_emails, try_except, fetch_unread_emails_try, bind at 1.
  unfold messages_list, service_call. rewrite F. simpl hd. cbv iota.
  change (mailbox (advance (EList n) w)) with (mailbox w).
  assert (F1 : faults (advance (EList n) w) = []) by (simpl; now rewrite F).
  destruct (firstn n (unread_ids (mailbox w))) as [| i l] eqn:Fn.
  - eexists; eexists; split; [reflexivity | split; [| reflexivity]].
    simpl. now rewrite F.
  - destruct (for_each_fetch_one_clean (i :: l) (advance (EList n) w) F1)
      as (ys & w' & E & F').
    + intros j Hj. change (mailbox (advance (EList n) w)) with (mailbox w).
      apply find_message_unread. rewrite <- Fn in Hj.
      eapply in_firstn; eauto.
    + rewrite E. exists ys, w'. split; [reflexivity | split; [exact F' |]].
      eapply for_each_fetch_one_ids; eauto.
Qed.

Lemma find_message_clear i j m :
  (exists x, find_message i m = Some x) ->
  exists x, find_message i (clear_unread j m) = Some x.
Proof.
  unfold find_message, clear_unread.
  induction m as [| y m IH]; simpl; [intros [x H]; discriminate |].
  destruct (String.eqb (id y) j) eqn:Ej; simpl;
    destruct (String.eqb (id y) i) eqn:Ei; eauto.
Qed.

Lemma for_each_modify_clean ids : forall w,
  faults w = [] ->
  (forall i, In i ids -> exists x, find_message i (mailbox w) = Some x) ->
  exists rs w', for_each messages_modify ids w = (Ok rs, w').
Proof.
  induction ids as [| i l IH]; intros w F Fd.
  - exists [], w. reflexivity.
  - rewrite for_each_cons, messages_modify_run, F. simpl hd. cbv iota.
    destruct (Fd i (or_introl eq_refl)) as [x ->].
    destruct (IH (set_mailbox (clear_unread i (mailbox w)) (advance (EModify i) w)))
      as (rs & w' & ->).
    + simpl. now rewrite F.
    + intros j Hj. simpl. apply find_message_clear. apply Fd. now right.
    + eexists; eexists; reflexivity.
Qed.

Lemma append_to_sheet_clean a b c d w :
  faults w = [] -> SPREADSHEET_ID w <> EmptyString ->
  exists w', append_to_sheet a b c d w = (Ok tt, w') /\ faults w' = [].
Proof.
  intros F N. unfold append_to_sheet, try_except.
  rewrite append_to_sheet_try_run.
  destruct (SPREADSHEET_ID w); [congruence |]. simpl is_empty. cbv iota.
  destruct (ensure_header_no_fault w F) as [E F1].
  destruct (ensure_header w) as [r w1]. injection E as Er _. subst r.
  simpl in F1. rewrite values_append_run, F1. simpl.
  eexists; split; [reflexivity |]. simpl. now rewrite F1.
Qed.

Lemma clean_run w :
  faults w = [] ->
  SPREADSHEET_ID w <> EmptyString ->
  unread_ids (mailbox w) <> [] ->
  exists emails summary w',
    process_unread_emails w
    = (Ok (Success (List.length emails) (map email_sender emails) summary), w') /\
    map email_id emails
    = firstn MAX_RESULTS_DEFAULT (unread_ids (mailbox w)) /\
    (sheet w' = sheet w ++ [batch_row (clock w) emails summary] \/
     sheet w' = sheet w ++ [HEADER_ROW; batch_row (clock w) emails summary]) /\
    (forall i, In i (map email_id emails) -> ~ In i (unread_ids (mailbox w'))).
Proof.
  intros F N U.
  assert (A1 : gmail_auth w = (Ok tt, advance EGmailAuth w)).
  { unfold gmail_auth, service_call. now rewrite F. }
  set (w1 := advance EGmailAuth w) in *.
  assert (F1 : faults w1 = []) by (unfold w1; simpl; now rewrite F).
  assert (A2 : sheets_auth w1 = (Ok tt, advance ESheetsAuth w1)).
  { unfold sheets_auth, service_call. now rewrite F1. }
  set (w2 := advance ESheetsAuth w1) in *.
  assert (F2 : faults w2 = []) by (unfold w2, w1; simpl; now rewrite F).
  destruct (fetch_unread_emails_clean MAX_RESULTS_DEFAULT w2 F2)
    as (emails & w3 & Fe & F3 & Ids).
  change (mailbox w2) with (mailbox w) in Ids.
  assert (Ne : emails <> []).
  { intros ->. simpl in Ids. destruct (unread_ids (mailbox w)); [congruence |].
    discriminate. }
  assert (Sm : exists summary,
             summarize_email (combined_text emails) w3
             = (Ok summary, advance (ESummarize (combined_text emails)) w3)).
  { unfold summarize_email, try_except, summarize_email_try,
      chat_completions_create, bind, service_call. rewrite F3. simpl hd. cbv iota.
    destruct (model _ _); eexists; reflexivity. }
  destruct Sm as [summary Sm].
  set (w4 := advance (ESummarize (combined_text emails)) w3) in *.
  assert (F4 : faults w4 = []) by (unfold w4; simpl; now rewrite F3).
  assert (Su : summarized w emails summary w4).
  { exists w3. split; [exists w1, w2; auto | auto]. }
  pose proof (summarized_frame Su) as Fa.
  assert (N4 : SPREADSHEET_ID w4 <> EmptyString) by now rewrite (frame_id Fa).
  destruct (append_to_sheet_clean
              (join nl (map email_sender emails))
              (join nl (map email_subject emails))
              (join (nl ++ nl) (map email_body emails)) summary w4 F4 N4)
    as (w5 & Ap & F5).
  change (append_batch emails summary w4 = (Ok tt, w5)) in Ap.
  destruct (run_after_write Su Ap) as (w6 & P & Mk & S6 & _).
  exists emails, summary, w6.
  split; [exact P | split; [exact Ids | split]].
  - rewrite S6.
    rewrite <- (frame_sheet Fa) by (intros r row [[] | [[] | []]]).
    unfold batch_row. rewrite <- (frame_clock Fa).
    unfold append_batch in Ap.
    apply append_to_sheet_ok in Ap as [_ [[_ S] | [_ S]]]; rewrite S; auto.
  - assert (M5 : mailbox w5 = mailbox w).
    { rewrite (frame_mailbox (footprint_run (footprint_append_to_sheet _ _ _ _) Ap))
        by (intros i []).
      apply (frame_mailbox Fa). intros i [[] | [[] | []]]. }
    destruct (for_each_modify_clean (map email_id emails) w5 F5)
      as (rs & w7 & E).
    { intros i Hi. rewrite M5. apply find_message_unread.
      rewrite Ids in Hi. eapply in_firstn; eauto. }
    revert Mk. unfold mark_as_read.
    destruct (map email_id emails) as [| i0 l0] eqn:Em.
    { destruct emails; [congruence | discriminate]. }
    unfold try_except, mark_as_read_try. rewrite (bind_ok _ E).
    simpl. intros H; inversion H; subst; clear H. simpl.
    destruct (for_each_modify_run (i0 :: l0) w5)
      as [(rs' & w8 & E2 & _ & Un) | (done & k & rest & e & w8 & _ & E2 & _)];
      rewrite E in E2; inversion E2; subst.
    exact Un.
Qed.

(** With no failing call, a target identifier and something unread, the
    endpoint returns the success response for the first ten unread
    messages in the provider's order, adds their row to the sheet (after
    the header row if the sheet lacked it) and leaves none of them
    unread. *)
Theorem run_without_faults w :
  faults w = [] ->
  SPREADSHEET_ID w <> EmptyString ->
  unread_ids (mailbox w) <> [] ->
  exists emails summary w',
    process_unread_emails w
    = (Ok (Success (List.length emails) (map email_sender emails) summary), w') /\
    map email_id emails
    = firstn MAX_RESULTS_DEFAULT (unread_ids (mailbox w)) /\
    (sheet w' = sheet w ++ [batch_row (clock w) emails summary] \/
     sheet w' = sheet w ++ [HEADER_ROW; batch_row (clock w) emails summary]) /\
    (forall i, In i (map email_id emails) -> ~ In i (unread_ids (mailbox w'))).
Proof. exact (clean_run w). Qed.

(** ** The next run after a failed ledger write *)

Lemma described_by_ids (m : list message) (l1 : list email) : forall l2,
  Forall (fun e => exists x, find_message (email_id e) m = Some x /\
                             e = email_of x) l1 ->
  Forall (fun e => exists x, find_message (email_id e) m = Some x /\
                             e = email_of x) l2 ->
  map email_id l1 = map email_id l2 -> l1 = l2.
Proof.
  induction l1 as [| a l1 IH]; intros [| b l2] H1 H2 E; try discriminate; auto.
  inversion H1 as [| ? ? (x & Fx & Ex) H1']; subst.
  inversion H2 as [| ? ? (y & Fy & Ey) H2']; subst.
  simpl in E, Fx, Fy. injection E as Eab El.
  rewrite Eab, Fy in Fx. injection Fx as <-.
  f_equal. now apply IH.
Qed.

Lemma retry_after_failed_write w emails summary w4 e w5 :
  summarized w emails summary w4 ->
  append_batch emails summary w4 = (Raise e, w5) ->
  faults w5 = [] ->
  SPREADSHEET_ID w <> EmptyString ->
  exists v3 summary' w',
    fetched w5 emails v3 /\
    process_unread_emails w5
    = (Ok (Success (List.length emails) (map email_sender emails) summary'), w') /\
    last (sheet w') [] = batch_row (clock w5) emails summary' /\
    (forall i, In i (map email_id emails) -> ~ In i (unread_ids (mailbox w'))).
Proof.
  intros Su Ap F5 N.
  pose proof (failed_write_frame Su Ap) as Fr.
  assert (Mb : mailbox w5 = mailbox w).
  { apply (frame_mailbox Fr). intros i [[[] | [[] | []]] | []]. }
  pose proof (batch_ids Su) as Ids.
  assert (Ne : emails <> []) by (destruct Su as (? & _ & Ne & _); exact Ne).
  assert (U : unread_ids (mailbox w5) <> []).
  { rewrite Mb. intros Z. rewrite Z in Ids. simpl in Ids.
    destruct emails; [congruence | discriminate]. }
  assert (N5 : SPREADSHEET_ID w5 <> EmptyString) by now rewrite (frame_id Fr).
  destruct (clean_run w5 F5 N5 U) as (em' & su' & w' & P' & Ids' & _ & Un).
  destruct (run_cases w5)
    as [(x & w1 & A & _)
       | [(w1 & x & w2 & A1 & A2 & _)
         | [(w3 & F & _)
           | [(em & su & v4 & x & v5 & Su' & Ap' & _)
             | (em & su & v4 & v5 & v6 & Su' & Ap' & Mk & P & _)]]]].
  - unfold gmail_auth, service_call in A. rewrite F5 in A. discriminate.
  - unfold gmail_auth, service_call in A1. rewrite F5 in A1.
    injection A1 as <-.
    unfold sheets_auth, service_call in A2. simpl in A2. rewrite F5 in A2.
    discriminate.
  - exfalso. unfold process_unread_emails in P'.
    rewrite (try_ok _ (process_try_empty F)) in P'. discriminate.
  - exfalso. rewrite (failed_write_raises Su' Ap') in P'. discriminate.
  - pose proof (batch_ids Su') as Idm.
    assert (E : em = emails).
    { rewrite Mb, <- Ids in Idm.
      destruct Su as (w3 & (w1 & w2 & A1 & A2 & Fe) & _).
      destruct Su' as (v3 & (v1 & v2 & B1 & B2 & Fe') & _).
      apply fetch_unread_emails_content in Fe.
      apply fetch_unread_emails_content in Fe'.
      destruct (auth_keeps_state A1 A2) as (_ & _ & _ & M2 & _).
      destruct (auth_keeps_state B1 B2) as (_ & _ & _ & M2' & _).
      rewrite M2 in Fe. rewrite M2', Mb in Fe'.
      exact (described_by_ids (mailbox w) Fe' Fe Idm). }
    subst em.
    destruct (run_after_write Su' Ap') as (v6' & P6 & _ & _ & L).
    rewrite P in P6. injection P6 as <-.
    rewrite P in P'. injection P' as _ _ _ <-.
    destruct Su' as (v3 & Fv & _).
    exists v3, su, v6.
    split; [exact Fv | split; [exact P | split; [exact L |]]].
    intros i Hi. apply Un. rewrite Ids', <- Idm. exact Hi.
Qed.

(** When the endpoint has fetched a batch and then fails, and no call
    fails in the next run, the next run fetches exactly the same batch,
    returns the success response for it, writes its row and leaves none
    of its messages unread. *)
Theorem failed_write_is_retried w emails w3 e w5 :
  fetched w emails w3 ->
  process_unread_emails w = (Raise e, w5) ->
  faults w5 = [] ->
  SPREADSHEET_ID w <> EmptyString ->
  exists v3 summary' w',
    fetched w5 emails v3 /\
    process_unread_emails w5
    = (Ok (Success (List.length emails) (map email_sender emails) summary'), w') /\
    last (sheet w') []
    = [clock w5; join nl (map email_sender emails);
       join nl (map email_subject emails);
       join (nl ++ nl) (map email_body emails); summary'] /\
    (forall i, In i (map email_id emails) -> ~ In i (unread_ids (mailbox w'))).
Proof.
  intros F H F5 N.
  destruct (run_cases w)
    as [(x & w1 & A & _)
       | [(w1 & x & w2 & A1 & A2 & _)
         | [(v3 & _ & P & _)
           | [(em & su & w4 & x & v5 & Su & Ap & P & _)
             | (em & su & w4 & v5 & w6 & _ & _ & _ & P & _)]]]].
  - destruct F as (a1 & a2 & B1 & _). rewrite A in B1. discriminate.
  - destruct F as (a1 & a2 & B1 & B2 & _).
    rewrite A1 in B1. injection B1 as <-. rewrite A2 in B2. discriminate.
  - rewrite P in H. discriminate.
  - rewrite P in H. injection H as _ <-.
    assert (E : em = emails).
    { destruct Su as (v3 & Fv & _). exact (proj1 (fetched_functional Fv F)). }
    subst em. exact (retry_after_failed_write Su Ap F5 N).
  - rewrite P in H. discriminate.
Qed.

(** * The row of a batch *)

(** C4 (amended). When the endpoint has fetched a batch in the order
    [A, B, C] and returns, the last row of the sheet it leaves holds,
    after the timestamp, the newline-join of the senders, the
    newline-join of the subjects and the blank-line-join of the bodies,
    in fetch order, and the summary of the response; the scheduled job
    leaves the same row.  Splitting the bodies cell of that row at blank
    lines gives the bodies back; splitting its senders (subjects) cell at
    newlines gives the senders (subjects) back provided none of them
    holds a newline.  The batch sender1/subj1/body1, sender2/subj2/body2
    with summary "Summary text" gives the row of the scenario. *)
Theorem ledger_row_keeps_fetch_order w emails w3 r w' :
  fetched w emails w3 ->
  emails <> [] ->
  process_unread_emails w = (Ok r, w') ->
  exists summary,
    r = Success (List.length emails) (map email_sender emails) summary /\
    last (sheet w') []
    = [clock w; join nl (map email_sender emails);
       join nl (map email_subject emails);
       join (nl ++ nl) (map email_body emails); summary] /\
    last (sheet (snd (auto_summarize_job w))) [] = last (sheet w') [] /\
    split (nl ++ nl) (nth 3 (last (sheet w') []) "") = map email_body emails /\
    (Forall (fun s => occurs newline s = false) (map email_sender emails) ->
     split nl (nth 1 (last (sheet w') []) "") = map email_sender emails) /\
    (Forall (fun s => occurs newline s = false) (map email_subject emails) ->
     split nl (nth 2 (last (sheet w') []) "") = map email_subject emails) /\
    (forall id1 id2,
        emails = [(id1, "sender1", "subj1", "body1");
                  (id2, "sender2", "subj2", "body2")] ->
        summary = "Summary text" ->
        last (sheet w') []
        = [clock w; "sender1" ++ nl ++ "sender2"; "subj1" ++ nl ++ "subj2";
           "body1" ++ nl ++ nl ++ "body2"; "Summary text"]%string).
Proof.
  intros F Ne H.
  assert (Nm : forall f : email -> string, map f emails <> []).
  { intros f. destruct emails; [congruence | discriminate]. }
  destruct (run_cases w)
    as [(e & w1 & _ & P & _)
       | [(w1 & e & w2 & _ & _ & P & _)
         | [(v3 & F0 & P & _)
           | [(em & su & w4 & e & w5 & _ & _ & P & _)
             | (em & su & w4 & w5 & w6 & Su & Ap & Mk & P & J)]]]];
    rewrite P in H; try discriminate.
  - destruct (fetched_functional F F0) as [-> _]. congruence.
  - injection H as <- <-.
    assert (E : em = emails).
    { destruct Su as (v3 & Fv & _). exact (proj1 (fetched_functional Fv F)). }
    subst em.
    destruct (run_after_write Su Ap) as (w6' & P6 & _ & _ & L).
    rewrite P in P6. injection P6 as <-.
    unfold batch_row in L.
    exists su. split; [reflexivity | split; [exact L | split]].
    { rewrite J. reflexivity. }
    rewrite L. cbn [nth].
    split; [| split; [| split]].
    + apply split_join_blank_line; [apply Nm |].
      destruct F as (a1 & a2 & _ & _ & Fe).
      eapply fetch_unread_emails_bodies; eauto.
    + intros Hs. apply split_join_nl; [apply Nm | exact Hs].
    + intros Hs. apply split_join_nl; [apply Nm | exact Hs].
    + intros id1 id2 -> ->. reflexivity.
Qed.


(** * The single-message path *)

Lemma fetch_latest_email_try_run w :
  fetch_latest_email_try w =
  match messages_list 1 w with
  | (Raise e, w1) => (Raise e, w1)
  | (Ok [], w1) => (Ok NOTHING, record (ELog INFO "No unread emails found") w1)
  | (Ok (i :: _), w1) =>
      match messages_get i w1 with
      | (Raise e, w2) => (Raise e, w2)
      | (Ok m, w2) =>
          match messages_modify i w2 with
          | (Raise e, w3) => (Raise e, w3)
          | (Ok _, w3) =>
              (Ok (Some (header_value "From" "Unknown" (part_headers (payload m))),
                   Some (header_value "Subject" "No Subject"
                                      (part_headers (payload m))),
                   Some (extract_body (payload m))),
               record (ELog INFO
                         ("Successfully fetched email from "
                          ++ header_value "From" "Unknown" (part_headers (payload m))
                          ++ " with subject: "
                          ++ header_value "Subject" "No Subject"
                                          (part_headers (payload m)))) w3)
          end
      end
  end.
Proof.
  unfold fetch_latest_email_try, bind.
  destruct (messages_list 1 w) as [[[| i l] | e] w1]; reflexivity.
Qed.

Lemma fetch_latest_email_except_nothing e w :
  exists text, fetch_latest_email_except e w
               = (Ok NOTHING, record (ELog ERROR text) w).
Proof. destruct e; eexists; reflexivity. Qed.

Lemma firstn_one_hd A (l : list A) i rest :
  firstn 1 l = i :: rest -> hd_error l = Some i.
Proof. destruct l; simpl; intros H; inversion H; reflexivity. Qed.

Lemma fetch_latest_email_cases w :
  (exists i m w',
      hd_error (unread_ids (mailbox w)) = Some i /\
      find_message i (mailbox w) = Some m /\
      fetch_latest_email w
      = (Ok (Some (header_value "From" "Unknown" (part_headers (payload m))),
             Some (header_value "Subject" "No Subject" (part_headers (payload m))),
             Some (extract_body (payload m))), w') /\
      mailbox w' = clear_unread i (mailbox w) /\
      ~ In i (unread_ids (mailbox w'))) \/
  (exists w', fetch_latest_email w = (Ok NOTHING, w') /\ mailbox w' = mailbox w).
Proof.
  unfold fetch_latest_email, try_except. rewrite fetch_latest_email_try_run.
  destruct (messages_list 1 w) as [[r | e] w1] eqn:L.
  - apply messages_list_result in L as [-> M1].
    destruct (firstn 1 (unread_ids (mailbox w))) as [| i rest] eqn:Fn.
    + right. eexists; split; [reflexivity | exact M1].
    + apply firstn_one_hd in Fn.
      rewrite messages_get_run.
      destruct (hd None (faults w1)) as [x |].
      * right. destruct (fetch_latest_email_except_nothing x (advance (EGet i) w1))
          as [t ->]. eexists; split; [reflexivity | exact M1].
      * rewrite M1. destruct (find_message i (mailbox w)) as [m |] eqn:Fd.
        -- rewrite messages_modify_run.
           change (faults (advance (EGet i) w1)) with (tl (faults w1)).
           destruct (hd None (tl (faults w1))) as [x |].
           ++ right.
              destruct (fetch_latest_email_except_nothing x
                          (advance (EModify i) (advance (EGet i) w1))) as [t ->].
              eexists; split; [reflexivity | exact M1].
           ++ change (mailbox (advance (EGet i) w1)) with (mailbox w1).
              rewrite M1, Fd. left. exists i, m. eexists.
              split; [exact Fn | split; [exact Fd | split; [reflexivity |]]].
              simpl. split; [reflexivity | apply unread_clear_self].
        -- right.
           match goal with |- context [fetch_latest_email_except ?x ?u] =>
             destruct (fetch_latest_email_except_nothing x u) as [t ->] end.
           eexists; split; [reflexivity | exact M1].
  - right. destruct (fetch_latest_email_except_nothing e w1) as [t ->].
    eexists; split; [reflexivity |].
    unfold messages_list, service_call in L.
    destruct (hd None (faults w)); inversion L; reflexivity.
Qed.

Lemma footprint_fetch_latest_email : footprint latest_event fetch_latest_email.
Proof.
  unfold fetch_latest_email, fetch_latest_email_try.
  apply footprint_try_except.
  - apply footprint_bind;
      [eapply footprint_weaken; [| apply footprint_messages_list];
       intros []; simpl; tauto |].
    intros [| i l]; [repeat footprint_step |].
    apply footprint_bind;
      [eapply footprint_weaken; [| apply footprint_messages_get];
       intros []; simpl; tauto | intros m].
    apply footprint_bind;
      [eapply footprint_weaken; [| apply footprint_messages_modify];
       intros []; simpl; tauto | intros _].
    repeat footprint_step.
  - intros e; unfold fetch_latest_email_except, NOTHING.
    destruct e; repeat footprint_step.
Qed.

(** [fetch_latest_email] never raises.  Either it returns the first unread
    message, which it has already marked as read, or it returns
    [(None, None, None)] and the mailbox is as it was.  It never touches
    the sheet. *)
Theorem latest_email_is_marked_before_it_is_returned w :
  ((exists i m w',
       hd_error (unread_ids (mailbox w)) = Some i /\
       find_message i (mailbox w) = Some m /\
       fetch_latest_email w
       = (Ok (Some (header_value "From" "Unknown" (part_headers (payload m))),
              Some (header_value "Subject" "No Subject" (part_headers (payload m))),
              Some (extract_body (payload m))), w') /\
       mailbox w' = clear_unread i (mailbox w) /\
       ~ In i (unread_ids (mailbox w'))) \/
   (exists w', fetch_latest_email w = (Ok NOTHING, w') /\ mailbox w' = mailbox w)) /\
  sheet (snd (fetch_latest_email w)) = sheet w.
Proof.
  split; [apply fetch_latest_email_cases |].
  apply (frame_sheet (footprint_fetch_latest_email w)). intros r row [].
Qed.

(** ** [summarize_and_store] *)

Lemma latest_fetched_state w r w3 :
  latest_fetched w r w3 ->
  sheet w3 = sheet w /\ clock w3 = clock w /\
  (exists evs, trace w3 = trace w ++ evs /\
               calls is_summarize_call evs = 0 /\
               calls is_ledger_call evs = 0) /\
  (forall s subject email,
      r = (Some s, subject, email) ->
      exists i, hd_error (unread_ids (mailbox w)) = Some i /\
                ~ In i (unread_ids (mailbox w3))).
Proof.
  intros (w1 & w2 & A1 & A2 & Fe).
  destruct (auth_keeps_state A1 A2) as (_ & _ & S2 & M2 & _).
  pose proof (footprint_run footprint_gmail_auth A1) as F1.
  pose proof (footprint_run footprint_sheets_auth A2) as F2.
  pose proof (footprint_run footprint_fetch_latest_email Fe) as F3.
  assert (Fr : frame (fun e => auth_event e \/ latest_event e) w w3).
  { eapply frame_trans; [eapply frame_weaken; [| exact F1]; tauto |].
    eapply frame_trans; [eapply frame_weaken; [| exact F2]; tauto |].
    eapply frame_weaken; [| exact F3]; tauto. }
  split; [| split; [| split]].
  - apply (frame_sheet Fr). intros r0 row [[] | []].
  - exact (frame_clock Fr).
  - destruct (frame_trace Fr) as (evs & T & Fa). exists evs.
    split; [exact T |].
    split; eapply calls_none; try exact Fa; intros [] [H | H]; simpl in *; tauto.
  - intros s subject email ->.
    destruct (fetch_latest_email_cases w2)
      as [(i & m & w' & H & _ & E & _ & U) | (w' & E & _)];
      rewrite Fe in E; inversion E; subst.
    exists i. rewrite <- M2. split; [exact H | exact U].
Qed.

(** When [fetch_latest_email] returns no sender, or an empty one,
    [summarize_and_store] answers "No unread email found." and makes no
    summarization and no ledger call; with an empty sender the message
    has been marked as read all the same. *)
Theorem latest_without_sender_is_dropped w sender subject email w3 :
  latest_fetched w (sender, subject, email) w3 ->
  sender = None \/ sender = Some EmptyString ->
  summarize_and_store w = (Ok NoUnreadEmail, w3) /\
  sheet w3 = sheet w /\
  (exists evs, trace w3 = trace w ++ evs /\
               calls is_summarize_call evs = 0 /\
               calls is_ledger_call evs = 0) /\
  (sender = Some EmptyString ->
   exists i, hd_error (unread_ids (mailbox w)) = Some i /\
             ~ In i (unread_ids (mailbox w3))).
Proof.
  intros F Hs.
  destruct (latest_fetched_state F) as (S & _ & Ev & Mk).
  split; [| split; [exact S | split; [exact Ev |]]].
  - destruct F as (w1 & w2 & A1 & A2 & Fe).
    unfold summarize_and_store.
    rewrite (try_ok _ (a := NoUnreadEmail) (w' := w3)); [reflexivity |].
    unfold summarize_and_store_try.
    rewrite (bind_ok _ A1), (bind_ok _ A2), (bind_ok _ Fe).
    destruct Hs as [-> | ->]; reflexivity.
  - intros ->. exact (Mk _ _ _ eq_refl).
Qed.

(** When the ledger write fails in [summarize_and_store], the caller gets
    [HTTPException(500, str(e))] and no row has been written, but the
    message has already been marked as read: the next call will not see
    it. *)
Theorem latest_is_lost_when_the_write_fails w s subject email w3 summary w4 e w5 :
  latest_fetched w (Some s, subject, email) w3 ->
  is_empty s = false ->
  summarize_email (latest_text s subject email) w3 = (Ok summary, w4) ->
  append_to_sheet s (cell subject) (cell email) summary w4 = (Raise e, w5) ->
  summarize_and_store w
  = (Raise (HTTPException 500 (str_exn e)),
     record (ELog ERROR ("Error in manual summarization: " ++ str_exn e)) w5) /\
  (sheet w5 = sheet w \/ sheet w5 = sheet w ++ [HEADER_ROW]) /\
  exists i, hd_error (unread_ids (mailbox w)) = Some i /\
            ~ In i (unread_ids (mailbox w5)).
Proof.
  intros F Ns Sm Ap.
  destruct (latest_fetched_state F) as (S3 & _ & _ & Mk).
  pose proof (footprint_run (footprint_summarize_email _) Sm) as F4.
  pose proof (footprint_run (footprint_append_to_sheet _ _ _ _) Ap) as F5.
  split; [| split].
  - destruct F as (w1 & w2 & A1 & A2 & Fe).
    unfold summarize_and_store.
    rewrite (try_raise _ (e := e) (w' := w5)); [reflexivity |].
    unfold summarize_and_store_try.
    rewrite (bind_ok _ A1), (bind_ok _ A2), (bind_ok _ Fe).
    cbv beta iota. rewrite Ns.
    change ("Sender: " ++ s ++ nl ++ "Subject: " ++ fmt subject ++ nl
            ++ "Body: " ++ fmt email)%string with (latest_text s subject email).
    rewrite (bind_ok _ Sm). now apply bind_raise.
  - rewrite <- S3, <- (frame_sheet F4) by (intros r row []).
    exact (append_to_sheet_raise _ _ _ _ _ Ap).
  - destruct (Mk _ _ _ eq_refl) as (i & H & U). exists i. split; [exact H |].
    rewrite (frame_mailbox F5) by (intros j []).
    rewrite (frame_mailbox F4) by (intros j []). exact U.
Qed.

(** When everything succeeds, [summarize_and_store] returns the success
    response and the row written last holds the timestamp, the sender, the
    subject, the body and the summary of that one message, which is no
    longer unread. *)
Theorem latest_is_stored w s subject email w3 summary w4 w5 :
  latest_fetched w (Some s, subject, email) w3 ->
  is_empty s = false ->
  summarize_email (latest_text s subject email) w3 = (Ok summary, w4) ->
  append_to_sheet s (cell subject) (cell email) summary w4 = (Ok tt, w5) ->
  summarize_and_store w = (Ok (Stored s subject summary), w5) /\
  last (sheet w5) [] = [clock w; s; cell subject; cell email; summary] /\
  (sheet w5 = sheet w ++ [[clock w; s; cell subject; cell email; summary]] \/
   sheet w5 = sheet w ++ [HEADER_ROW; [clock w; s; cell subject; cell email; summary]]) /\
  exists i, hd_error (unread_ids (mailbox w)) = Some i /\
            ~ In i (unread_ids (mailbox w5)).
Proof.
  intros F Ns Sm Ap.
  destruct (latest_fetched_state F) as (S3 & C3 & _ & Mk).
  pose proof (footprint_run (footprint_summarize_email _) Sm) as F4.
  pose proof (footprint_run (footprint_append_to_sheet _ _ _ _) Ap) as F5.
  assert (C4 : clock w4 = clock w) by now rewrite (frame_clock F4).
  split; [| split; [| split]].
  - destruct F as (w1 & w2 & A1 & A2 & Fe).
    unfold summarize_and_store.
    rewrite (try_ok _ (a := Stored s subject summary) (w' := w5)); [reflexivity |].
    unfold summarize_and_store_try.
    rewrite (bind_ok _ A1), (bind_ok _ A2), (bind_ok _ Fe).
    cbv beta iota. rewrite Ns.
    change ("Sender: " ++ s ++ nl ++ "Subject: " ++ fmt subject ++ nl
            ++ "Body: " ++ fmt email)%string with (latest_text s subject email).
    rewrite (bind_ok _ Sm), (bind_ok _ Ap). reflexivity.
  - rewrite (append_to_sheet_last_row _ _ _ _ _ Ap). now rewrite C4.
  - rewrite <- S3, <- (frame_sheet F4) by (intros r row []). rewrite <- C4.
    apply append_to_sheet_ok in Ap as [_ [[_ S] | [_ S]]]; rewrite S; auto.
  - destruct (Mk _ _ _ eq_refl) as (i & H & U). exists i. split; [exact H |].
    rewrite (frame_mailbox F5) by (intros j []).
    rewrite (frame_mailbox F4) by (intros j []). exact U.
Qed.

(** * The status surface *)

(** [health_check] never raises and always answers "healthy"; each
    service is reported connected exactly when its credential flow
    succeeds, the second flow being tried whatever the first one did; the
    two flows are the only calls made. *)
Theorem health_check_is_always_healthy w :
  let w1 := snd (gmail_auth w) in
  let w2 := snd (sheets_auth w1) in
  health_check w
  = (Ok ("healthy", status_of (fst (gmail_auth w)),
         status_of (fst (sheets_auth w1))), w2) /\
  run_events w w2 = [EGmailAuth; ESheetsAuth] /\
  sheet w2 = sheet w /\ mailbox w2 = mailbox w.
Proof.
  cbv zeta.
  destruct (gmail_auth w) as [r1 w1] eqn:A1.
  destruct (sheets_auth w1) as [r2 w2] eqn:A2.
  destruct (auth_keeps_state A1 A2) as (_ & _ & S & M & _ & T).
  simpl fst; simpl snd. rewrite A2. simpl fst; simpl snd.
  split; [| split; [exact (run_events_app T) | split; [exact S | exact M]]].
  unfold health_check, probe, try_except.
  unfold bind at 1. unfold bind at 1. rewrite A1.
  destruct r1 as [[] | e1]; simpl;
    unfold bind at 1; unfold bind at 1; rewrite A2;
    destruct r2 as [[] | e2]; reflexivity.
Qed.

Lemma test_sheets_connection_run w :
  test_sheets_connection w =
  if is_empty (SPREADSHEET_ID w) then (Ok false, w)
  else match sheets_auth w with
       | (Raise _, w1) => (Ok false, w1)
       | (Ok _, w1) =>
           match values_get (SHEET_NAME w1 ++ "!A1:E1") w1 with
           | (Ok _, w2) => (Ok true, w2)
           | (Raise _, w2) => (Ok false, w2)
           end
       end.
Proof.
  unfold test_sheets_connection, try_except, bind, ask.
  destruct (is_empty (SPREADSHEET_ID w)); [reflexivity |].
  destruct (sheets_auth w) as [[[] | e] w1]; [| reflexivity].
  destruct (values_get (SHEET_NAME w1 ++ "!A1:E1") w1) as [[v | e] w2];
    reflexivity.
Qed.

(** [test_sheets_connection] never raises and never writes: the sheet and
    the mailbox are as they were.  Without a target identifier it answers
    [False] without any call; otherwise it answers [True] exactly when the
    credential flow and the read of the header range both succeed. *)
Theorem test_sheets_connection_only_reads w :
  exists b,
    fst (test_sheets_connection w) = Ok b /\
    sheet (snd (test_sheets_connection w)) = sheet w /\
    mailbox (snd (test_sheets_connection w)) = mailbox w /\
    (SPREADSHEET_ID w = EmptyString ->
     b = false /\ snd (test_sheets_connection w) = w) /\
    (b = true <->
     SPREADSHEET_ID w <> EmptyString /\
     exists w1 values w2,
       sheets_auth w = (Ok tt, w1) /\
       values_get (SHEET_NAME w ++ "!A1:E1") w1 = (Ok values, w2)).
Proof.
  rewrite test_sheets_connection_run.
  destruct (SPREADSHEET_ID w) as [| c sid] eqn:Sid; simpl is_empty; cbv iota.
  - exists false. simpl.
    split; [reflexivity | split; [reflexivity | split; [reflexivity | split]]].
    + intros _. split; reflexivity.
    + split; [discriminate | intros (N & _); congruence].
  - destruct (sheets_auth w) as [[[] | e] w1] eqn:A.
    + pose proof (footprint_run footprint_sheets_auth A) as F1.
      replace (SHEET_NAME w1) with (SHEET_NAME w)
        by (symmetry; exact (frame_name F1)).
      destruct (values_get (SHEET_NAME w ++ "!A1:E1") w1) as [[v | e] w2] eqn:G;
        pose proof (footprint_run (footprint_values_get _) G) as F2;
        assert (S : sheet w2 = sheet w)
          by (unfold values_get, service_call in G;
              destruct (hd None (faults w1)); inversion G; subst; simpl;
              apply (frame_sheet F1); intros r row []);
        assert (M : mailbox w2 = mailbox w)
          by (rewrite (frame_mailbox F2) by (intros i []);
              apply (frame_mailbox F1); intros i []).
      * exists true. simpl.
        split; [reflexivity | split; [exact S | split; [exact M | split]]].
        -- discriminate.
        -- split; [| reflexivity].
           intros _. split; [discriminate |]. exists w1, v, w2. auto.
      * exists false. simpl.
        split; [reflexivity | split; [exact S | split; [exact M | split]]].
        -- discriminate.
        -- split; [discriminate |].
           intros (_ & v1 & v & v2 & E1 & E2).
           injection E1 as <-. rewrite G in E2. discriminate.
    + pose proof (footprint_run footprint_sheets_auth A) as F1.
      exists false. simpl.
      split; [reflexivity | split; [| split; [| split]]].
      * apply (frame_sheet F1). intros r row [].
      * apply (frame_mailbox F1). intros i [].
      * discriminate.
      * split; [discriminate |].
        intros (_ & v1 & v & v2 & E1 & _). discriminate.
Qed.

(** * The summarizer on its own *)

Lemma rstrip_idempotent s : rstrip (rstrip s) = rstrip s.
Proof.
  induction s as [| c s IH]; [reflexivity |].
  change (rstrip (String c s))
    with (if is_empty (rstrip s) && isspace c then EmptyString
          else String c (rstrip s)).
  destruct (is_empty (rstrip s) && isspace c) eqn:E; [reflexivity |].
  change (rstrip (String c (rstrip s)))
    with (if is_empty (rstrip (rstrip s)) && isspace c then EmptyString
          else String c (rstrip (rstrip s))).
  rewrite IH, E. reflexivity.
Qed.

Lemma lstrip_head s :
  lstrip s = EmptyString \/
  exists c t, lstrip s = String c t /\ isspace c = false.
Proof.
  induction s as [| c s IH]; [left; reflexivity |].
  change (lstrip (String c s)) with (if isspace c then lstrip s else String c s).
  destruct (isspace c) eqn:E; [exact IH |].
  right. exists c, s. split; [reflexivity | exact E].
Qed.

Lemma rstrip_keeps_head c t :
  isspace c = false -> rstrip (String c t) = String c (rstrip t).
Proof.
  intros E.
  change (rstrip (String c t))
    with (if is_empty (rstrip t) && isspace c then EmptyString
          else String c (rstrip t)).
  rewrite E, andb_false_r. reflexivity.
Qed.

Lemma strip_idempotent s : strip (strip s) = strip s.
Proof.
  unfold strip. destruct (lstrip_head s) as [-> | (c & t & -> & E)]; [reflexivity |].
  rewrite (@rstrip_keeps_head c t E).
  change (lstrip (String c (rstrip t)))
    with (if isspace c then lstrip (rstrip t) else String c (rstrip t)).
  rewrite E, (@rstrip_keeps_head c (rstrip t) E), rstrip_idempotent. reflexivity.
Qed.

(** [summarize_email] never raises and calls the model exactly once,
    whatever the text; it touches neither the mailbox nor the sheet.  When
    the call fails, the summary is "Error generating summary: " followed
    by the text of the error; when it succeeds, the summary is the reply
    without leading and trailing whitespace. *)
Theorem summarize_email_always_answers text w :
  exists s w',
    summarize_email text w = (Ok s, w') /\
    trace w' = trace w ++ [ESummarize text] /\
    mailbox w' = mailbox w /\ sheet w' = sheet w /\
    (forall e, hd None (faults w) = Some e ->
               s = ("Error generating summary: " ++ str_exn e)%string) /\
    (hd None (faults w) = None ->
     forall reply, model w text = Some reply -> s = strip reply /\ strip s = s).
Proof.
  unfold summarize_email, try_except, summarize_email_try,
    chat_completions_create, bind, service_call.
  destruct (hd None (faults w)) as [x |].
  - eexists; eexists. split; [reflexivity |].
    split; [reflexivity | split; [reflexivity | split; [reflexivity | split]]].
    + intros e E. inversion E. reflexivity.
    + discriminate.
  - change (model (advance (ESummarize text) w) text) with (model w text).
    destruct (model w text) as [c |]; eexists; eexists;
      (split; [reflexivity |]);
      (split; [reflexivity | split; [reflexivity | split; [reflexivity | split]]]);
      try discriminate.
    intros _ reply R. inversion R. split; [reflexivity | apply strip_idempotent].
Qed.

(** * The dashboard *)

(** When no sender of the batch holds a newline, the dashboard's metric
    "Emails Processed" is the count of the response it shows. *)
Theorem dashboard_counts_the_batch w n senders summary w' :
  process_unread_emails w = (Ok (Success n senders summary), w') ->
  Forall (fun s => occurs newline s = false) senders ->
  exists cell,
    sender_cell (Success n senders summary) = Some cell /\
    email_count cell = n.
Proof.
  intros P H.
  destruct (run_cases w) as
    [(e & w1 & _ & P' & _) |
     [(w1 & e & w2 & _ & _ & P' & _) |
      [(w3 & _ & P' & _) |
       [(emails & summary' & w4 & e & w5 & _ & _ & P' & _) |
        (emails & summary' & w4 & w5 & w6 & Su & _ & _ & P' & _)]]]];
    rewrite P' in P; try discriminate.
  inversion P; subst.
  destruct Su as (w3 & _ & Ne & _).
  destruct emails as [| x emails]; [congruence |].
  exists (join nl (map email_sender (x :: emails))). split; [reflexivity |].
  unfold email_count. rewrite split_join_nl; [| discriminate | exact H].
  apply length_map.
Qed.


End Pipeline.

(** * The credential flows *)

Section CredentialFlows.

Import Credentials.

Ltac innermost x :=
  lazymatch x with
  | context [match _ with _ => _ end] => fail
  | _ => idtac
  end.

Ltac split_cases :=
  repeat match goal with
         | |- context [match ?x with _ => _ end] =>
             innermost x; destruct x eqn:?; simpl in *
         | H : context [match ?x with _ => _ end] |- _ =>
             innermost x; destruct x eqn:?; simpl in *
         end.

Ltac settle :=
  repeat match goal with
         | |- _ /\ _ => split
         | |- _ -> _ => intro
         | H : valid _ = true |- _ => rewrite H
         end;
  try reflexivity; try congruence.

(** When [gmail_auth] reaches its last line and [token.json] can be
    written: if the credentials it returns have a refresh token,
    [token.json] holds them, and [get_credentials] returns them when they
    are valid; if they have none, either they were loaded valid and the
    file was not rewritten, or the file written for them cannot be read
    back and [get_credentials] returns [None]. *)
Theorem gmail_auth_saves_what_it_returns e c e' :
  Credentials.gmail_auth e = (inr c, e') ->
  write_error e = None ->
  (refresh_token c <> None ->
   token_json e' = Holds c /\
   (valid c = true -> fst (get_credentials e') = Some c)) /\
  (refresh_token c = None ->
   (e' = e /\ token_json e = Holds c /\ valid c = true) \/
   (token_json e' = Unreadable MISSING_REFRESH_TOKEN /\
    fst (get_credentials e') = None)).
Proof.
  destruct e as [tj cj rf fl we re lg].
  unfold Credentials.gmail_auth, load_existing, refresh_step, obtain, flow_step,
    save_step, remove_token, written, Credentials.logging, set_token.
  simpl. intros H ->. revert H.
  destruct tj as [| why | c0]; simpl; split_cases; intros H;
    try discriminate; inversion H; subst; unfold get_credentials; simpl;
    try match goal with
        | E : refresh_token ?x = _ |- _ => rewrite ?E; simpl
        end;
    (split; [settle | intros N; first [left; solve [settle] | right; solve [settle]]]).
Qed.

(** A loaded token that is not valid and cannot be refreshed is used as it
    is: the flow is not run and nothing is raised, with or without
    [credentials.json], and the token is saved again.  If it has no
    refresh token, the file saved for it cannot be read back: the next
    [gmail_auth] removes it and, without [credentials.json], raises
    [FileNotFoundError]. *)
Theorem gmail_auth_keeps_an_unrefreshable_token e c :
  token_json e = Holds c ->
  valid c = false ->
  expired c && has_refresh_token c = false ->
  Credentials.gmail_auth e = (inr c, save_step c e) /\
  (refresh_token c = None ->
   write_error e = None ->
   token_json (save_step c e) = Unreadable MISSING_REFRESH_TOKEN /\
   (remove_error e = None ->
    credentials_json e = false ->
    exists e2,
      Credentials.gmail_auth (save_step c e)
      = (inl (FileNotFoundError CREDENTIALS_MISSING), e2) /\
      token_json e2 = Absent)).
Proof.
  intros T V R. split.
  - unfold Credentials.gmail_auth, load_existing, refresh_step, obtain.
    rewrite T, V, R. reflexivity.
  - intros N W.
    unfold save_step, written. rewrite W, N.
    split; [reflexivity |]. intros Re Cj.
    unfold Credentials.gmail_auth, load_existing, remove_token, obtain, flow_step.
    simpl. rewrite Re. simpl. rewrite Cj.
    eexists. split; reflexivity.
Qed.

(** What is left when [gmail_auth] raises: after [FileNotFoundError] or a
    failed flow there is no [token.json]; [FileNotFoundError] means
    [credentials.json] is missing, the wrapped [Exception] that the flow
    failed; an error of [os.remove] leaves the file where it was. *)
Theorem gmail_auth_failures e err e' :
  Credentials.gmail_auth e = (inl err, e') ->
  match err with
  | FileNotFoundError text =>
      text = CREDENTIALS_MISSING /\ credentials_json e = false /\
      token_json e' = Absent
  | Exception text =>
      credentials_json e = true /\ token_json e' = Absent /\
      exists why, flow e = inl why /\ text = oauth_failed why
  | OSError text =>
      remove_error e = Some text /\ token_json e' = token_json e
  end.
Proof.
  destruct e as [tj cj rf fl we re lg].
  unfold Credentials.gmail_auth, load_existing, refresh_step, obtain, flow_step,
    save_step, remove_token, written, Credentials.logging, set_token.
  simpl.
  destruct tj as [| why | c0]; simpl; split_cases; intros H;
    try discriminate; inversion H; subst; simpl; eauto 6.
Qed.

(** [get_credentials] changes neither file (a refreshed token is not
    saved), and what it returns is what [gmail_auth] builds the service
    with. *)
Theorem get_credentials_is_passive e :
  token_json (snd (get_credentials e)) = token_json e /\
  credentials_json (snd (get_credentials e)) = credentials_json e /\
  forall c,
    fst (get_credentials e) = Some c ->
    fst (Credentials.gmail_auth e) = inr c.
Proof.
  unfold get_credentials, Credentials.gmail_auth, load_existing, refresh_step,
    obtain.
  destruct (token_json e) as [| why | c0] eqn:T; simpl; rewrite ?T.
  - repeat split; auto. discriminate.
  - repeat split; auto. discriminate.
  - destruct (valid c0); simpl; [rewrite T; repeat split; auto; congruence |].
    destruct (expired c0 && has_refresh_token c0); simpl.
    + destruct (refresh e c0) as [why | c1]; simpl; rewrite T;
        repeat split; auto; try discriminate. congruence.
    + rewrite T. repeat split; auto. discriminate.
Qed.

(** When the setup script returns credentials, they come from the flow,
    never from the token it found, and they have been written to
    [token.json].  If they have a refresh token, the file holds them, and
    if they are valid the application then builds its service with them
    without running the flow or touching a file; if they have none, the
    file cannot be read back and [get_credentials] returns [None]. *)
Theorem setup_token_is_used_by_the_service e c e' :
  authenticate_gmail (clean_existing_auth e) = (Some c, e') ->
  flow e = inr c /\
  (refresh_token c <> None ->
   token_json e' = Holds c /\
   (valid c = true ->
    Credentials.gmail_auth e' = (inr c, e') /\
    get_credentials e' = (Some c, e'))) /\
  (refresh_token c = None ->
   token_json e' = Unreadable MISSING_REFRESH_TOKEN /\
   fst (get_credentials e') = None).
Proof.
  destruct e as [tj cj rf fl we re lg].
  unfold authenticate_gmail, clean_existing_auth, set_token.
  simpl. intros H.
  assert (K : fl = inr c /\ e' = mkEnv (written c) cj rf fl we re lg).
  { revert H. destruct tj as [| why | c0]; simpl; split_cases; intros H;
      try discriminate; inversion H; subst; split; reflexivity. }
  destruct K as (-> & ->).
  split; [reflexivity |].
  unfold written, Credentials.gmail_auth, load_existing, get_credentials. simpl.
  destruct (refresh_token c) as [t |] eqn:R; simpl.
  - split; [| congruence]. intros _. split; [reflexivity |].
    intros V. rewrite V. split; reflexivity.
  - split; [congruence |]. intros _. split; reflexivity.
Qed.

End CredentialFlows.


(** * The properties on concrete runs *)

(** Nothing unread: the run stops after the fetch. *)
Lemma no_unread_run :
  exists w3,
    fetched b64decode_ascii (Demo.world_read []) [] w3 /\
    process_unread_emails b64decode_ascii (Demo.world_read [])
    = (Ok NoUnreadEmails, w3) /\
    sheet w3 = [] /\ mailbox w3 = mailbox (Demo.world_read []).
Proof.
  eexists.
  match goal with |- ?A /\ _ => assert (F : A) end.
  { eexists; eexists. split; [| split].
    - vm_compute; reflexivity.
    - vm_compute; reflexivity.
    - vm_compute; reflexivity. }
  split; [exact F |].
  destruct (no_unread_no_side_effects F) as (P & _ & S & Mb & _).
  split; [exact P | split; [exact S | exact Mb]].
Defined.

(** The store is unavailable: the run fails and the inbox is as before. *)
Lemma write_failure_run :
  exists w4 w5,
    summarized b64decode_ascii Demo.world_write_fails Demo.batch "Summary text" w4 /\
    append_batch Demo.batch "Summary text" w4
    = (Raise (HttpError 503 "The service is currently unavailable."), w5) /\
    process_unread_emails b64decode_ascii Demo.world_write_fails
    = (Raise (HTTPException 500 "The service is currently unavailable."), w5) /\
    mailbox w5 = Demo.inbox.
Proof.
  eexists; eexists.
  match goal with |- ?A /\ ?B /\ _ => assert (Su : A); [| assert (Ap : B)] end.
  { eexists. split; [| split].
    - eexists; eexists. split; [| split].
      + vm_compute; reflexivity.
      + vm_compute; reflexivity.
      + vm_compute; reflexivity.
    - discriminate.
    - vm_compute; reflexivity. }
  { vm_compute; reflexivity. }
  split; [exact Su | split; [exact Ap |]].
  destruct (proj1 (ledger_failure_keeps_batch_unread b64decode_ascii)
              _ _ _ _ _ _ Su Ap) as (P & _ & _ & Mb & _).
  split; [exact P | exact Mb].
Defined.

(** The model fails: the error text is the summary of the row. *)
Lemma failed_summary_run :
  exists w6,
    process_unread_emails b64decode_ascii Demo.world_model_fails
    = (Ok (Success 2 ["sender1"; "sender2"]
                   "Error generating summary: rate limit exceeded"), w6) /\
    last (sheet w6) []
    = batch_row "2024-01-01 00:00:00" Demo.batch
                "Error generating summary: rate limit exceeded".
Proof.
  eapply (proj2 (summarization_failure_is_recorded b64decode_ascii)
            Demo.world_model_fails Demo.batch _
            (OtherError "rate limit exceeded") _ _).
  - eexists; eexists. split; [| split].
    + vm_compute; reflexivity.
    + vm_compute; reflexivity.
    + vm_compute; reflexivity.
  - discriminate.
  - vm_compute; reflexivity.
  - vm_compute; reflexivity.
Defined.

(** The scenario of the specification, run from the inbox to the row. *)
Lemma scenario_row_run :
  exists w3 w',
    fetched b64decode_ascii (Demo.world0 []) Demo.batch w3 /\
    process_unread_emails b64decode_ascii (Demo.world0 [])
    = (Ok (Success 2 ["sender1"; "sender2"] "Summary text"), w') /\
    last (sheet w') []
    = ["2024-01-01 00:00:00"; "sender1" ++ nl ++ "sender2";
       "subj1" ++ nl ++ "subj2"; "body1" ++ nl ++ nl ++ "body2";
       "Summary text"]%string /\
    split nl (nth 1 (last (sheet w') []) "") = ["sender1"; "sender2"] /\
    split (nl ++ nl) (nth 3 (last (sheet w') []) "") = ["body1"; "body2"].
Proof.
  eexists; eexists.
  match goal with |- ?A /\ ?B /\ _ => assert (F : A); [| assert (P : B)] end.
  { eexists; eexists. split; [| split].
    - vm_compute; reflexivity.
    - vm_compute; reflexivity.
    - vm_compute; reflexivity. }
  { vm_compute; reflexivity. }
  split; [exact F | split; [exact P |]].
  destruct (@ledger_row_keeps_fetch_order b64decode_ascii _ _ _ _ _ F
              ltac:(discriminate) P)
    as (summary & R & _ & _ & B & S & _ & Sc).
  injection R as Es.
  split; [exact (Sc "m1" "m2" eq_refl (eq_sym Es)) | split; [| exact B]].
  apply S. repeat constructor.
Defined.

(** Two header steps on the empty sheet. *)
Lemma header_twice_run :
  exists w1 w2,
    ensure_header (Demo.world0 []) = (Ok tt, w1) /\
    ensure_header w1 = (Ok tt, w2) /\
    sheet w2 = [HEADER_ROW].
Proof.
  eexists; eexists.
  match goal with |- ?A /\ ?B /\ _ => assert (H1 : A); [| assert (H2 : B)] end.
  { vm_compute; reflexivity. }
  { vm_compute; reflexivity. }
  split; [exact H1 | split; [exact H2 |]].
  exact (proj2 (proj1 (proj2 header_initialization_idempotent)
                  (Demo.world0 []) _ _ eq_refl H1 H2)).
Defined.

(** The first mark-read call fails: nothing is raised, the sheet stays. *)
Lemma mark_as_read_failure_run :
  exists w',
    mark_as_read ["m1"; "m2"] Demo.world_modify_fails = (Ok tt, w') /\
    sheet w' = sheet Demo.world_modify_fails.
Proof.
  destruct (proj1 (mark_as_read_stops_at_first_failure b64decode_ascii)
              ["m1"; "m2"] Demo.world_modify_fails)
    as (w' & E & S & _); [discriminate |].
  exists w'. split; [exact E | exact S].
Defined.

(** A timeout in the header step comes back as it was raised. *)
Lemma header_timeout_run :
  append_to_sheet "s" "t" "b" "sum" Demo.world_timeout
  = (Raise (OtherError "timed out"),
     record (ELog ERROR "Error appending to sheet: timed out")
            (advance (ESheetGet "summary1!A1:E1") Demo.world_timeout)).
Proof.
  refine (proj1 (proj2 (ledger_failures_are_raised_again
                          "s" "t" "b" "sum" Demo.world_timeout))
            _ (OtherError "timed out") _ eq_refl).
  discriminate.
Defined.

(** The fetch in the demo inbox. *)
Lemma fetch_run :
  exists emails w',
    fetch_unread_emails b64decode_ascii 10 (Demo.world0 []) = (Ok emails, w') /\
    List.length emails <= 10 /\
    map email_id emails = ["m1"; "m2"].
Proof.
  destruct (fetch_unread_emails_bounded_in_order b64decode_ascii 10 (Demo.world0 []))
    as (emails & w' & E & L & _ & _ & Ids & _).
  exists emails, w'. split; [exact E | split; [exact L | exact (Ids eq_refl)]].
Defined.

(** The body of the first demo message is its plain-text part. *)
Lemma extract_body_run :
  extract_body b64decode_ascii
    (payload (Demo.msg "m1" "sender1" "subj1" "Ym9keTE=" "PGI-aGk8L2I-" true))
  = "body1".
Proof.
  destruct (extract_body_prefers_plain_text b64decode_ascii
              (payload (Demo.msg "m1" "sender1" "subj1" "Ym9keTE=" "PGI-aGk8L2I-" true)))
    as (_ & _ & _ & Hp & _).
  exact (Hp "body1" eq_refl).
Defined.

(** The read of the second message fails: the run reports nothing unread. *)
Lemma fetch_failure_run :
  exists w1 w2 w3,
    gmail_auth Demo.world_get_fails = (Ok tt, w1) /\
    sheets_auth w1 = (Ok tt, w2) /\
    fetch_unread_emails_try b64decode_ascii MAX_RESULTS_DEFAULT w2
    = (Raise (HttpError 500 "Backend Error"), w3) /\
    exists text,
      process_unread_emails b64decode_ascii Demo.world_get_fails
      = (Ok NoUnreadEmails, record (ELog ERROR text) w3).
Proof.
  eexists; eexists; eexists.
  match goal with |- ?A /\ ?B /\ ?C /\ _ =>
    assert (H1 : A); [| assert (H2 : B); [| assert (H3 : C)]] end.
  { vm_compute; reflexivity. }
  { vm_compute; reflexivity. }
  { vm_compute; reflexivity. }
  split; [exact H1 | split; [exact H2 | split; [exact H3 |]]].
  destruct (fetch_failure_reads_as_no_unread b64decode_ascii _ H1 H2 H3)
    as (text & _ & P & _).
  exists text. exact P.
Defined.

(** * Where the specification says more than the code does *)

(** C4, as stated: a sender that holds a newline does not come back from
    splitting the senders cell. *)
Lemma two_line_sender_does_not_split_back :
  fst (process_unread_emails b64decode_ascii Demo.world_two_line_sender)
  = Ok (Success 1 [Demo.two_line_sender] "Summary text") /\
  last (sheet (snd (process_unread_emails b64decode_ascii
                      Demo.world_two_line_sender))) []
  = ["2024-01-01 00:00:00"; Demo.two_line_sender; "subj7"; "body1";
     "Summary text"] /\
  split nl (join nl [Demo.two_line_sender]) = ["Ann Lee"; " <ann@example.org>"] /\
  split nl (join nl [Demo.two_line_sender]) <> [Demo.two_line_sender].
Proof.
  split; [reflexivity | split; [reflexivity | split; [reflexivity |]]].
  vm_compute. discriminate.
Qed.

(** C6, as stated: after the failure for "m1" no call is made for "m2",
    which stays unread, and the function returns the same nothing as in a
    run without failure. *)
Lemma mark_as_read_leaves_second_id_untried :
  fst (mark_as_read ["m1"; "m2"] Demo.world_modify_fails) = Ok tt /\
  fst (mark_as_read ["m1"; "m2"] (Demo.world0 [])) = Ok tt /\
  run_events Demo.world_modify_fails
             (snd (mark_as_read ["m1"; "m2"] Demo.world_modify_fails))
  = [EModify "m1"; ELog ERROR "Error marking emails as read: Backend Error"] /\
  ~ all_attempted ["m1"; "m2"] Demo.world_modify_fails
      (snd (mark_as_read ["m1"; "m2"] Demo.world_modify_fails)) /\
  In "m2" (unread_ids (mailbox (snd (mark_as_read ["m1"; "m2"]
                                       Demo.world_modify_fails)))).
Proof.
  split; [reflexivity | split; [reflexivity | split; [reflexivity | split]]].
  - intros H. specialize (H "m2" (or_intror (or_introl eq_refl))).
    vm_compute in H. destruct H as [H | [H | []]]; discriminate.
  - vm_compute. right; left; reflexivity.
Qed.

(** C7, as stated: a timeout reaches the caller as the exception the
    provider raised, which is none of the typed failures. *)
Lemma timeout_is_not_a_typed_failure :
  fst (append_to_sheet "s" "t" "b" "sum" Demo.world_timeout)
  = Raise (OtherError "timed out") /\
  typed_failure (OtherError "timed out") = None.
Proof. split; reflexivity. Qed.

(** * The further properties on concrete runs *)

(** The store is unavailable: the endpoint answers 500 with the text of
    the provider's error. *)
Lemma endpoint_failure_run :
  exists x,
    HTTPException 500 "The service is currently unavailable."
    = HTTPException 500 (str_exn x) /\
    (fst (gmail_auth Demo.world_write_fails) = Raise x \/
     (exists w1, gmail_auth Demo.world_write_fails = (Ok tt, w1) /\
                 fst (sheets_auth w1) = Raise x) \/
     (exists emails summary w4,
         summarized b64decode_ascii Demo.world_write_fails emails summary w4 /\
         fst (append_batch emails summary w4) = Raise x)).
Proof.
  apply (@endpoint_failures b64decode_ascii Demo.world_write_fails).
  vm_compute; reflexivity.
Defined.

(** The stages of the run in the demo inbox. *)
Lemma stages_run :
  exists emails fe le me,
    2 = List.length emails /\ ["sender1"; "sender2"] = map email_sender emails /\
    run_events (Demo.world0 [])
               (snd (process_unread_emails b64decode_ascii (Demo.world0 [])))
    = [EGmailAuth; ESheetsAuth] ++ fe ++ [ESummarize (combined_text emails)]
      ++ le ++ me /\
    Forall fetch_event fe /\ Forall ledger_event le /\
    Forall mark_read_event me /\
    calls is_summarize_call
      (run_events (Demo.world0 [])
                  (snd (process_unread_emails b64decode_ascii (Demo.world0 []))))
    = 1 /\
    exists lvl text,
      run_events (Demo.world0 [])
                 (snd (auto_summarize_job b64decode_ascii (Demo.world0 [])))
      = run_events (Demo.world0 [])
                   (snd (process_unread_emails b64decode_ascii (Demo.world0 [])))
        ++ [ELog lvl text].
Proof.
  apply (@stages_in_order b64decode_ascii (Demo.world0 []) 2
           ["sender1"; "sender2"] "Summary text").
  vm_compute; reflexivity.
Defined.

(** The tuples fetched in the demo inbox. *)
Lemma fetched_emails_run :
  Forall (fun e =>
            (exists m, find_message (email_id e) (mailbox (Demo.world0 [])) = Some m /\
                       e = email_of b64decode_ascii m) /\
            is_empty (email_body e) = false /\
            String.length (email_body e) <= 2000) Demo.batch.
Proof.
  eapply (@fetched_emails_describe_messages b64decode_ascii 10 (Demo.world0 [])
            Demo.batch).
  vm_compute; reflexivity.
Defined.

(** The run in the demo inbox, where no call fails. *)
Lemma clean_demo_run :
  exists emails summary w',
    process_unread_emails b64decode_ascii (Demo.world0 [])
    = (Ok (Success (List.length emails) (map email_sender emails) summary), w') /\
    map email_id emails
    = firstn MAX_RESULTS_DEFAULT (unread_ids (mailbox (Demo.world0 []))) /\
    (sheet w' = sheet (Demo.world0 []) ++ [batch_row (clock (Demo.world0 [])) emails summary] \/
     sheet w' = sheet (Demo.world0 [])
                ++ [HEADER_ROW; batch_row (clock (Demo.world0 [])) emails summary]) /\
    (forall i, In i (map email_id emails) -> ~ In i (unread_ids (mailbox w'))).
Proof.
  apply (@run_without_faults b64decode_ascii (Demo.world0 [])).
  - reflexivity.
  - vm_compute; discriminate.
  - vm_compute; discriminate.
Defined.

(** The store is unavailable once: the next run writes the same batch. *)
Lemma retry_run :
  exists w3 w5,
    fetched b64decode_ascii Demo.world_write_fails Demo.batch w3 /\
    process_unread_emails b64decode_ascii Demo.world_write_fails
    = (Raise (HTTPException 500 "The service is currently unavailable."), w5) /\
    exists v3 summary' w',
      fetched b64decode_ascii w5 Demo.batch v3 /\
      process_unread_emails b64decode_ascii w5
      = (Ok (Success 2 ["sender1"; "sender2"] summary'), w') /\
      ~ In "m1" (unread_ids (mailbox w')).
Proof.
  eexists; eexists.
  match goal with |- ?A /\ ?B /\ _ => assert (F : A); [| assert (P : B)] end.
  { eexists; eexists. split; [| split].
    - vm_compute; reflexivity.
    - vm_compute; reflexivity.
    - vm_compute; reflexivity. }
  { vm_compute; reflexivity. }
  split; [exact F | split; [exact P |]].
  destruct (@failed_write_is_retried b64decode_ascii _ _ _ _ _ F P)
    as (v3 & summary' & w' & Fv & Pv & _ & Un).
  - reflexivity.
  - vm_compute; discriminate.
  - exists v3, summary', w'.
    split; [exact Fv | split; [exact Pv | apply Un; left; reflexivity]].
Defined.

(** A message with an empty [From] value: nothing is summarized or
    stored, and the message is no longer unread. *)
Lemma empty_sender_run :
  exists w3,
    latest_fetched b64decode_ascii Demo.world_empty_sender
      (Some EmptyString, Some "subj9", Some "body1") w3 /\
    summarize_and_store b64decode_ascii Demo.world_empty_sender
    = (Ok NoUnreadEmail, w3) /\
    sheet w3 = sheet Demo.world_empty_sender /\
    exists i, hd_error (unread_ids (mailbox Demo.world_empty_sender)) = Some i /\
              ~ In i (unread_ids (mailbox w3)).
Proof.
  eexists.
  match goal with |- ?A /\ _ => assert (F : A) end.
  { eexists; eexists. split; [| split].
    - vm_compute; reflexivity.
    - vm_compute; reflexivity.
    - vm_compute; reflexivity. }
  split; [exact F |].
  destruct (@latest_without_sender_is_dropped b64decode_ascii _ _ _ _ _ F
              (or_intror eq_refl)) as (P & S & _ & I).
  split; [exact P | split; [exact S | exact (I eq_refl)]].
Defined.

(** The store is unavailable: the single message is answered with 500,
    not stored, and no longer unread. *)
Lemma latest_lost_run :
  exists w3 w4 w5,
    latest_fetched b64decode_ascii Demo.world_write_fails
      (Some "sender1", Some "subj1", Some "body1") w3 /\
    summarize_email (latest_text "sender1" (Some "subj1") (Some "body1")) w3
    = (Ok "Summary text", w4) /\
    append_to_sheet "sender1" "subj1" "body1" "Summary text" w4
    = (Raise (HttpError 503 "The service is currently unavailable."), w5) /\
    fst (summarize_and_store b64decode_ascii Demo.world_write_fails)
    = Raise (HTTPException 500 "The service is currently unavailable.") /\
    sheet w5 = [] /\
    ~ In "m1" (unread_ids (mailbox w5)).
Proof.
  eexists; eexists; eexists.
  match goal with |- ?A /\ ?B /\ ?C /\ _ =>
    assert (H1 : A); [| assert (H2 : B); [| assert (H3 : C)]] end.
  { eexists; eexists. split; [| split].
    - vm_compute; reflexivity.
    - vm_compute; reflexivity.
    - vm_compute; reflexivity. }
  { vm_compute; reflexivity. }
  { vm_compute; reflexivity. }
  split; [exact H1 | split; [exact H2 | split; [exact H3 |]]].
  destruct (@latest_is_lost_when_the_write_fails b64decode_ascii _ _ _ _ _ _ _ _ _
              H1 eq_refl H2 H3) as (P & _ & _).
  split; [rewrite P; reflexivity |].
  split; [vm_compute; reflexivity |].
  vm_compute. intros [H | []]. discriminate.
Defined.

(** The first unread message of the demo inbox, stored on its own. *)
Lemma latest_stored_run :
  exists w3 w4 w5,
    latest_fetched b64decode_ascii (Demo.world0 [])
      (Some "sender1", Some "subj1", Some "body1") w3 /\
    summarize_email (latest_text "sender1" (Some "subj1") (Some "body1")) w3
    = (Ok "Summary text", w4) /\
    append_to_sheet "sender1" "subj1" "body1" "Summary text" w4 = (Ok tt, w5) /\
    summarize_and_store b64decode_ascii (Demo.world0 [])
    = (Ok (Stored "sender1" (Some "subj1") "Summary text"), w5) /\
    last (sheet w5) []
    = ["2024-01-01 00:00:00"; "sender1"; "subj1"; "body1"; "Summary text"].
Proof.
  eexists; eexists; eexists.
  match goal with |- ?A /\ ?B /\ ?C /\ _ =>
    assert (H1 : A); [| assert (H2 : B); [| assert (H3 : C)]] end.
  { eexists; eexists. split; [| split].
    - vm_compute; reflexivity.
    - vm_compute; reflexivity.
    - vm_compute; reflexivity. }
  { vm_compute; reflexivity. }
  { vm_compute; reflexivity. }
  split; [exact H1 | split; [exact H2 | split; [exact H3 |]]].
  destruct (@latest_is_stored b64decode_ascii _ _ _ _ _ _ _ _
              H1 eq_refl H2 H3) as (P & L & _).
  split; [exact P | exact L].
Defined.

(** A stale token is refreshed, and the refreshed credentials are what
    [token.json] holds afterwards. *)
Lemma refreshed_token_run :
  Credentials.token_json
    (snd (Credentials.gmail_auth
            (TokenDemo.with_token (Credentials.Holds TokenDemo.stale))))
  = Credentials.Holds TokenDemo.fresh /\
  (Credentials.valid TokenDemo.fresh = true ->
   fst (Credentials.get_credentials
          (snd (Credentials.gmail_auth
                  (TokenDemo.with_token (Credentials.Holds TokenDemo.stale)))))
   = Some TokenDemo.fresh).
Proof.
  refine (proj1 (@gmail_auth_saves_what_it_returns
                   (TokenDemo.with_token (Credentials.Holds TokenDemo.stale))
                   TokenDemo.fresh _ _ _) _).
  - vm_compute; reflexivity.
  - reflexivity.
  - discriminate.
Defined.

(** An expired token without a refresh token is returned as it is, though
    there is no [credentials.json]; the file saved for it is unreadable,
    and the next call removes it and raises. *)
Lemma dead_token_run :
  fst (Credentials.gmail_auth
         (TokenDemo.with_token (Credentials.Holds TokenDemo.dead)))
  = inr TokenDemo.dead /\
  exists e2,
    Credentials.gmail_auth
      (Credentials.save_step TokenDemo.dead
         (TokenDemo.with_token (Credentials.Holds TokenDemo.dead)))
    = (inl (Credentials.FileNotFoundError Credentials.CREDENTIALS_MISSING), e2) /\
    Credentials.token_json e2 = Credentials.Absent.
Proof.
  destruct (@gmail_auth_keeps_an_unrefreshable_token
              (TokenDemo.with_token (Credentials.Holds TokenDemo.dead))
              TokenDemo.dead eq_refl eq_refl eq_refl) as (G & N).
  split; [rewrite G; reflexivity |].
  exact (proj2 (N eq_refl eq_refl) eq_refl eq_refl).
Defined.

(** An unreadable [token.json] and no [credentials.json]: the token file
    is removed before [FileNotFoundError] is raised. *)
Lemma corrupt_token_run :
  Credentials.CREDENTIALS_MISSING = Credentials.CREDENTIALS_MISSING /\
  Credentials.credentials_json
    (TokenDemo.with_token (Credentials.Unreadable "Expecting value")) = false /\
  Credentials.token_json
    (snd (Credentials.gmail_auth
            (TokenDemo.with_token (Credentials.Unreadable "Expecting value"))))
  = Credentials.Absent.
Proof.
  apply (@gmail_auth_failures
           (TokenDemo.with_token (Credentials.Unreadable "Expecting value"))
           (Credentials.FileNotFoundError Credentials.CREDENTIALS_MISSING)).
  vm_compute; reflexivity.
Defined.

(** The setup script run over an old token: with a refresh token the
    application gets the credentials of the flow; without one the file
    written for them does not load. *)
Lemma setup_run :
  fst (Credentials.gmail_auth
         (snd (Credentials.authenticate_gmail
                 (Credentials.clean_existing_auth
                    (TokenDemo.before_setup TokenDemo.fresh)))))
  = inr TokenDemo.fresh /\
  fst (Credentials.get_credentials
         (snd (Credentials.authenticate_gmail
                 (Credentials.clean_existing_auth
                    (TokenDemo.before_setup TokenDemo.access_only)))))
  = None.
Proof.
  split.
  - destruct (@setup_token_is_used_by_the_service
                (TokenDemo.before_setup TokenDemo.fresh) TokenDemo.fresh
                (snd (Credentials.authenticate_gmail
                        (Credentials.clean_existing_auth
                           (TokenDemo.before_setup TokenDemo.fresh)))))
      as (_ & Q & _).
    + vm_compute; reflexivity.
    + destruct (Q ltac:(discriminate)) as (_ & G).
      rewrite (proj1 (G eq_refl)). reflexivity.
  - destruct (@setup_token_is_used_by_the_service
                (TokenDemo.before_setup TokenDemo.access_only)
                TokenDemo.access_only
                (snd (Credentials.authenticate_gmail
                        (Credentials.clean_existing_auth
                           (TokenDemo.before_setup TokenDemo.access_only)))))
      as (_ & _ & Q).
    + vm_compute; reflexivity.
    + exact (proj2 (Q eq_refl)).
Defined.

(** The dashboard after the run in the demo inbox. *)
Lemma dashboard_run :
  exists cell,
    sender_cell (Success 2 ["sender1"; "sender2"] "Summary text") = Some cell /\
    email_count cell = 2.
Proof.
  eapply (@dashboard_counts_the_batch b64decode_ascii (Demo.world0 [])).
  - vm_compute; reflexivity.
  - repeat constructor.
Defined.
